(** * apple-invoice-pdf: invoice intake and transformation pipeline

    A shallow embedding of [main.go] (the version with the nested
    [Filter]/[Email] configuration, the current-month filter and
    [extractOrderNumber]) and the properties of its filter predicate,
    mailbox scanner, content extractor, HTML transformer and naming
    strategy.

    Conventions.
    - A Go [string] is modelled by the sequence of runes that UTF-8 decoding
      yields ([for range s]); [regexp], [strings.TrimSpace] and
      [strings.ToLower] all work rune by rune.  ASCII literals of the source
      are written with [str].
    - Go's [int] is the 64-bit signed integer of the usual targets and
      [uint32] is written as a [Z] with its wrap-around spelled out.
    - The IMAP server, the MIME reader and the HTML parser are libraries
      outside the repository; they appear as explicit inputs (scripts of
      what the library returns, parsed documents).
    - [time.Now()] is a clock that [matchesFilter] reads once in each call;
      the readings of a scan are numbered from zero. *)

From Stdlib Require Import ZArith List Bool Lia String Ascii.
Import ListNotations.
Open Scope Z_scope.

(* ================================================================== *)
(** ** Go strings *)

Module GoString.

Definition rune := Z.
Definition gostring := list rune.

(** An ASCII literal of the source. *)
Definition str (s : string) : gostring :=
  map (fun a => Z.of_N (N_of_ascii a)) (list_ascii_of_string s).

Definition eqb (a b : gostring) : bool :=
  if list_eq_dec Z.eq_dec a b then true else false.

(** [strings.HasPrefix]. *)
Fixpoint HasPrefix (s prefix : gostring) {struct prefix} : bool :=
  match prefix with
  | [] => true
  | p :: prefix' =>
      match s with
      | [] => false
      | c :: s' => (c =? p) && HasPrefix s' prefix'
      end
  end.

(** [strings.TrimPrefix]. *)
Definition TrimPrefix (s prefix : gostring) : gostring :=
  if HasPrefix s prefix then skipn (List.length prefix) s else s.

(** [strings.Contains]: [substr] occurs at some position of [s]. *)
Fixpoint Contains (s substr : gostring) : bool :=
  HasPrefix s substr ||
  match s with
  | [] => false
  | _ :: s' => Contains s' substr
  end.

(** [strings.IndexAny]: position of the first rune of [s] that is in
    [chars], [-1] when there is none. *)
Fixpoint IndexAny (s chars : gostring) : Z :=
  match s with
  | [] => -1
  | c :: s' =>
      if existsb (Z.eqb c) chars then 0
      else let i := IndexAny s' chars in
           if i <? 0 then -1 else i + 1
  end.

(** [s[:idx]] for [0 <= idx <= len(s)]. *)
Definition slice_to (s : gostring) (idx : Z) : gostring :=
  firstn (Z.to_nat idx) s.

(** [unicode.IsSpace]: the Latin-1 switch, then the White_Space table. *)
Definition IsSpace (r : rune) : bool :=
  if (0 <=? r) && (r <=? 255) then
    (r =? 9) || (r =? 10) || (r =? 11) || (r =? 12) || (r =? 13)
    || (r =? 32) || (r =? 133) || (r =? 160)
  else
    (r =? 5760) || ((8192 <=? r) && (r <=? 8202)) || (r =? 8232)
    || (r =? 8233) || (r =? 8239) || (r =? 8287) || (r =? 12288).

Fixpoint dropWhile (f : rune -> bool) (s : gostring) : gostring :=
  match s with
  | [] => []
  | c :: s' => if f c then dropWhile f s' else s
  end.

(** [strings.TrimSpace]: leading and trailing white space removed. *)
Definition TrimSpace (s : gostring) : gostring :=
  rev (dropWhile IsSpace (rev (dropWhile IsSpace s))).

(** [strings.ToLower] maps [unicode.ToLower] over the runes.  On ASCII the
    mapping is spelled out; above it the Unicode case table [table] of the
    Go runtime is used. *)
Definition ToLowerRune (table : rune -> rune) (r : rune) : rune :=
  if (0 <=? r) && (r <? 128) then
    if (65 <=? r) && (r <=? 90) then r + 32 else r
  else table r.

Definition ToLower (table : rune -> rune) (s : gostring) : gostring :=
  map (ToLowerRune table) s.

End GoString.
Import GoString.

(* ================================================================== *)
(** ** Data model: time, envelopes, configuration *)

(** [time.Month]: January = 1 ... December = 12. *)
Inductive Month : Set :=
| January | February | March | April | May | June
| July | August | September | October | November | December.

Definition Month_number (m : Month) : Z :=
  match m with
  | January => 1 | February => 2 | March => 3 | April => 4
  | May => 5 | June => 6 | July => 7 | August => 8
  | September => 9 | October => 10 | November => 11 | December => 12
  end.

Definition Month_eqb (a b : Month) : bool :=
  Month_number a =? Month_number b.

(** [time.Time] as the calendar reading in its own location: the code only
    observes [Year()] and [Month()]. *)
Record Time : Set := mkTime {
  Year : Z;
  Month_of : Month;
  Day : Z;
  SecondOfDay : Z
}.

(** [imap.Address]. *)
Record Address : Set := mkAddress {
  PersonalName : gostring;
  AtDomainList : gostring;
  MailboxName : gostring;
  HostName : gostring
}.

(** [imap.Envelope] (the fields a fetch of ENVELOPE fills in). *)
Record Envelope : Set := mkEnvelope {
  Date : Time;
  Subject : gostring;
  From : list Address;
  Sender : list Address;
  To : list Address
}.

Module Endpoint.
Record t : Set := mk { Host : gostring; Port : Z }.
End Endpoint.

Module EmailCfg.
Record t : Set := mk { From : gostring; To : gostring; Subject : gostring }.
End EmailCfg.

Module FilterCfg.
Record t : Set := mk { Count : Z; Subject : gostring; From : gostring }.
End FilterCfg.

(** [Config]. *)
Record Config : Set := mkConfig {
  IMAP : Endpoint.t;
  SMTP : Endpoint.t;
  User : gostring;
  Pass : gostring;
  Email : EmailCfg.t;
  Filter : FilterCfg.t
}.

(* ================================================================== *)
(** ** Filter predicate *)

Section FilterPredicate.

(** The Unicode lower-case table of the Go runtime (non-ASCII runes). *)
Variable unicodeLower : rune -> rune.

(** The [for _, addr := range env.From] loop of [matchesFilter]. *)
Fixpoint anyHostMatches (addrs : list Address) (filterFrom : gostring) : bool :=
  match addrs with
  | [] => false
  | addr :: rest =>
      if Contains (ToLower unicodeLower (HostName addr))
                  (ToLower unicodeLower filterFrom)
      then true
      else anyHostMatches rest filterFrom
  end.

(** [matchesFilter]; [now] is the value of [time.Now()]. *)
Definition matchesFilter (now : Time) (env : Envelope) (cfg : Config) : bool :=
  if negb (Year (Date env) =? Year now)
     || negb (Month_eqb (Month_of (Date env)) (Month_of now))
  then false
  else if negb (GoString.eqb (Subject env) (FilterCfg.Subject (Filter cfg)))
  then false
  else anyHostMatches (From env) (FilterCfg.From (Filter cfg)).

(** [sub] occurs in [s] up to letter case: some segment of [s] and [sub]
    have the same lower-casing. *)
Definition ci_substring (sub s : gostring) : Prop :=
  exists pre mid post,
    s = pre ++ mid ++ post
    /\ ToLower unicodeLower mid = ToLower unicodeLower sub.

End FilterPredicate.

(* ================================================================== *)
(** ** Errors, outcomes and the scan monad *)

(** Go [error] values: an error handed over by a library, a fresh
    [fmt.Errorf] message, or a [fmt.Errorf("context: %w", err)] wrapper. *)
Inductive Error : Set :=
| LibError (code : Z)
| ErrorNew (msg : string)
| Wrap (context : string) (cause : Error).

(** How a call ends: a value, a returned error, or a run-time panic. *)
Inductive Outcome (A : Type) : Type :=
| Ok (a : A)
| Err (e : Error)
| Panic.
Arguments Ok {A} a.
Arguments Err {A} e.
Arguments Panic {A}.

(** [imap.Seq] and [imap.SeqSet] of go-imap.  Zero stands for [*]: a
    sequence value is a number [n] (as [(n, n)]), a range [n:m], the range
    [n:*] (as [(n, 0)]), or [*] alone (as [(0, 0)]).  A set is the list of
    its values, which the library keeps sorted and merged. *)
Definition Seq : Set := (Z * Z)%type.
Definition SeqSet : Set := list Seq.

(** [Seq.Less]: the value precedes the number [q] and does not hold it. *)
Definition Seq_Less (s : Seq) (q : Z) : bool :=
  ((snd s <? q) || (q =? 0)) && negb (snd s =? 0).

(** [Seq.Merge]: the union of two values that intersect or touch, if they
    do.  (On [uint32] the library tests [s.Stop+1 >= t.Start ||
    s.Stop == ^uint32(0)], which is [Stop + 1 >= Start] over the
    integers.) *)
Definition Seq_Merge (s t : Seq) : option Seq :=
  if (fst s =? fst t) && (snd s =? snd t) then Some s
  else if negb (fst s =? 0) && negb (fst t =? 0) then
    let (s, t) := if fst s >? fst t then (t, s) else (s, t) in
    if ((snd s >=? snd t) && negb (snd t =? 0)) || (snd s =? 0) then Some s
    else if snd s + 1 >=? fst t then Some (fst s, snd t)
    else None
  else if fst s =? 0 then (if snd t =? 0 then Some t else None)
  else if snd s =? 0 then Some s
  else None.

(** [SeqSet.insert], by its result on a sorted and merged set: the new
    value is merged with every value it intersects or touches, and the
    union stands where the order by [Start] puts it. *)
Fixpoint insert (v : Seq) (s : SeqSet) : SeqSet :=
  match s with
  | [] => [v]
  | e :: rest =>
      match Seq_Merge e v with
      | Some u => insert u rest
      | None => if Seq_Less e (fst v) then e :: insert v rest
                else v :: e :: rest
      end
  end.

(** [SeqSet.AddRange]: the bounds are swapped when [Stop < Start] with a
    non-zero [Stop], or when [Start] is zero. *)
Definition AddRange (s : SeqSet) (Start Stop : Z) : SeqSet :=
  if ((Stop <? Start) && negb (Stop =? 0)) || (Start =? 0)
  then insert (Stop, Start) s
  else insert (Start, Stop) s.

(** [SeqSet.AddNum]. *)
Definition AddNum (s : SeqSet) (num : Z) : SeqSet := insert (num, num) s.

(** [SeqSet.Contains] (a zero bound stands for [*] and is not used here). *)
Definition SeqSet_Contains (s : SeqSet) (q : Z) : bool :=
  existsb (fun r => (fst r <=? q) && (q <=? snd r)) s.

Inductive FetchItem : Set :=
| FetchEnvelope
| FetchUid
| FetchBodySection (peek : bool).

(** ** MIME reader (go-message/mail) *)

(** [mail.PartHeader] with the media type that [ContentType()] reports. *)
Inductive PartHeader : Set :=
| InlineHeader (contentType : gostring)
| AttachmentHeader (contentType : gostring).

(** [mail.Part]: the header and what [io.ReadAll(p.Body)] gives. *)
Record Part : Set := mkPart {
  Header : PartHeader;
  Body : gostring + Error
}.

(** One call of [mr.NextPart()]; [io.EOF] is the end of the list. *)
Inductive NextPartResult : Set :=
| NextPart_ok (p : Part)
| NextPart_err (e : Error).

(** A raw message body, as [mail.CreateReader] sees it. *)
Inductive RawBody : Set :=
| CreateReader_err (e : Error)
| CreateReader_ok (parts : list NextPartResult).

(** [imap.Message]: [Envelope] and the body section may be nil. *)
Record Message : Set := mkMessage {
  SeqNum : Z;
  Uid : Z;
  MsgEnvelope : option Envelope;
  MsgBody : option RawBody
}.

Module InvoiceEmail.
(** [InvoiceEmail]. *)
Record t : Set := mk { Subject : gostring; Date : Time; HTMLBody : gostring }.
End InvoiceEmail.

Module PDFAttachment.
(** [PDFAttachment]. *)
Record t : Set := mk { Filename : gostring; Data : list Z }.
End PDFAttachment.

(** What the program writes with [log.Printf]/[log.Println]. *)
Inductive LogLine : Set :=
| LogLoggedIn
| LogInboxHas (messages : Z)
| LogFoundInvoice (subject : gostring) (uid : Z)
| LogWarnFetchingEnvelopes (err : Error)
| LogNoInvoiceEmails
| LogFoundCount (n : Z)
| LogWarnNoBody (uid : Z)
| LogWarnExtracting (uid : Z) (err : Error).

(** What the program does to the outside world, in order. *)
Inductive Event : Set :=
| EvDialTLS (host : gostring) (port : Z)
| EvLogin (user pass : gostring)
| EvSelect (name : string) (readOnly : bool)
| EvFetch (seqSet : SeqSet) (items : list FetchItem)
| EvUidFetch (uidSet : SeqSet) (items : list FetchItem)
| EvLogout
| EvLog (line : LogLine).

(** The IMAP server, as the answers of the go-imap client: a fetch streams
    its messages into the channel and then reports its error on [done]. *)
Record Server : Type := mkServer {
  DialTLS : option Error;
  Login : gostring -> gostring -> option Error;
  Select : Z + Error;
  Fetch : SeqSet -> list Message * option Error;
  UidFetch : SeqSet -> list Message * option Error
}.

(** Computations that extend the event trace and end in an [Outcome]. *)
Definition Scan (A : Type) : Type := list Event -> Outcome A * list Event.

Definition ret {A} (a : A) : Scan A := fun tr => (Ok a, tr).

Definition bind {A B} (m : Scan A) (k : A -> Scan B) : Scan B :=
  fun tr =>
    match m tr with
    | (Ok a, tr') => k a tr'
    | (Err e, tr') => (Err e, tr')
    | (Panic, tr') => (Panic, tr')
    end.

Definition emit (ev : Event) : Scan unit := fun tr => (Ok tt, tr ++ [ev]).
Definition fail {A} (e : Error) : Scan A := fun tr => (Err e, tr).
Definition panic {A} : Scan A := fun tr => (Panic, tr).

(** [defer c.Logout()]: runs when the function is left, however it ends. *)
Definition defer_Logout {A} (m : Scan A) : Scan A :=
  fun tr => let (r, tr') := m tr in (r, tr' ++ [EvLogout]).

Notation "x <- m ;; k" := (bind m (fun x => k))
  (at level 61, m at next level, right associativity).
Notation "m ;;; k" := (bind m (fun _ => k))
  (at level 61, right associativity).

(** [uint32(x)] for an [int] [x]. *)
Definition uint32 (x : Z) : Z := x mod 2 ^ 32.

(** The values of Go's 64-bit [int]. *)
Definition is_int (x : Z) : Prop := - 2 ^ 63 <= x < 2 ^ 63.

(* ================================================================== *)
(** ** Content extractor *)

Definition isInlineHTML (p : Part) : bool :=
  match Header p with
  | InlineHeader ct => GoString.eqb ct (str "text/html")
  | AttachmentHeader _ => false
  end.

(** The [for] loop of [extractHTMLBody] over the reader [mr]; the second
    component is what [mr] has not yet been asked for. *)
Fixpoint extractHTMLBody_loop (mr : list NextPartResult)
  : (gostring + Error) * list NextPartResult :=
  match mr with
  | [] => (inr (ErrorNew "no text/html part found"), [])
  | NextPart_err err :: mr' => (inr (Wrap "reading mail part" err), mr')
  | NextPart_ok p :: mr' =>
      if isInlineHTML p then
        match Body p with
        | inr err => (inr (Wrap "reading HTML body" err), mr')
        | inl body => (inl body, mr')
        end
      else extractHTMLBody_loop mr'
  end.

(** [extractHTMLBody]. *)
Definition extractHTMLBody (r : RawBody) : gostring + Error :=
  match r with
  | CreateReader_err err => inr (Wrap "creating mail reader" err)
  | CreateReader_ok mr => fst (extractHTMLBody_loop mr)
  end.

(* ================================================================== *)
(** ** Mailbox scanner *)

Section Scanner.

Variable unicodeLower : rune -> rune.

(** [time.Now()]: [clock k] is what the call numbered [k] returns, the calls
    of a scan counted from zero.  The clock is read by [matchesFilter], once
    in each call. *)
Variable clock : nat -> Time.

Variable c : Server.

(** The [for msg := range messages] loop of [fetchMatchingUIDs]; [k] counts
    the readings of the clock so far.  A message without envelope does not
    reach [matchesFilter]. *)
Fixpoint matchLoop (cfg : Config) (k : nat) (messages : list Message)
                   (uids : list Z) : Scan (list Z) :=
  match messages with
  | [] => ret uids
  | msg :: rest =>
      match MsgEnvelope msg with
      | Some env =>
          if matchesFilter unicodeLower (clock k) env cfg then
            emit (EvLog (LogFoundInvoice (Subject env) (Uid msg))) ;;;
            matchLoop cfg (S k) rest (uids ++ [Uid msg])
          else matchLoop cfg (S k) rest uids
      | None => matchLoop cfg k rest uids
      end
  end.

(** [fetchMatchingUIDs]. *)
Definition fetchMatchingUIDs (seqSet : SeqSet) (cfg : Config) : Scan (list Z) :=
  emit (EvFetch seqSet [FetchEnvelope; FetchUid]) ;;;
  let (messages, done) := Fetch c seqSet in
  uids <- matchLoop cfg 0 messages [] ;;
  match done with
  | Some err => emit (EvLog (LogWarnFetchingEnvelopes err))
  | None => ret tt
  end ;;;
  ret uids.

(** The [for msg := range messages] loop of [fetchBodies]. *)
Fixpoint bodyLoop (messages : list Message) (invoices : list InvoiceEmail.t)
  : Scan (list InvoiceEmail.t) :=
  match messages with
  | [] => ret invoices
  | msg :: rest =>
      match MsgBody msg with
      | None =>
          emit (EvLog (LogWarnNoBody (Uid msg))) ;;;
          bodyLoop rest invoices
      | Some r =>
          match extractHTMLBody r with
          | inr err =>
              emit (EvLog (LogWarnExtracting (Uid msg) err)) ;;;
              bodyLoop rest invoices
          | inl htmlBody =>
              match MsgEnvelope msg with
              | None => panic
              | Some env =>
                  bodyLoop rest
                    (invoices ++
                     [InvoiceEmail.mk (Subject env) (Date env) htmlBody])
              end
          end
      end
  end.

(** [fetchBodies]. *)
Definition fetchBodies (uids : list Z) : Scan (list InvoiceEmail.t) :=
  let uidSet := fold_left AddNum uids [] in
  emit (EvUidFetch uidSet [FetchBodySection true; FetchEnvelope]) ;;;
  let (messages, done) := UidFetch c uidSet in
  invoices <- bodyLoop messages [] ;;
  match done with
  | Some err => fail (Wrap "fetching bodies" err)
  | None => ret invoices
  end.

(** The sequence range of pass 1: [from] as computed by [fetchInvoices]. *)
Definition windowFrom (cfg : Config) (messages : Z) : Z :=
  if FilterCfg.Count (Filter cfg) >? 0 then
    let count := uint32 (FilterCfg.Count (Filter cfg)) in
    if messages >? count then uint32 (messages - count + 1) else 1
  else 1.

(** [fetchInvoices], after the connection is up. *)
Definition fetchInvoices_session (cfg : Config) : Scan (list InvoiceEmail.t) :=
  emit (EvLogin (User cfg) (Pass cfg)) ;;;
  match Login c (User cfg) (Pass cfg) with
  | Some err => fail (Wrap "IMAP login" err)
  | None =>
      emit (EvLog LogLoggedIn) ;;;
      emit (EvSelect "INBOX" true) ;;;
      match Select c with
      | inr err => fail (Wrap "selecting INBOX" err)
      | inl messages =>
          emit (EvLog (LogInboxHas messages)) ;;;
          if messages =? 0 then ret []
          else
            let from := windowFrom cfg messages in
            let seqSet := AddRange [] from messages in
            matchUIDs <- fetchMatchingUIDs seqSet cfg ;;
            if Z.of_nat (List.length matchUIDs) =? 0 then
              emit (EvLog LogNoInvoiceEmails) ;;;
              ret []
            else
              emit (EvLog (LogFoundCount (Z.of_nat (List.length matchUIDs)))) ;;;
              fetchBodies matchUIDs
      end
  end.

(** [fetchInvoices]. *)
Definition fetchInvoices (cfg : Config) : Scan (list InvoiceEmail.t) :=
  emit (EvDialTLS (Endpoint.Host (IMAP cfg)) (Endpoint.Port (IMAP cfg))) ;;;
  match DialTLS c with
  | Some err => fail (Wrap "connecting to IMAP server" err)
  | None => defer_Logout (fetchInvoices_session cfg)
  end.

End Scanner.

(** The test [msg.Envelope != nil && matchesFilter(msg.Envelope, cfg)] of
    pass 1. *)
Definition selected (unicodeLower : rune -> rune) (now : Time) (cfg : Config)
                    (msg : Message) : bool :=
  match MsgEnvelope msg with
  | Some env => matchesFilter unicodeLower now env cfg
  | None => false
  end.

(** The log line of pass 1 for a selected message. *)
Definition foundLine (msg : Message) : Event :=
  EvLog (LogFoundInvoice
           (match MsgEnvelope msg with Some env => Subject env | None => [] end)
           (Uid msg)).

Definition hasEnvelope (msg : Message) : bool :=
  match MsgEnvelope msg with Some _ => true | None => false end.

(** The messages that pass 1 selects from a delivery when [k] readings of
    the clock came before: the messages that carry an envelope are examined
    in the order of delivery, each at the next reading. *)
Definition candidatesFrom (unicodeLower : rune -> rune) (clock : nat -> Time)
                          (cfg : Config) (k : nat) (messages : list Message)
  : list Message :=
  let examined := filter hasEnvelope messages in
  map snd
      (filter (fun km => selected unicodeLower (clock (fst km)) cfg (snd km))
              (combine (seq k (List.length examined)) examined)).

Definition candidates (unicodeLower : rune -> rune) (clock : nat -> Time)
                      (cfg : Config) (messages : list Message)
  : list Message :=
  candidatesFrom unicodeLower clock cfg 0 messages.

(** Everything pass 1 adds to the trace for the answer [(messages, done)]. *)
Definition pass1_events (unicodeLower : rune -> rune) (clock : nat -> Time)
                        (cfg : Config)
                        (seqSet : SeqSet) (answer : list Message * option Error)
  : list Event :=
  EvFetch seqSet [FetchEnvelope; FetchUid]
  :: map foundLine (candidates unicodeLower clock cfg (fst answer))
  ++ match snd answer with
     | Some err => [EvLog (LogWarnFetchingEnvelopes err)]
     | None => []
     end.

(** The server [c] with the error of its pass-1 fetch removed. *)
Definition without_Fetch_error (c : Server) : Server :=
  mkServer (DialTLS c) (Login c) (Select c)
           (fun seqSet => (fst (Fetch c seqSet), None))
           (UidFetch c).

(** The media type a part declares, whatever its disposition. *)
Definition declaredKind (p : Part) : gostring :=
  match Header p with
  | InlineHeader ct => ct
  | AttachmentHeader ct => ct
  end.

(* ================================================================== *)
(** ** HTML documents (golang.org/x/net/html, goquery, cascadia) *)

(** [html.Attribute]. *)
Record Attribute : Set := mkAttr {
  Namespace : gostring;
  Key : gostring;
  Val : gostring
}.

(** [html.Node], by node type; an element carries its tag in [Data]. *)
#[local] Unset Elimination Schemes.
Inductive Node : Set :=
| ElementNode (Data : gostring) (Attr : list Attribute) (children : list Node)
| TextNode (Data : gostring)
| CommentNode (Data : gostring)
| DoctypeNode (Data : gostring).
#[local] Set Elimination Schemes.

(** A parsed document: the children of its [DocumentNode]. *)
Definition Document : Set := list Node.

(** goquery's [getAttributeValue]: the first attribute with that key. *)
Fixpoint getAttributeValue (attrName : gostring) (attrs : list Attribute)
  : option gostring :=
  match attrs with
  | [] => None
  | a :: rest =>
      if GoString.eqb (Key a) attrName then Some (Val a)
      else getAttributeValue attrName rest
  end.

(** [Selection.SetAttr] on one node: the first attribute with that key gets
    the value, or a new attribute is appended. *)
Fixpoint setFirst (attrName val : gostring) (attrs : list Attribute)
  : option (list Attribute) :=
  match attrs with
  | [] => None
  | a :: rest =>
      if GoString.eqb (Key a) attrName
      then Some (mkAttr (Namespace a) (Key a) val :: rest)
      else option_map (cons a) (setFirst attrName val rest)
  end.

Definition SetAttr (attrName val : gostring) (attrs : list Attribute)
  : list Attribute :=
  match setFirst attrName val attrs with
  | Some attrs' => attrs'
  | None => attrs ++ [mkAttr [] attrName val]
  end.

(** cascadia's [matchAttribute]: some attribute with that key passes [f]. *)
Definition matchAttribute (n : Node) (key : gostring) (f : gostring -> bool)
  : bool :=
  match n with
  | ElementNode _ attrs _ =>
      existsb (fun a => GoString.eqb (Key a) key && f (Val a)) attrs
  | _ => false
  end.

(** The separators of a class list: space, tab, CR, LF, FF. *)
Definition isClassSep (r : rune) : bool :=
  (r =? 32) || (r =? 9) || (r =? 13) || (r =? 10) || (r =? 12).

(** cascadia's [matchInclude]: [val] is one of the separated words of [s];
    [cur] is the word read so far. *)
Fixpoint matchInclude (val cur s : gostring) : bool :=
  match s with
  | [] => match cur with [] => false | _ => GoString.eqb cur val end
  | r :: s' =>
      if isClassSep r then GoString.eqb cur val || matchInclude val [] s'
      else matchInclude val (cur ++ [r]) s'
  end.

(** The selectors [.class], [#id] and [tag]. *)
Definition hasClass (class : gostring) (n : Node) : bool :=
  matchAttribute n (str "class") (fun s => matchInclude class [] s).

Definition hasId (id : gostring) (n : Node) : bool :=
  matchAttribute n (str "id") (fun s => GoString.eqb s id).

Definition hasTag (tag : gostring) (n : Node) : bool :=
  match n with
  | ElementNode data _ _ => GoString.eqb data tag
  | _ => false
  end.

(** [Selection.Text] of one node: the text nodes below it, concatenated. *)
Fixpoint getNodeText (n : Node) : gostring :=
  match n with
  | TextNode data => data
  | ElementNode _ _ cs => List.concat (map getNodeText cs)
  | _ => []
  end.

(** [Find("*")]: the elements below [n], [n] included, in document order. *)
Fixpoint allElements (n : Node) : list Node :=
  match n with
  | ElementNode _ _ cs => n :: flat_map allElements cs
  | _ => []
  end.

Definition Find_all (doc : Document) : list Node := flat_map allElements doc.

(* ================================================================== *)
(** ** Order-identifier extraction *)

Definition orderLabel : gostring := str "Bestellnummer:".

(** "\n\r\t" *)
Definition lineBreaks : gostring := [10; 13; 9].

(** The body of the callback of [extractOrderNumber] once the prefix test
    has passed; [text] is the trimmed text of the element. *)
Definition orderNumberOf (text : gostring) : gostring :=
  let orderNum := TrimSpace (TrimPrefix text orderLabel) in
  let idx := IndexAny orderNum lineBreaks in
  if idx >=? 0 then TrimSpace (slice_to orderNum idx) else orderNum.

(** [EachWithBreak] over the selection, [orderNum] starting out empty. *)
Fixpoint orderNumberLoop (elements : list Node) : gostring :=
  match elements with
  | [] => []
  | s :: rest =>
      let text := TrimSpace (getNodeText s) in
      if HasPrefix text orderLabel then orderNumberOf text
      else orderNumberLoop rest
  end.

Section OrderNumber.

(** [goquery.NewDocumentFromReader(strings.NewReader(htmlContent))]. *)
Variable NewDocument : gostring -> Document + Error.

(** [extractOrderNumber]. *)
Definition extractOrderNumber (htmlContent : gostring) : gostring :=
  match NewDocument htmlContent with
  | inr _ => []
  | inl doc => orderNumberLoop (Find_all doc)
  end.

End OrderNumber.

(** [s] up to its first line break or tab. *)
Fixpoint cutAtBreak (s : gostring) : gostring :=
  match s with
  | [] => []
  | c :: s' => if existsb (Z.eqb c) lineBreaks then [] else c :: cutAtBreak s'
  end.

(** The identifier as the specification words it: the remainder after the
    label, truncated at the first line break or tab, then trimmed. *)
Definition remainderCutTrimmed (remainder : gostring) : gostring :=
  TrimSpace (cutAtBreak remainder).

(** The other order of the same two steps: the remainder after the label,
    trimmed, then truncated at the first line break or tab. *)
Definition remainderTrimmedCut (remainder : gostring) : gostring :=
  cutAtBreak (TrimSpace remainder).

(** No element of the selection has a trimmed text that begins with the
    label. *)
Definition noLabel (elements : list Node) : Prop :=
  Forall (fun e => HasPrefix (TrimSpace (getNodeText e)) orderLabel = false)
         elements.

(* ================================================================== *)
(** ** Naming strategy *)

(** The runes listed in the character class of [sanitizeFilename] between
    [0-9] and [\-], as the source file spells them: U+0102 U+00A4, U+0102
    U+00B6, U+0102 U+013D, U+0102 U+201E, U+0102 U+2013, U+0102 U+015B,
    U+0102 U+017A. *)
Definition accented : list rune :=
  [258; 164; 258; 182; 258; 317; 258; 8222; 258; 8211; 258; 347; 258; 378].

(** Membership in [a-zA-Z0-9...\-_ ], the class the pattern negates. *)
Definition allowed (r : rune) : bool :=
  ((97 <=? r) && (r <=? 122)) || ((65 <=? r) && (r <=? 90))
  || ((48 <=? r) && (r <=? 57)) || existsb (Z.eqb r) accented
  || (r =? 45) || (r =? 95) || (r =? 32).



(** [regexp.MustCompile(`[^...]+`).ReplaceAllString(s, "_")]: every maximal
    run of runes outside the class becomes one underscore; [inRun] tells that
    the current match has already been replaced. *)
Fixpoint replaceRuns (inRun : bool) (s : gostring) : gostring :=
  match s with
  | [] => []
  | r :: s' =>
      if allowed r then r :: replaceRuns false s'
      else if inRun then replaceRuns true s'
      else 95 :: replaceRuns true s'
  end.

(** [sanitizeFilename]. *)
Definition sanitizeFilename (s : gostring) : gostring :=
  let s := replaceRuns false s in
  let s := TrimSpace s in
  if GoString.eqb s [] then str "invoice" else s.

(** Decimal digits of a non-negative number, most significant first. *)
Fixpoint digits_fuel (fuel : nat) (n : Z) : gostring :=
  match fuel with
  | O => []
  | S fuel' =>
      if n <? 10 then [48 + n]
      else digits_fuel fuel' (n / 10) ++ [48 + n mod 10]
  end.

Definition digits (n : Z) : gostring :=
  digits_fuel (S (Z.to_nat (Z.log2 n))) n.

(** The verb [%d]. *)
Definition fmt_d (n : Z) : gostring :=
  if n <? 0 then 45 :: digits (- n) else digits n.

(** The verb [%0wd]: zeros up to width [w], the sign counted in. *)
Definition fmt_0d (w : nat) (n : Z) : gostring :=
  let ds := digits (Z.abs n) in
  if n <? 0 then 45 :: repeat 48 (w - 1 - List.length ds) ++ ds
  else repeat 48 (w - List.length ds) ++ ds.

(** The number a string of decimal digits stands for. *)
Definition decimal_value (s : gostring) : Z :=
  fold_left (fun acc d => 10 * acc + (d - 48)) s 0.

Definition is_digit (r : rune) : bool := (48 <=? r) && (r <=? 57).


(** [fmt.Sprintf("%02d_%04d_Rechnung_Apple_%s", month, year, s)]. *)
Definition Sprintf_order (month : Month) (year : Z) (s : gostring) : gostring :=
  fmt_0d 2 (Month_number month) ++ str "_" ++ fmt_0d 4 year
  ++ str "_Rechnung_Apple_" ++ s.

(** [fmt.Sprintf("%s_%d", s, n)]. *)
Definition Sprintf_indexed (s : gostring) (n : Z) : gostring :=
  s ++ str "_" ++ fmt_d n.

(** The file name [main] gives to invoice [inv] at index [i] of [total]
    invoices, [orderNum] being what [extractOrderNumber] returned. *)
Definition attachmentFilename (total : Z) (i : Z) (inv : InvoiceEmail.t)
                              (orderNum : gostring) : gostring :=
  let filename :=
    if negb (GoString.eqb orderNum []) then
      Sprintf_order (Month_of (InvoiceEmail.Date inv))
                    (Year (InvoiceEmail.Date inv))
                    (sanitizeFilename orderNum)
    else
      let filename := sanitizeFilename (InvoiceEmail.Subject inv) in
      if total >? 1 then Sprintf_indexed filename (i + 1) else filename
  in filename ++ str ".pdf".

(* ================================================================== *)
(** ** HTML transformer *)

(** A selector that looks at a node and at its parent element; the parent of
    a child of the document node is [None].  This covers [.class], and
    [#id > child]. *)
Definition Selector : Type := option Node -> Node -> bool.

(** [.class] *)
Definition byClass (class : gostring) : Selector :=
  fun _ n => hasClass class n.

(** [#id > child] *)
Definition childOf (id : gostring) (child : Node -> bool) : Selector :=
  fun parent n =>
    match parent with
    | Some p => hasId id p && child n
    | None => false
    end.

(** [Find(sel).Remove()] among the children [cs] of [parent], [below]
    doing the same inside a child that stays. *)
Definition removeAmong (sel : Selector) (below : Node -> Node)
                       (parent : option Node) (cs : list Node) : list Node :=
  flat_map (fun c => if sel parent c then [] else [below c]) cs.

(** [Find(sel).Remove()]: every matching element goes, with all below
    it. *)
Fixpoint removeBelow (sel : Selector) (n : Node) : Node :=
  match n with
  | ElementNode data attrs cs =>
      ElementNode data attrs (removeAmong sel (removeBelow sel) (Some n) cs)
  | _ => n
  end.

Definition Remove (sel : Selector) (doc : Document) : Document :=
  removeAmong sel (removeBelow sel) None doc.

(** [Find(sel).First().Remove()] among the children [cs] of [parent]: the
    first match in document order goes; [None] when there is no match. *)
Definition removeFirstAmong (sel : Selector) (below : Node -> option Node)
                            (parent : option Node)
  : list Node -> option (list Node) :=
  fix go (cs : list Node) : option (list Node) :=
    match cs with
    | [] => None
    | c :: cs' =>
        if sel parent c then Some cs'
        else match below c with
             | Some c' => Some (c' :: cs')
             | None => option_map (cons c) (go cs')
             end
    end.

Fixpoint removeFirstBelow (sel : Selector) (n : Node) : option Node :=
  match n with
  | ElementNode data attrs cs =>
      option_map (ElementNode data attrs)
                 (removeFirstAmong sel (removeFirstBelow sel) (Some n) cs)
  | _ => None
  end.

Definition RemoveFirst (sel : Selector) (doc : Document) : Document :=
  match removeFirstAmong sel (removeFirstBelow sel) None doc with
  | Some doc' => doc'
  | None => doc
  end.

(** [Find(".footer-copy p").Each(...)]: a [p] below an element of class
    footer-copy whose text contains "UID-Nr" gets the bold style; [inside]
    tells that such an ancestor has been passed. *)
Fixpoint boldUID (inside : bool) (n : Node) : Node :=
  match n with
  | ElementNode data attrs cs =>
      ElementNode data
        (if inside && hasTag (str "p") n
            && Contains (getNodeText n) (str "UID-Nr")
         then SetAttr (str "style") (str "font-weight:600") attrs
         else attrs)
        (map (boldUID (inside || hasClass (str "footer-copy") n)) cs)
  | _ => n
  end.

(** Two nodes with the same tag whose attributes differ at most in the
    value of [style]; their children may differ. *)
Definition alike (n n' : Node) : Prop :=
  match n, n' with
  | ElementNode d a _, ElementNode d' a' _ =>
      d = d' /\ (a' = a \/ exists v, a' = SetAttr (str "style") v a
                 \/ a = SetAttr (str "style") v a')
  | TextNode d, TextNode d' => d = d'
  | CommentNode d, CommentNode d' => d = d'
  | DoctypeNode d, DoctypeNode d' => d = d'
  | _, _ => False
  end.

Definition alike_parent (p p' : option Node) : Prop :=
  match p, p' with
  | Some n, Some n' => alike n n'
  | None, None => True
  | _, _ => False
  end.

(** A selector that cannot tell alike nodes apart. *)
Definition steady (q : Selector) : Prop :=
  forall p p' c c', alike_parent p p' -> alike c c' -> q p c = q p' c'.

(** [q] holds of every node below the children [cs] of [parent], each taken
    with its parent. *)
Definition holdsAmong (q : Selector) (below : Node -> bool)
                      (parent : option Node) (cs : list Node) : bool :=
  forallb (fun c => q parent c && below c) cs.

Fixpoint holdsBelow (q : Selector) (n : Node) : bool :=
  match n with
  | ElementNode _ _ cs => holdsAmong q (holdsBelow q) (Some n) cs
  | _ => true
  end.

Definition holds (q : Selector) (doc : Document) : bool :=
  holdsAmong q (holdsBelow q) None doc.

(** The complement of a selector. *)
Definition unselected (sel : Selector) : Selector :=
  fun parent n => negb (sel parent n).

(** Text nodes that stand side by side, written as one: serialised, two
    such nodes read like their concatenation, and a parser gives one node
    back for them. *)
Fixpoint mergeAdjacent (cs : list Node) : list Node :=
  match cs with
  | [] => []
  | c :: rest =>
      match c, mergeAdjacent rest with
      | TextNode a, TextNode b :: rest' => TextNode (a ++ b) :: rest'
      | _, merged => c :: merged
      end
  end.

Fixpoint mergeNode (n : Node) : Node :=
  match n with
  | ElementNode data attrs cs =>
      ElementNode data attrs (mergeAdjacent (map mergeNode cs))
  | _ => n
  end.

Definition mergeText (doc : Document) : Document :=
  mergeAdjacent (map mergeNode doc).

(** The number of nodes of a tree, and of a document. *)
Fixpoint nodes (n : Node) : nat :=
  match n with
  | ElementNode _ _ cs => S (list_sum (map nodes cs))
  | _ => 1
  end.

Definition nodesOf (doc : Document) : nat := list_sum (map nodes doc).

Section Transformer.

(** [http.Get] with the body read: the Content-Type of the response and
    its bytes, or the error of the request or of the read. *)
Variable httpGet : gostring -> (gostring * list Z) + Error.

(** [base64.StdEncoding.EncodeToString]. *)
Variable EncodeToString : list Z -> gostring.

(** [goquery.NewDocumentFromReader] and [Document.Html]. *)
Variable NewDocument : gostring -> Document + Error.
Variable Html : Document -> gostring + Error.

(** [embedImage]. *)
Definition embedImage (imgURL : gostring) : gostring + Error :=
  match httpGet imgURL with
  | inr err => inr err
  | inl (contentType, data) =>
      let mime := if GoString.eqb contentType [] then str "image/png"
                  else contentType in
      inl (str "data:" ++ mime ++ str ";base64," ++ EncodeToString data)
  end.

(** The callback of [Find("img").Each], on the attributes of the image. *)
Definition embedSrc (attrs : list Attribute) : list Attribute :=
  match getAttributeValue (str "src") attrs with
  | Some src =>
      if HasPrefix src (str "http") then
        match embedImage src with
        | inl dataURI => SetAttr (str "src") dataURI attrs
        | inr _ => attrs
        end
      else attrs
  | None => attrs
  end.

(** [Find("img").Each(...)]. *)
Fixpoint embedImages (n : Node) : Node :=
  match n with
  | ElementNode data attrs cs =>
      ElementNode data
        (if hasTag (str "img") n then embedSrc attrs else attrs)
        (map embedImages cs)
  | _ => n
  end.

(** An image the callback leaves alone: no [src], a [src] that does not
    begin with "http", or one whose download fails. *)
Definition settledImage : Selector :=
  fun _ n =>
    match n with
    | ElementNode _ attrs _ =>
        negb (hasTag (str "img") n)
        || match getAttributeValue (str "src") attrs with
           | Some src =>
               negb (HasPrefix src (str "http"))
               || match embedImage src with inl _ => false | inr _ => true end
           | None => true
           end
    | _ => true
    end.

(** What [cleanHTML] does to the parsed document, step by step. *)
Definition cleanDocument (doc : Document) : Document :=
  let doc := map embedImages doc in
  let doc := Remove (byClass (str "action-button-cell")) doc in
  let doc := RemoveFirst (childOf (str "footer_section") (hasTag (str "p")))
                         doc in
  let doc := Remove (childOf (str "footer_section")
                             (hasClass (str "custom-1sstyyn"))) doc in
  let doc := map (boldUID false) doc in
  Remove (byClass (str "inline-link-group")) doc.

(** [cleanHTML]. *)
Definition cleanHTML (htmlContent : gostring) : gostring + Error :=
  match NewDocument htmlContent with
  | inr err => inr (Wrap "parsing HTML" err)
  | inl doc =>
      match Html (cleanDocument doc) with
      | inr err => inr (Wrap "rendering HTML" err)
      | inl html => inl html
      end
  end.

(** [convertHTMLToPDF]: headless Chrome, from outside. *)
Variable convertHTMLToPDF : gostring -> list Z + Error.

(** Invoice [inv] goes through [cleanHTML] and the printer, which gives
    [pdf]. *)
Definition converted (inv : InvoiceEmail.t) (pdf : list Z) : Prop :=
  exists cleaned,
    cleanHTML (InvoiceEmail.HTMLBody inv) = inl cleaned
    /\ convertHTMLToPDF cleaned = inl pdf.

(** The conversion loop of [main] from index [i] on; [total] is
    [len(invoices)]. *)
Fixpoint convertLoop (total : Z) (i : Z) (invoices : list InvoiceEmail.t)
                     (attachments : list PDFAttachment.t)
  : list PDFAttachment.t :=
  match invoices with
  | [] => attachments
  | inv :: rest =>
      match cleanHTML (InvoiceEmail.HTMLBody inv) with
      | inr _ => convertLoop total (i + 1) rest attachments
      | inl cleaned =>
          match convertHTMLToPDF cleaned with
          | inr _ => convertLoop total (i + 1) rest attachments
          | inl pdf =>
              let orderNum :=
                extractOrderNumber NewDocument (InvoiceEmail.HTMLBody inv) in
              convertLoop total (i + 1) rest
                (attachments ++
                 [PDFAttachment.mk (attachmentFilename total i inv orderNum)
                                   pdf])
          end
      end
  end.

(** The attachments [main] builds from the fetched invoices. *)
Definition convertInvoices (invoices : list InvoiceEmail.t)
  : list PDFAttachment.t :=
  convertLoop (Z.of_nat (List.length invoices)) 0 invoices [].

End Transformer.

(* ================================================================== *)
(** ** Configuration loading *)

Definition with_Email_From (cfg : Config) (v : gostring) : Config :=
  mkConfig (IMAP cfg) (SMTP cfg) (User cfg) (Pass cfg)
           (EmailCfg.mk v (EmailCfg.To (Email cfg)) (EmailCfg.Subject (Email cfg)))
           (Filter cfg).

Definition with_Email_Subject (cfg : Config) (v : gostring) : Config :=
  mkConfig (IMAP cfg) (SMTP cfg) (User cfg) (Pass cfg)
           (EmailCfg.mk (EmailCfg.From (Email cfg)) (EmailCfg.To (Email cfg)) v)
           (Filter cfg).

Definition with_Filter_Subject (cfg : Config) (v : gostring) : Config :=
  mkConfig (IMAP cfg) (SMTP cfg) (User cfg) (Pass cfg) (Email cfg)
           (FilterCfg.mk (FilterCfg.Count (Filter cfg)) v
                         (FilterCfg.From (Filter cfg))).

Definition with_Filter_From (cfg : Config) (v : gostring) : Config :=
  mkConfig (IMAP cfg) (SMTP cfg) (User cfg) (Pass cfg) (Email cfg)
           (FilterCfg.mk (FilterCfg.Count (Filter cfg))
                         (FilterCfg.Subject (Filter cfg)) v).

(** The four [if cfg.X == "" { cfg.X = ... }] statements of [loadConfig], in
    the order of the source. *)
Definition applyDefaults (cfg : Config) : Config :=
  let cfg := if GoString.eqb (EmailCfg.From (Email cfg)) []
             then with_Email_From cfg (User cfg) else cfg in
  let cfg := if GoString.eqb (FilterCfg.Subject (Filter cfg)) []
             then with_Filter_Subject cfg (str "Deine Rechnung von Apple")
             else cfg in
  let cfg := if GoString.eqb (FilterCfg.From (Filter cfg)) []
             then with_Filter_From cfg (str "apple.com") else cfg in
  if GoString.eqb (EmailCfg.Subject (Email cfg)) []
  then with_Email_Subject cfg (str "Deine PDF-Rechnungen von Apple")
  else cfg.

Section LoadConfig.

(** [os.ReadFile], and [yaml.Unmarshal] into a zero [Config]. *)
Variable ReadFile : gostring -> list Z + Error.
Variable Unmarshal : list Z -> Config + Error.

(** [loadConfig]. *)
Definition loadConfig (path : gostring) : Config + Error :=
  match ReadFile path with
  | inr err => inr (Wrap "reading config file" err)
  | inl data =>
      match Unmarshal data with
      | inr err => inr (Wrap "parsing config file" err)
      | inl cfg => inl (applyDefaults cfg)
      end
  end.

End LoadConfig.

(* ================================================================== *)
(** ** Delivery and the driver *)

(** The [gomail.Message] that [sendPDFEmail] builds. *)
Record MailMessage : Set := mkMailMessage {
  HeaderFrom : gostring;
  HeaderTo : gostring;
  HeaderSubject : gostring;
  BodyContentType : gostring;
  BodyText : gostring;
  Attached : list (gostring * list Z)
}.

(** [gomail.NewDialer(host, port, username, password)]. *)
Record Dialer : Set := mkDialer {
  DialHost : gostring;
  DialPort : Z;
  DialUsername : gostring;
  DialPassword : gostring
}.

(** The message of [sendPDFEmail]: three headers, the text body, and one
    attachment for each [PDFAttachment], in order, each with its own data. *)
Definition buildMessage (cfg : Config) (attachments : list PDFAttachment.t)
  : MailMessage :=
  mkMailMessage (EmailCfg.From (Email cfg)) (EmailCfg.To (Email cfg))
                (EmailCfg.Subject (Email cfg))
                (str "text/plain") (str "Dokumente anbei." ++ [10])
                (map (fun att => (PDFAttachment.Filename att,
                                  PDFAttachment.Data att)) attachments).

Definition smtpDialer (cfg : Config) : Dialer :=
  mkDialer (Endpoint.Host (SMTP cfg)) (Endpoint.Port (SMTP cfg))
           (User cfg) (Pass cfg).

(** How [main] ends: it returns, or [log.Fatalf] exits with the message
    and the error, or a panic unwinds it. *)
Inductive Exit : Set :=
| Returned
| Fatal (what : string) (err : Error)
| Panicked.

Section Driver.

Variable unicodeLower : rune -> rune.
Variable clock : nat -> Time.
Variable c : Server.
Variable ReadFile : gostring -> list Z + Error.
Variable Unmarshal : list Z -> Config + Error.
Variable httpGet : gostring -> (gostring * list Z) + Error.
Variable EncodeToString : list Z -> gostring.
Variable NewDocument : gostring -> Document + Error.
Variable Html : Document -> gostring + Error.
Variable convertHTMLToPDF : gostring -> list Z + Error.

(** [Dialer.DialAndSend]. *)
Variable DialAndSend : Dialer -> MailMessage -> option Error.

(** [sendPDFEmail]. *)
Definition sendPDFEmail (cfg : Config) (attachments : list PDFAttachment.t)
  : option Error :=
  DialAndSend (smtpDialer cfg) (buildMessage cfg attachments).

(** [main]: how it ends, and the mails it hands to the dialer. *)
Definition main : Exit * list (Dialer * MailMessage) :=
  match loadConfig ReadFile Unmarshal (str "config.yaml") with
  | inr err => (Fatal "Failed to load config" err, [])
  | inl cfg =>
      match fst (fetchInvoices unicodeLower clock c cfg []) with
      | Err err => (Fatal "Failed to fetch invoices" err, [])
      | Panic => (Panicked, [])
      | Ok invoices =>
          if Z.of_nat (List.length invoices) =? 0 then (Returned, [])
          else
            let attachments :=
              convertInvoices httpGet EncodeToString NewDocument Html
                              convertHTMLToPDF invoices in
            if Z.of_nat (List.length attachments) =? 0 then (Returned, [])
            else
              match sendPDFEmail cfg attachments with
              | Some err =>
                  (Fatal "ERROR sending email" err,
                   [(smtpDialer cfg, buildMessage cfg attachments)])
              | None =>
                  (Returned, [(smtpDialer cfg, buildMessage cfg attachments)])
              end
      end
  end.

End Driver.

(* ================================================================== *)
(** ** Observations on traces and results *)

(** An event that cannot change the mailbox: a select in read-only mode, an
    envelope fetch without a body section, a body fetch with [Peek]. *)
Definition readOnlyEvent (ev : Event) : bool :=
  match ev with
  | EvSelect _ readOnly => readOnly
  | EvFetch _ items =>
      forallb (fun it => match it with FetchBodySection _ => false | _ => true end)
              items
  | EvUidFetch _ items =>
      forallb (fun it => match it with FetchBodySection peek => peek | _ => true end)
              items
  | _ => true
  end.

Definition isLog (ev : Event) : bool :=
  match ev with EvLog _ => true | _ => false end.

(** The invoice a pass-2 message gives, if it gives one. *)
Definition invoiceOf (msg : Message) : list InvoiceEmail.t :=
  match MsgBody msg, MsgEnvelope msg with
  | Some r, Some env =>
      match extractHTMLBody r with
      | inl htmlBody => [InvoiceEmail.mk (Subject env) (Date env) htmlBody]
      | inr _ => []
      end
  | _, _ => []
  end.

(** A pass-2 message whose body yields HTML carries its envelope. *)
Definition envelopePresent (msg : Message) : Prop :=
  match MsgBody msg with
  | Some r =>
      match extractHTMLBody r with
      | inl _ => MsgEnvelope msg <> None
      | inr _ => True
      end
  | None => True
  end.

(** A pass-2 message on which the body loop panics: its body yields HTML
    and its envelope is missing. *)
Definition lacksEnvelope (msg : Message) : bool :=
  match MsgBody msg with
  | Some r =>
      match extractHTMLBody r with
      | inl _ => negb (hasEnvelope msg)
      | inr _ => false
      end
  | None => false
  end.

(** The computation writes to the trace without reading it: its outcome
    and the events it adds are the same after every trace. *)
Definition appends {A} (m : Scan A) : Prop :=
  exists r evs, forall tr, m tr = (r, tr ++ evs).

(** Whatever the trace before, the computation adds events that pass [P],
    and nothing else. *)
Definition emits (P : Event -> bool) {A} (m : Scan A) : Prop :=
  forall tr, exists evs, snd (m tr) = tr ++ evs /\ forallb P evs = true.

(** The commands of a trace: its events without the log lines. *)
Definition commands (tr : list Event) : list Event :=
  filter (fun ev => negb (isLog ev)) tr.

(** The PDF an invoice gives when the transformer and the printer both
    succeed on it, and nothing otherwise. *)
Definition printed (httpGet : gostring -> (gostring * list Z) + Error)
                   (EncodeToString : list Z -> gostring)
                   (NewDocument : gostring -> Document + Error)
                   (Html : Document -> gostring + Error)
                   (convertHTMLToPDF : gostring -> list Z + Error)
                   (inv : InvoiceEmail.t) : list (list Z) :=
  match cleanHTML httpGet EncodeToString NewDocument Html
                  (InvoiceEmail.HTMLBody inv) with
  | inl cleaned =>
      match convertHTMLToPDF cleaned with
      | inl pdf => [pdf]
      | inr _ => []
      end
  | inr _ => []
  end.

(** Not a line break and not a tab. *)
Definition noBreak (r : rune) : bool := negb (existsb (Z.eqb r) lineBreaks).

(** The document has none of the markers the transformer looks for. *)
Definition markerFree (doc : Document) : Prop :=
  Forall (fun e =>
            hasTag (str "img") e = false
            /\ hasClass (str "action-button-cell") e = false
            /\ hasId (str "footer_section") e = false
            /\ hasClass (str "footer-copy") e = false
            /\ hasClass (str "inline-link-group") e = false)
         (Find_all doc).

(* ================================================================== *)
(** ** Sample data (after [main_test.go]) *)

Module Sample.

(** A case table that leaves non-ASCII runes alone; the samples are ASCII. *)
Definition noTable : rune -> rune := fun r => r.

Definition today : Time := mkTime 2026 February 13 36000.

(** A clock that stands still. *)
Definition frozen : nat -> Time := fun _ => today.

(** [defaultCfg()] with a scan count. *)
Definition cfg (count : Z) : Config :=
  mkConfig (Endpoint.mk (str "imap.example.com") 993)
           (Endpoint.mk (str "smtp.example.com") 587)
           (str "user@example.com") (str "secret")
           (EmailCfg.mk (str "sender@example.com")
                        (str "recipient@example.com")
                        (str "Deine PDF-Rechnungen von Apple"))
           (FilterCfg.mk count (str "Deine Rechnung von Apple")
                         (str "apple.com")).

(** [makeEnvelope]. *)
Definition makeEnvelope (subject hostname : gostring) (date : Time) : Envelope :=
  mkEnvelope date subject [mkAddress [] [] [] hostname] [] [].

Definition invoiceEnvelope : Envelope :=
  makeEnvelope (str "Deine Rechnung von Apple") (str "Email.APPLE.COM") today.

(** A pass-1 answer for the message with UID 7. *)
Definition meta7 (seq : Z) : Message :=
  mkMessage seq 7 (Some invoiceEnvelope) None.

(** A server with five messages whose fetches deliver nothing. *)
Definition quiet : Server :=
  mkServer None (fun _ _ => None) (inl 5)
           (fun _ => ([], None)) (fun _ => ([], None)).

(** A server that delivers the metadata of UID 7 twice in pass 1. *)
Definition repeating : Server :=
  mkServer None (fun _ _ => None) (inl 5)
           (fun _ => ([meta7 4; meta7 4], None)) (fun _ => ([], None)).

(** A pass-1 answer for the message with UID 9. *)
Definition meta9 (seq : Z) : Message :=
  mkMessage seq 9 (Some invoiceEnvelope) None.

(** A server that delivers UID 9 before UID 7 in pass 1. *)
Definition shuffled : Server :=
  mkServer None (fun _ _ => None) (inl 5)
           (fun _ => ([meta9 5; meta7 4], None)) (fun _ => ([], None)).

(** A pass-2 answer: envelope and a body with one inline HTML part. *)
Definition full7 : Message :=
  mkMessage 4 7 (Some invoiceEnvelope)
    (Some (CreateReader_ok
             [NextPart_ok (mkPart (InlineHeader (str "text/html"))
                                  (inl (str "<p>Bestellnummer: M1</p>")))])).

(** A server whose pass-2 fetch delivers one body and then fails. *)
Definition broken_pass2 : Server :=
  mkServer None (fun _ _ => None) (inl 5)
           (fun _ => ([meta7 4], None))
           (fun _ => ([full7], Some (LibError 2))).

(** Pass-2 answers that give no invoice: no body section, and a body
    without an HTML part. *)
Definition bare7 : Message := mkMessage 4 7 (Some invoiceEnvelope) None.
Definition plain9 : Message :=
  mkMessage 5 9 (Some invoiceEnvelope)
    (Some (CreateReader_ok
             [NextPart_ok (mkPart (InlineHeader (str "text/plain"))
                                  (inl (str "Rechnung")))])).

(** A server whose pass 2 delivers those two around a good one. *)
Definition patchy : Server :=
  mkServer None (fun _ _ => None) (inl 5)
           (fun _ => ([meta7 4; meta9 5], None))
           (fun _ => ([bare7; full7; plain9], None)).

(** A server whose pass-1 fetch breaks off with a protocol error. *)
Definition broken_pass1 : Server :=
  mkServer None (fun _ _ => None) (inl 5)
           (fun _ => ([], Some (LibError 1))) (fun _ => ([], None)).

(** A page whose only paragraph holds [text]. *)
Definition page (text : gostring) : Document :=
  [ElementNode (str "html") []
     [ElementNode (str "head") [] [];
      ElementNode (str "body") []
        [ElementNode (str "p") [] [TextNode text]]]].

(** "Bestellnummer: 123456\nmore text" *)
Definition scenarioD : gostring :=
  str "Bestellnummer: 123456" ++ [10] ++ str "more text".

(** "Bestellnummer: 123456 \nmore text", a space before the line break *)
Definition spaced : gostring :=
  str "Bestellnummer: 123456 " ++ [10] ++ str "more text".

(** The label, a line break, and the identifier on the next line. *)
Definition nextLine : gostring :=
  str "Bestellnummer:" ++ [10] ++ str "123456" ++ [10] ++ str "more text".

(** A parser that reads every input as the page with that text. *)
Definition asPage : gostring -> Document + Error := fun s => inl (page s).

(** A parser that rejects every input. *)
Definition rejecting : gostring -> Document + Error :=
  fun _ => inr (LibError 3).

(** Collaborators for the conversion loop: no image can be fetched, the
    document is written back as its text, and every page prints. *)
Definition offline : gostring -> (gostring * list Z) + Error :=
  fun _ => inr (LibError 4).
Definition noBase64 : list Z -> gostring := fun _ => [].
Definition textOnly : Document -> gostring + Error :=
  fun doc => inl (List.concat (map getNodeText doc)).
Definition printer : gostring -> list Z + Error :=
  fun _ => inl [37; 80; 68; 70].

Definition attr (key val : string) : Attribute :=
  mkAttr [] (str key) (str val).

Definition elem (tag : string) (attrs : list Attribute) (cs : list Node)
  : Node :=
  ElementNode (str tag) attrs cs.

(** A page whose footer section holds the given children. *)
Definition footerPage (cs : list Node) : Document :=
  [elem "html" []
     [elem "head" [] [];
      elem "body" [] [elem "div" [attr "id" "footer_section"] cs]]].

Definition paragraph (text : string) : Node :=
  elem "p" [] [TextNode (str text)].

(** An invoice page with the vendor chrome the transformer removes. *)
Definition invoicePage : Document :=
  [elem "html" []
     [elem "head" [] [];
      elem "body" []
        [elem "img" [attr "src" "http://example.com/logo.png"] [];
         elem "div" [attr "class" "action-button-cell"]
              [TextNode (str "Click here")];
         elem "div" [attr "id" "footer_section"]
              [paragraph "Intro";
               elem "div" [attr "class" "links custom-1sstyyn"]
                    [TextNode (str "Help")]];
         elem "div" [attr "class" "footer-copy"]
              [paragraph "UID-Nr: ATU12345"; paragraph "Copyright"];
         elem "div" [attr "class" "inline-link-group"]
              [TextNode (str "Privacy | Terms")]]]].

(** The serialisation of a footer page, [inner] being that of the
    children of the footer section. *)
Definition footerHTML (inner : string) : gostring :=
  str "<html><head></head><body><div id=" ++ [34] ++ str "footer_section"
  ++ [34] ++ str ">" ++ str inner ++ str "</div></body></html>".

(** A reader and a writer that know the footer pages with the paragraphs
    "A" and "B", with "B" alone, and with none. *)
Definition footerReader : gostring -> Document + Error :=
  fun s =>
    if GoString.eqb s (footerHTML "<p>A</p><p>B</p>")
    then inl (footerPage [paragraph "A"; paragraph "B"])
    else if GoString.eqb s (footerHTML "<p>B</p>")
    then inl (footerPage [paragraph "B"])
    else if GoString.eqb s (footerHTML "")
    then inl (footerPage [])
    else inr (LibError 5).

Definition footerWriter : Document -> gostring + Error :=
  fun doc =>
    match doc with
    | [ElementNode _ _ [_; ElementNode _ _ [ElementNode _ _ cs]]] =>
        match cs with
        | [] => inl (footerHTML "")
        | [_] => inl (footerHTML "<p>B</p>")
        | _ => inl (footerHTML "<p>A</p><p>B</p>")
        end
    | _ => inr (LibError 6)
    end.

(** A plain serialiser: tags with their attributes, and text as it is. *)
Definition renderAttr (a : Attribute) : gostring :=
  str " " ++ Key a ++ str "=" ++ [34] ++ Val a ++ [34].

Fixpoint render (n : Node) : gostring :=
  match n with
  | ElementNode data attrs cs =>
      str "<" ++ data ++ flat_map renderAttr attrs ++ str ">"
      ++ flat_map render cs ++ str "</" ++ data ++ str ">"
  | TextNode data => data
  | _ => []
  end.

Definition write (doc : Document) : gostring := flat_map render doc.

Definition writer : Document -> gostring + Error := fun doc => inl (write doc).

(** The page of [TestCleanHTML_RemovesActionButton]: the action button
    stands between two runs of white space. *)
Definition buttonPage : Document :=
  [elem "html" []
     [elem "head" [] [];
      elem "body" []
        [TextNode [10; 9; 9];
         elem "div" [attr "class" "action-button-cell"]
              [TextNode (str "Click here")];
         TextNode [10; 9; 9];
         paragraph "Keep this";
         TextNode [10; 9]]]].

(** That page without the button, as a parser reads it: the two runs of
    white space are one text. *)
Definition keptPage : Document :=
  [elem "html" []
     [elem "head" [] [];
      elem "body" []
        [TextNode [10; 9; 9; 10; 9; 9];
         paragraph "Keep this";
         TextNode [10; 9]]]].

(** A reader that knows these two pages by what [write] gives for them. *)
Definition buttonReader : gostring -> Document + Error :=
  fun s =>
    if GoString.eqb s (write buttonPage) then inl buttonPage
    else if GoString.eqb s (write keptPage) then inl keptPage
    else inr (LibError 5).

(** A footer whose "UID-Nr" is read only once the link bar is gone. *)
Definition splitFooter : Document :=
  [elem "div" [attr "class" "footer-copy"]
     [elem "p" []
        [TextNode (str "UID-");
         elem "span" [attr "class" "inline-link-group"] [TextNode (str "x")];
         TextNode (str "Nr")]]].

Definition withOrder : InvoiceEmail.t :=
  InvoiceEmail.mk (str "Deine Rechnung von Apple") today scenarioD.
Definition withoutOrder : InvoiceEmail.t :=
  InvoiceEmail.mk (str "Invoice #123 (2024)") today (str "Danke").

End Sample.

(* ================================================================== *)
(** * Properties *)

(** ** Go strings *)

Lemma eqb_eq (a b : gostring) : GoString.eqb a b = true <-> a = b.
Proof.
  unfold GoString.eqb. destruct (list_eq_dec Z.eq_dec a b); split; congruence.
Qed.

Lemma HasPrefix_spec (s prefix : gostring) :
  HasPrefix s prefix = true <-> exists rest, s = prefix ++ rest.
Proof.
  revert s. induction prefix as [|p prefix IH]; intros s; simpl.
  - split; [exists s; reflexivity | reflexivity].
  - destruct s as [|c s]; simpl.
    + split; [discriminate | intros [rest H]; discriminate].
    + rewrite andb_true_iff, Z.eqb_eq, IH. split.
      * intros [-> [rest ->]]. exists rest. reflexivity.
      * intros [rest H]. injection H as -> ->. split; [reflexivity | now exists rest].
Qed.

Lemma Contains_spec (s substr : gostring) :
  Contains s substr = true <-> exists pre post, s = pre ++ substr ++ post.
Proof.
  induction s as [|c s IH].
  - simpl. rewrite orb_false_r, HasPrefix_spec. split.
    + intros [rest H]. exists [], rest. exact H.
    + intros [pre [post H]]. destruct pre; [now exists post | discriminate].
  - cbn [Contains]. rewrite orb_true_iff, IH, HasPrefix_spec. split.
    + intros [[rest H] | [pre [post H]]].
      * exists [], rest. exact H.
      * exists (c :: pre), post. simpl. now rewrite H.
    + intros [pre [post H]]. destruct pre as [|c' pre].
      * left. now exists post.
      * right. injection H as _ H. now exists pre, post.
Qed.

Lemma Month_eqb_eq (a b : Month) : Month_eqb a b = true <-> a = b.
Proof.
  unfold Month_eqb. rewrite Z.eqb_eq. split; [|now intros ->].
  destruct a, b; simpl; intros H; try reflexivity; discriminate.
Qed.

(** ** Filter predicate *)

Section FilterPredicateProperties.

Variable unicodeLower : rune -> rune.

Lemma Contains_lower_ci (s sub : gostring) :
  Contains (ToLower unicodeLower s) (ToLower unicodeLower sub) = true
  <-> ci_substring unicodeLower sub s.
Proof.
  rewrite Contains_spec. unfold ci_substring, ToLower. split.
  - intros [pre' [post' H]].
    apply map_eq_app in H as [pre [rest [-> [Hpre H]]]].
    apply map_eq_app in H as [mid [post [-> [Hmid Hpost]]]].
    exists pre, mid, post. split; [reflexivity | exact Hmid].
  - intros [pre [mid [post [-> Hmid]]]].
    exists (map (ToLowerRune unicodeLower) pre),
           (map (ToLowerRune unicodeLower) post).
    now rewrite !map_app, Hmid.
Qed.

Lemma anyHostMatches_spec (addrs : list Address) (filterFrom : gostring) :
  anyHostMatches unicodeLower addrs filterFrom = true
  <-> exists addr, In addr addrs
                   /\ ci_substring unicodeLower filterFrom (HostName addr).
Proof.
  induction addrs as [|a addrs IH]; simpl.
  - split; [discriminate | intros [addr [[] _]]].
  - destruct (Contains _ _) eqn:E.
    + split; [intros _ | reflexivity].
      exists a. split; [now left | now apply Contains_lower_ci].
    + rewrite IH. split.
      * intros [addr [Hin H]]. exists addr. split; [now right | exact H].
      * intros [addr [[<- | Hin] H]].
        -- apply Contains_lower_ci in H. congruence.
        -- now exists addr.
Qed.

(** C1. [matchesFilter] is true exactly when the envelope subject equals the
    configured subject, some sender host name contains the configured
    sender domain up to letter case, and the envelope date has the year and
    month of the evaluation instant; with no sender it is false. *)
Theorem matchesFilter_iff (now : Time) (env : Envelope) (cfg : Config) :
  (matchesFilter unicodeLower now env cfg = true
   <-> Subject env = FilterCfg.Subject (Filter cfg)
       /\ (exists addr, In addr (From env)
             /\ ci_substring unicodeLower (FilterCfg.From (Filter cfg))
                             (HostName addr))
       /\ Year (Date env) = Year now
       /\ Month_of (Date env) = Month_of now)
  /\ (From env = [] -> matchesFilter unicodeLower now env cfg = false).
Proof.
  unfold matchesFilter. split.
  - destruct (Year (Date env) =? Year now) eqn:EY; simpl.
    2:{ apply Z.eqb_neq in EY. split; [discriminate | tauto]. }
    apply Z.eqb_eq in EY.
    destruct (Month_eqb _ _) eqn:EM; simpl.
    2:{ split; [discriminate | intros (_ & _ & _ & H)].
        apply Month_eqb_eq in H. congruence. }
    apply Month_eqb_eq in EM.
    destruct (GoString.eqb _ _) eqn:ES; simpl.
    2:{ split; [discriminate | intros (H & _)].
        apply eqb_eq in H. congruence. }
    apply eqb_eq in ES. rewrite anyHostMatches_spec. tauto.
  - intros ->. simpl.
    destruct (negb _ || negb _); [reflexivity|].
    destruct (negb _); reflexivity.
Qed.

End FilterPredicateProperties.

(** ** The scan monad *)

Lemma bind_Ok {A B} (m : Scan A) (k : A -> Scan B) tr a tr' :
  m tr = (Ok a, tr') -> bind m k tr = k a tr'.
Proof. unfold bind. now intros ->. Qed.

Lemma bind_emit {B} (ev : Event) (k : unit -> Scan B) tr :
  bind (emit ev) k tr = k tt (tr ++ [ev]).
Proof. reflexivity. Qed.

(** ** Mailbox scanner *)

Section ScannerProperties.

Variable unicodeLower : rune -> rune.
Variable clock : nat -> Time.

Lemma candidatesFrom_cons (cfg : Config) (k : nat) (msg : Message)
                          (rest : list Message) :
  candidatesFrom unicodeLower clock cfg k (msg :: rest)
  = match MsgEnvelope msg with
    | Some env =>
        (if matchesFilter unicodeLower (clock k) env cfg then [msg] else [])
        ++ candidatesFrom unicodeLower clock cfg (S k) rest
    | None => candidatesFrom unicodeLower clock cfg k rest
    end.
Proof.
  unfold candidatesFrom. cbn [filter].
  assert (Hh : hasEnvelope msg
               = match MsgEnvelope msg with Some _ => true | None => false end)
    by reflexivity.
  destruct (MsgEnvelope msg) as [env|] eqn:E; rewrite Hh; [|reflexivity].
  assert (Hsel : selected unicodeLower (clock k) cfg msg
                 = matchesFilter unicodeLower (clock k) env cfg).
  { unfold selected. now rewrite E. }
  cbn [List.length seq combine filter fst snd]. rewrite Hsel.
  now destruct (matchesFilter unicodeLower (clock k) env cfg).
Qed.

(** Pass 1 never fails: it returns the identifiers of the selected
    messages, appended in arrival order, and logs one line for each. *)
Lemma matchLoop_Ok (cfg : Config) (messages : list Message) :
  forall k uids tr,
    matchLoop unicodeLower clock cfg k messages uids tr
    = (Ok (uids ++ map Uid (candidatesFrom unicodeLower clock cfg k messages)),
       tr ++ map foundLine (candidatesFrom unicodeLower clock cfg k messages)).
Proof.
  induction messages as [|msg rest IH]; intros k uids tr.
  - cbn. now rewrite !app_nil_r.
  - rewrite candidatesFrom_cons. cbn [matchLoop].
    destruct (MsgEnvelope msg) as [env|] eqn:E; [|apply IH].
    destruct (matchesFilter unicodeLower (clock k) env cfg); [|apply IH].
    rewrite bind_emit, IH. cbn [app map]. unfold foundLine at 2. rewrite E.
    now rewrite <- !app_assoc.
Qed.

Lemma fetchMatchingUIDs_Ok (c : Server) (seqSet : SeqSet) (cfg : Config) tr :
  fetchMatchingUIDs unicodeLower clock c seqSet cfg tr
  = (Ok (map Uid (candidates unicodeLower clock cfg (fst (Fetch c seqSet)))),
     tr ++ pass1_events unicodeLower clock cfg seqSet (Fetch c seqSet)).
Proof.
  unfold fetchMatchingUIDs, pass1_events, candidates. rewrite bind_emit.
  destruct (Fetch c seqSet) as [messages done]. cbn [fst snd].
  rewrite (bind_Ok _ _ _ _ _ (matchLoop_Ok cfg messages 0 [] _)).
  cbn [app].
  destruct done as [err|]; unfold bind, emit, ret; cbn [fst snd];
    rewrite <- ?app_assoc; cbn [app]; rewrite ?app_nil_r; reflexivity.
Qed.

(** The body loop never returns an error: it ends normally, or panics on
    a body-carrying message without envelope. *)
Lemma bodyLoop_Ok (messages : list Message) :
  (forall m, In m messages -> MsgEnvelope m <> None) ->
  forall invoices tr, exists l tr',
    bodyLoop messages invoices tr = (Ok l, tr').
Proof.
  induction messages as [|msg rest IH]; intros Henv invoices tr; simpl.
  - now exists invoices, tr.
  - assert (Hrest : forall m, In m rest -> MsgEnvelope m <> None)
      by (intros m Hm; apply Henv; now right).
    destruct (MsgBody msg) as [r|].
    + destruct (extractHTMLBody r) as [htmlBody|err].
      * destruct (MsgEnvelope msg) as [env|] eqn:E.
        -- apply IH, Hrest.
        -- exfalso. apply (Henv msg); [now left | exact E].
      * rewrite bind_emit. apply IH, Hrest.
    + rewrite bind_emit. apply IH, Hrest.
Qed.

Lemma bodyLoop_not_Err (messages : list Message) :
  forall invoices tr e tr', bodyLoop messages invoices tr <> (Err e, tr').
Proof.
  induction messages as [|msg rest IH]; intros invoices tr e tr'; simpl.
  - discriminate.
  - destruct (MsgBody msg) as [r|].
    + destruct (extractHTMLBody r) as [htmlBody|err].
      * destruct (MsgEnvelope msg) as [env|]; [apply IH | discriminate].
      * rewrite bind_emit. apply IH.
    + rewrite bind_emit. apply IH.
Qed.

(** The run of [fetchInvoices] once [DialTLS], [Login] and [Select] went
    through on a non-empty mailbox. *)
Lemma fetchInvoices_connected (c : Server) (cfg : Config) total tr :
  DialTLS c = None ->
  Login c (User cfg) (Pass cfg) = None ->
  Select c = inl total ->
  total <> 0 ->
  let seqSet := AddRange [] (windowFrom cfg total) total in
  let matchUIDs :=
    map Uid (candidates unicodeLower clock cfg (fst (Fetch c seqSet))) in
  fetchInvoices unicodeLower clock c cfg tr
  = defer_Logout
      (if Z.of_nat (List.length matchUIDs) =? 0
       then emit (EvLog LogNoInvoiceEmails) ;;; ret []
       else emit (EvLog (LogFoundCount (Z.of_nat (List.length matchUIDs)))) ;;;
            fetchBodies c matchUIDs)
      (tr ++ [EvDialTLS (Endpoint.Host (IMAP cfg)) (Endpoint.Port (IMAP cfg));
              EvLogin (User cfg) (Pass cfg); EvLog LogLoggedIn;
              EvSelect "INBOX" true; EvLog (LogInboxHas total)]
          ++ pass1_events unicodeLower clock cfg seqSet (Fetch c seqSet)).
Proof.
  intros HD HL HS Hne seqSet matchUIDs.
  unfold fetchInvoices, fetchInvoices_session.
  rewrite bind_emit, HD. unfold defer_Logout.
  rewrite bind_emit, HL, !bind_emit, HS, bind_emit.
  apply Z.eqb_neq in Hne. rewrite Hne. fold seqSet.
  rewrite (bind_Ok _ _ _ _ _ (fetchMatchingUIDs_Ok c seqSet cfg _)).
  fold matchUIDs. rewrite <- !app_assoc. reflexivity.
Qed.

(** *** Window selection *)

(** For a count that fits [uint32], pass 1 asks for the last
    [min count total] positions. *)
Lemma windowFrom_last (cfg : Config) (total : Z) :
  0 < FilterCfg.Count (Filter cfg) < 2 ^ 32 ->
  0 < total < 2 ^ 32 ->
  AddRange [] (windowFrom cfg total) total
  = [(total - Z.min (FilterCfg.Count (Filter cfg)) total + 1, total)].
Proof.
  intros HN Ht. unfold windowFrom, uint32.
  destruct (Z.gtb_spec (FilterCfg.Count (Filter cfg)) 0) as [_|]; [|lia].
  rewrite (Z.mod_small (FilterCfg.Count (Filter cfg))) by lia.
  unfold AddRange.
  destruct (Z.gtb_spec total (FilterCfg.Count (Filter cfg))) as [Hgt|Hle].
  - rewrite Z.mod_small by lia. rewrite Z.min_l by lia.
    destruct (Z.ltb_spec total (total - FilterCfg.Count (Filter cfg) + 1)); [lia|].
    destruct (Z.eqb_spec (total - FilterCfg.Count (Filter cfg) + 1) 0); [lia|].
    reflexivity.
  - rewrite Z.min_r by lia.
    destruct (Z.ltb_spec total 1); [lia|].
    replace (total - total + 1) with 1 by lia. reflexivity.
Qed.

(** The positions of that window: the last [min count total] ones. *)
Lemma window_positions (cfg : Config) (total q : Z) :
  0 < FilterCfg.Count (Filter cfg) < 2 ^ 32 ->
  0 < total < 2 ^ 32 ->
  SeqSet_Contains (AddRange [] (windowFrom cfg total) total) q = true
  <-> total - Z.min (FilterCfg.Count (Filter cfg)) total < q <= total.
Proof.
  intros HN Ht. rewrite windowFrom_last by assumption.
  unfold SeqSet_Contains. cbn [existsb fst snd].
  rewrite orb_false_r, andb_true_iff, !Z.leb_le. lia.
Qed.

(** Without a count, pass 1 asks for the whole mailbox. *)
Lemma windowFrom_all (cfg : Config) (total : Z) :
  FilterCfg.Count (Filter cfg) = 0 ->
  0 < total ->
  AddRange [] (windowFrom cfg total) total = [(1, total)].
Proof.
  intros HN Ht. unfold windowFrom, AddRange. rewrite HN. simpl.
  destruct (Z.ltb_spec total 1); [lia | reflexivity].
Qed.

(** On an empty mailbox the scan returns no invoice and issues no fetch. *)
Lemma fetchInvoices_empty_mailbox (c : Server) (cfg : Config) tr :
  DialTLS c = None ->
  Login c (User cfg) (Pass cfg) = None ->
  Select c = inl 0 ->
  fetchInvoices unicodeLower clock c cfg tr
  = (Ok [],
     tr ++ [EvDialTLS (Endpoint.Host (IMAP cfg)) (Endpoint.Port (IMAP cfg));
            EvLogin (User cfg) (Pass cfg); EvLog LogLoggedIn;
            EvSelect "INBOX" true; EvLog (LogInboxHas 0); EvLogout]).
Proof.
  intros HD HL HS. unfold fetchInvoices, fetchInvoices_session.
  rewrite bind_emit, HD. unfold defer_Logout.
  rewrite bind_emit, HL, !bind_emit, HS, bind_emit. simpl.
  now rewrite <- !app_assoc.
Qed.

(** *** Candidate identifiers *)

(** The selected messages are among the delivered ones. *)
Lemma candidatesFrom_In (cfg : Config) (messages : list Message) :
  forall k msg,
    In msg (candidatesFrom unicodeLower clock cfg k messages) ->
    In msg messages.
Proof.
  induction messages as [|m rest IH]; intros k msg.
  - intros [].
  - rewrite candidatesFrom_cons. destruct (MsgEnvelope m) as [env|].
    + rewrite in_app_iff. intros [H | H]; [|right; exact (IH _ _ H)].
      destruct (matchesFilter _ _ _ _); [|destruct H].
      destruct H as [<- | []]. now left.
    + intros H. right. exact (IH _ _ H).
Qed.

(** Selecting among messages with distinct identifiers keeps them
    distinct. *)
Lemma candidatesFrom_distinct (cfg : Config) (messages : list Message) :
  forall k,
    NoDup (map Uid messages) ->
    NoDup (map Uid (candidatesFrom unicodeLower clock cfg k messages)).
Proof.
  induction messages as [|m rest IH]; intros k Hdistinct.
  - constructor.
  - cbn [map] in Hdistinct. apply NoDup_cons_iff in Hdistinct as [Hfresh Hrest].
    rewrite candidatesFrom_cons.
    destruct (MsgEnvelope m) as [env|]; [|exact (IH _ Hrest)].
    destruct (matchesFilter _ _ _ _); cbn [app map]; [|exact (IH _ Hrest)].
    apply NoDup_cons; [|exact (IH _ Hrest)].
    intros Hin. apply Hfresh.
    apply in_map_iff in Hin as (other & Huid & Hother).
    apply in_map_iff. exists other. split; [exact Huid|].
    exact (candidatesFrom_In _ _ _ _ Hother).
Qed.

(** While the clock stands still, pass 1 selects by one test. *)
Lemma candidatesFrom_still (cfg : Config) (now : Time)
                           (messages : list Message) :
  (forall k, clock k = now) ->
  forall k, candidatesFrom unicodeLower clock cfg k messages
            = filter (selected unicodeLower now cfg) messages.
Proof.
  intros Hstill. induction messages as [|m rest IH]; intros k; [reflexivity|].
  rewrite candidatesFrom_cons. cbn [filter]. unfold selected at 1.
  destruct (MsgEnvelope m) as [env|]; [|apply IH].
  rewrite Hstill, IH. now destruct (matchesFilter _ _ _ _).
Qed.

(** C3 (amended). Pass 1 returns the identifier of every delivered result
    that carries an envelope matching the filter when it is examined, in
    the order of arrival and once for every delivery (with a clock that
    stands still: the identifiers of the delivered results that pass the
    one test); when the store delivers each identifier at most once, the
    candidate list holds each identifier at most once. *)
Theorem pass1_candidates_unique (c : Server) (seqSet : SeqSet) (cfg : Config) tr :
  let delivered := fst (Fetch c seqSet) in
  let uids := map Uid (candidates unicodeLower clock cfg delivered) in
  fst (fetchMatchingUIDs unicodeLower clock c seqSet cfg tr) = Ok uids
  /\ (forall now, (forall k, clock k = now) ->
        uids = map Uid (filter (selected unicodeLower now cfg) delivered))
  /\ (NoDup (map Uid delivered) -> NoDup uids).
Proof.
  intros delivered uids. split; [|split].
  - now rewrite fetchMatchingUIDs_Ok.
  - intros now Hstill. unfold uids, candidates.
    now rewrite (candidatesFrom_still cfg now delivered Hstill).
  - apply candidatesFrom_distinct.
Qed.

(** *** Failures *)

Lemma fetchInvoices_DialTLS_error (c : Server) (cfg : Config) tr e :
  DialTLS c = Some e ->
  fst (fetchInvoices unicodeLower clock c cfg tr)
  = Err (Wrap "connecting to IMAP server" e).
Proof.
  intros HD. unfold fetchInvoices. now rewrite bind_emit, HD.
Qed.

Lemma fetchInvoices_Login_error (c : Server) (cfg : Config) tr e :
  DialTLS c = None ->
  Login c (User cfg) (Pass cfg) = Some e ->
  fst (fetchInvoices unicodeLower clock c cfg tr) = Err (Wrap "IMAP login" e).
Proof.
  intros HD HL. unfold fetchInvoices, fetchInvoices_session.
  rewrite bind_emit, HD. unfold defer_Logout. now rewrite bind_emit, HL.
Qed.

Lemma fetchInvoices_Select_error (c : Server) (cfg : Config) tr e :
  DialTLS c = None ->
  Login c (User cfg) (Pass cfg) = None ->
  Select c = inr e ->
  fst (fetchInvoices unicodeLower clock c cfg tr)
  = Err (Wrap "selecting INBOX" e).
Proof.
  intros HD HL HS. unfold fetchInvoices, fetchInvoices_session.
  rewrite bind_emit, HD. unfold defer_Logout.
  now rewrite bind_emit, HL, !bind_emit, HS.
Qed.

Lemma fst_defer_Logout {A} (m : Scan A) tr :
  fst (defer_Logout m tr) = fst (m tr).
Proof. unfold defer_Logout. now destruct (m tr). Qed.

(** The outcome of pass 2 does not depend on what was logged before. *)
Lemma bodyLoop_fst (messages : list Message) :
  forall invoices tr1 tr2,
    fst (bodyLoop messages invoices tr1) = fst (bodyLoop messages invoices tr2).
Proof.
  induction messages as [|msg rest IH]; intros invoices tr1 tr2; simpl.
  - reflexivity.
  - destruct (MsgBody msg) as [r|].
    + destruct (extractHTMLBody r) as [htmlBody|err].
      * destruct (MsgEnvelope msg) as [env|]; [apply IH | reflexivity].
      * rewrite !bind_emit. apply IH.
    + rewrite !bind_emit. apply IH.
Qed.

Lemma fetchBodies_fst (c : Server) (uids : list Z) tr1 tr2 :
  fst (fetchBodies c uids tr1) = fst (fetchBodies c uids tr2).
Proof.
  unfold fetchBodies. rewrite !bind_emit.
  destruct (UidFetch c _) as [messages done]. unfold bind.
  pose proof (bodyLoop_fst messages []
                (tr1 ++ [EvUidFetch (fold_left AddNum uids [])
                           [FetchBodySection true; FetchEnvelope]])
                (tr2 ++ [EvUidFetch (fold_left AddNum uids [])
                           [FetchBodySection true; FetchEnvelope]])) as H.
  destruct (bodyLoop messages [] (tr1 ++ _)) as [o1 t1].
  destruct (bodyLoop messages [] (tr2 ++ _)) as [o2 t2].
  simpl in H. subst o2.
  destruct o1; [destruct done|..]; reflexivity.
Qed.

(** A failed pass-1 fetch changes nothing in the outcome of the scan. *)
Lemma fetchInvoices_pass1_error_ignored (c : Server) (cfg : Config) tr :
  fst (fetchInvoices unicodeLower clock c cfg tr)
  = fst (fetchInvoices unicodeLower clock (without_Fetch_error c) cfg tr).
Proof.
  destruct (DialTLS c) as [e|] eqn:HD.
  { now rewrite !(fetchInvoices_DialTLS_error _ _ _ e). }
  destruct (Login c (User cfg) (Pass cfg)) as [e|] eqn:HL.
  { now rewrite !(fetchInvoices_Login_error _ _ _ e). }
  destruct (Select c) as [total|e] eqn:HS.
  2:{ now rewrite !(fetchInvoices_Select_error _ _ _ e). }
  destruct (Z.eq_dec total 0) as [->|Hne].
  { now rewrite !fetchInvoices_empty_mailbox. }
  rewrite (fetchInvoices_connected c cfg total tr HD HL HS Hne).
  rewrite (fetchInvoices_connected (without_Fetch_error c) cfg total tr HD HL HS Hne).
  rewrite !fst_defer_Logout. simpl fst.
  set (matchUIDs := map Uid _).
  destruct (Z.of_nat (List.length matchUIDs) =? 0); [reflexivity|].
  rewrite !bind_emit.
  change (fetchBodies (without_Fetch_error c)) with (fetchBodies c).
  apply fetchBodies_fst.
Qed.

(** *** The scan writes its trace without reading it *)

Lemma appends_ret {A} (a : A) : appends (ret a).
Proof. exists (Ok a), []. intros tr. unfold ret. now rewrite app_nil_r. Qed.

Lemma appends_fail {A} (e : Error) : appends (@fail A e).
Proof. exists (Err e), []. intros tr. unfold fail. now rewrite app_nil_r. Qed.

Lemma appends_panic {A} : appends (@panic A).
Proof. exists Panic, []. intros tr. unfold panic. now rewrite app_nil_r. Qed.

Lemma appends_emit (ev : Event) : appends (emit ev).
Proof. now exists (Ok tt), [ev]. Qed.

Lemma appends_bind {A B} (m : Scan A) (k : A -> Scan B) :
  appends m -> (forall a, appends (k a)) -> appends (bind m k).
Proof.
  intros (r & evs & Hm) Hk. destruct r as [a|e|].
  - destruct (Hk a) as (r' & evs' & Hka). exists r', (evs ++ evs').
    intros tr. unfold bind. now rewrite Hm, Hka, app_assoc.
  - exists (Err e), evs. intros tr. unfold bind. now rewrite Hm.
  - exists Panic, evs. intros tr. unfold bind. now rewrite Hm.
Qed.

Lemma appends_bodyLoop (messages : list Message) :
  forall invoices, appends (bodyLoop messages invoices).
Proof.
  induction messages as [|msg rest IH]; intros invoices; cbn [bodyLoop].
  - apply appends_ret.
  - destruct (MsgBody msg) as [r|].
    + destruct (extractHTMLBody r) as [htmlBody|err].
      * destruct (MsgEnvelope msg) as [env|]; [apply IH | apply appends_panic].
      * apply appends_bind; [apply appends_emit | intros _; apply IH].
    + apply appends_bind; [apply appends_emit | intros _; apply IH].
Qed.

Lemma appends_fetchBodies (c : Server) (uids : list Z) :
  appends (fetchBodies c uids).
Proof.
  unfold fetchBodies. apply appends_bind; [apply appends_emit | intros _].
  destruct (UidFetch c _) as [messages done].
  apply appends_bind; [apply appends_bodyLoop | intros invoices].
  destruct done; [apply appends_fail | apply appends_ret].
Qed.

(** How the body loop ends, whatever the server delivers. *)
Lemma bodyLoop_outcome (messages : list Message) :
  forall invoices tr,
    fst (bodyLoop messages invoices tr)
    = if existsb lacksEnvelope messages then Panic
      else Ok (invoices ++ flat_map invoiceOf messages).
Proof.
  induction messages as [|msg rest IH]; intros invoices tr.
  - cbn. now rewrite app_nil_r.
  - cbn [bodyLoop existsb flat_map]. unfold lacksEnvelope at 1, invoiceOf at 1.
    unfold hasEnvelope.
    destruct (MsgBody msg) as [r|].
    + destruct (extractHTMLBody r) as [htmlBody|err].
      * destruct (MsgEnvelope msg) as [env|]; [|reflexivity].
        cbn [negb orb]. rewrite IH. now rewrite <- app_assoc.
      * rewrite bind_emit, IH. cbn [orb app]. now destruct (MsgEnvelope msg).
    + rewrite bind_emit, IH. reflexivity.
Qed.

(** A pass-2 fetch that reports a failure: the scan ends with the wrapped
    error, unless the body loop has panicked before. *)
Lemma fetchBodies_failure (c : Server) (uids : list Z) messages e tr :
  UidFetch c (fold_left AddNum uids []) = (messages, Some e) ->
  fst (fetchBodies c uids tr)
  = if existsb lacksEnvelope messages then Panic
    else Err (Wrap "fetching bodies" e).
Proof.
  intros HU. unfold fetchBodies. rewrite bind_emit, HU. unfold bind.
  pose proof (bodyLoop_outcome messages []
                (tr ++ [EvUidFetch (fold_left AddNum uids [])
                          [FetchBodySection true; FetchEnvelope]])) as H.
  destruct (bodyLoop messages [] _) as [o tr1]. cbn [fst] in H. subst o.
  now destruct (existsb lacksEnvelope messages).
Qed.

(** The scan with a failing pass-1 fetch is the scan without that failure
    plus one warning line. *)
Lemma fetchInvoices_pass1_warning (c : Server) (cfg : Config) tr total e :
  DialTLS c = None ->
  Login c (User cfg) (Pass cfg) = None ->
  Select c = inl total ->
  total <> 0 ->
  snd (Fetch c (AddRange [] (windowFrom cfg total) total)) = Some e ->
  exists before after,
    snd (fetchInvoices unicodeLower clock c cfg tr)
    = before ++ EvLog (LogWarnFetchingEnvelopes e) :: after
    /\ snd (fetchInvoices unicodeLower clock (without_Fetch_error c) cfg tr)
       = before ++ after.
Proof.
  intros HD HL HS Hne Hdone.
  rewrite (fetchInvoices_connected c cfg total tr HD HL HS Hne).
  rewrite (fetchInvoices_connected (without_Fetch_error c) cfg total tr
             HD HL HS Hne).
  cbn [without_Fetch_error Fetch fst].
  set (seqSet := AddRange [] (windowFrom cfg total) total) in *.
  set (matchUIDs := map Uid _).
  change (fetchBodies (without_Fetch_error c)) with (fetchBodies c).
  assert (Hrest : appends
            (if Z.of_nat (List.length matchUIDs) =? 0
             then emit (EvLog LogNoInvoiceEmails) ;;; ret []
             else emit (EvLog (LogFoundCount
                                 (Z.of_nat (List.length matchUIDs)))) ;;;
                  fetchBodies c matchUIDs)).
  { destruct (_ =? 0);
      (apply appends_bind; [apply appends_emit | intros _]);
      [apply appends_ret | apply appends_fetchBodies]. }
  destruct Hrest as (r & evs & Hrest).
  unfold defer_Logout. rewrite !Hrest. cbn [snd].
  unfold pass1_events. rewrite Hdone. cbn [fst snd].
  exists (tr ++ [EvDialTLS (Endpoint.Host (IMAP cfg)) (Endpoint.Port (IMAP cfg));
                 EvLogin (User cfg) (Pass cfg); EvLog LogLoggedIn;
                 EvSelect "INBOX" true; EvLog (LogInboxHas total)]
             ++ EvFetch seqSet [FetchEnvelope; FetchUid]
                :: map foundLine
                     (candidates unicodeLower clock cfg (fst (Fetch c seqSet)))),
         (evs ++ [EvLogout]).
  split.
  - rewrite <- !app_assoc. cbn [app]. rewrite <- !app_assoc. reflexivity.
  - rewrite !app_nil_r, <- !app_assoc. reflexivity.
Qed.

(** C4 (amended). A connection failure, an authentication failure and a
    failure to select the mailbox end the scan with an error that wraps the
    cause.  So does a failure of the pass-2 body fetch, unless a delivered
    message yields HTML and has no envelope: then the scan has ended in a
    panic.  A failure of the pass-1 envelope fetch is logged as a warning
    and nothing more: the scan goes on with the identifiers matched, its
    outcome is that of the scan without the failure, and so is its trace
    but for the one warning line. *)
Theorem scan_failures (c : Server) (cfg : Config) tr :
  (forall e, DialTLS c = Some e ->
     fst (fetchInvoices unicodeLower clock c cfg tr)
     = Err (Wrap "connecting to IMAP server" e))
  /\ (forall e, DialTLS c = None ->
        Login c (User cfg) (Pass cfg) = Some e ->
        fst (fetchInvoices unicodeLower clock c cfg tr)
        = Err (Wrap "IMAP login" e))
  /\ (forall e, DialTLS c = None ->
        Login c (User cfg) (Pass cfg) = None ->
        Select c = inr e ->
        fst (fetchInvoices unicodeLower clock c cfg tr)
        = Err (Wrap "selecting INBOX" e))
  /\ (forall total messages e,
        DialTLS c = None ->
        Login c (User cfg) (Pass cfg) = None ->
        Select c = inl total ->
        total <> 0 ->
        let matchUIDs :=
          map Uid (candidates unicodeLower clock cfg
                     (fst (Fetch c (AddRange [] (windowFrom cfg total) total)))) in
        matchUIDs <> [] ->
        UidFetch c (fold_left AddNum matchUIDs []) = (messages, Some e) ->
        fst (fetchInvoices unicodeLower clock c cfg tr)
        = if existsb lacksEnvelope messages then Panic
          else Err (Wrap "fetching bodies" e))
  /\ fst (fetchInvoices unicodeLower clock c cfg tr)
     = fst (fetchInvoices unicodeLower clock (without_Fetch_error c) cfg tr)
  /\ (forall total e,
        DialTLS c = None ->
        Login c (User cfg) (Pass cfg) = None ->
        Select c = inl total ->
        total <> 0 ->
        snd (Fetch c (AddRange [] (windowFrom cfg total) total)) = Some e ->
        exists before after,
          snd (fetchInvoices unicodeLower clock c cfg tr)
          = before ++ EvLog (LogWarnFetchingEnvelopes e) :: after
          /\ snd (fetchInvoices unicodeLower clock (without_Fetch_error c)
                                cfg tr)
             = before ++ after).
Proof.
  split; [|split; [|split; [|split; [|split]]]].
  - intros e. apply fetchInvoices_DialTLS_error.
  - intros e. apply fetchInvoices_Login_error.
  - intros e. apply fetchInvoices_Select_error.
  - intros total messages e HD HL HS Hne matchUIDs Hsome HU.
    rewrite (fetchInvoices_connected c cfg total tr HD HL HS Hne).
    fold matchUIDs. rewrite fst_defer_Logout.
    replace (Z.of_nat (List.length matchUIDs) =? 0) with false.
    2:{ symmetry. apply Z.eqb_neq.
        destruct matchUIDs; [congruence | simpl; lia]. }
    rewrite bind_emit.
    exact (fetchBodies_failure c matchUIDs messages e _ HU).
  - apply fetchInvoices_pass1_error_ignored.
  - intros total e. apply fetchInvoices_pass1_warning.
Qed.

End ScannerProperties.

(** C2 (the code at a count beyond [uint32]). With [filter.count] set to
    [2^32 + 1] on a mailbox of five messages, [uint32(cfg.Filter.Count)] is 1
    and pass 1 fetches position 5 only, where the last [min count total]
    messages are the positions 1 to 5. *)
Theorem window_count_truncated :
  is_int (2 ^ 32 + 1)
  /\ Z.min (2 ^ 32 + 1) 5 = 5
  /\ fetchInvoices Sample.noTable Sample.frozen Sample.quiet
                   (Sample.cfg (2 ^ 32 + 1)) []
     = (Ok [],
        [EvDialTLS (str "imap.example.com") 993;
         EvLogin (str "user@example.com") (str "secret");
         EvLog LogLoggedIn; EvSelect "INBOX" true; EvLog (LogInboxHas 5);
         EvFetch [(5, 5)] [FetchEnvelope; FetchUid];
         EvLog LogNoInvoiceEmails; EvLogout]).
Proof.
  split; [unfold is_int; lia|]. split; reflexivity.
Qed.

(** C3 (counterexample). When the store delivers the metadata of UID 7
    twice, pass 1 returns the identifier twice. *)
Lemma pass1_candidates_repeat :
  fst (fetchMatchingUIDs Sample.noTable Sample.frozen Sample.repeating
                         [(1, 5)] (Sample.cfg 10) [])
  = Ok [7; 7]
  /\ ~ NoDup [7; 7].
Proof.
  split; [reflexivity|].
  intros H. inversion H as [|? ? Hnotin _]. apply Hnotin. now left.
Qed.

(** The store delivers UID 9 and then UID 7: both are candidates, once
    each and in that order. *)
Lemma pass1_candidates_unique_witness :
  fst (fetchMatchingUIDs Sample.noTable Sample.frozen Sample.shuffled
                         [(1, 5)] (Sample.cfg 10) [])
  = Ok [9; 7]
  /\ NoDup [9; 7].
Proof.
  destruct (pass1_candidates_unique Sample.noTable Sample.frozen
              Sample.shuffled [(1, 5)] (Sample.cfg 10) [])
    as (Hreturned & _ & Hdistinct).
  split; [exact Hreturned|]. apply Hdistinct.
  simpl. constructor.
  - simpl. intros [H | []]. discriminate H.
  - constructor; [intros [] | constructor].
Defined.

(** C4 (counterexample). The pass-1 fetch fails with a protocol error, and
    the scan still returns normally, with no invoice. *)
Lemma pass1_fetch_error_swallowed :
  snd (Fetch Sample.broken_pass1 [(1, 5)]) = Some (LibError 1)
  /\ fst (fetchInvoices Sample.noTable Sample.frozen Sample.broken_pass1
                        (Sample.cfg 0) [])
     = Ok [].
Proof. split; reflexivity. Qed.

(** A pass-2 fetch that fails after one body ends the scan with the wrapped
    error; a pass-1 fetch that fails leaves one warning line in the trace of
    a scan that returns normally. *)
Lemma scan_failures_witness :
  fst (fetchInvoices Sample.noTable Sample.frozen Sample.broken_pass2
                     (Sample.cfg 0) [])
  = Err (Wrap "fetching bodies" (LibError 2))
  /\ exists before after,
       snd (fetchInvoices Sample.noTable Sample.frozen Sample.broken_pass1
                          (Sample.cfg 0) [])
       = before ++ EvLog (LogWarnFetchingEnvelopes (LibError 1)) :: after
       /\ snd (fetchInvoices Sample.noTable Sample.frozen
                             (without_Fetch_error Sample.broken_pass1)
                             (Sample.cfg 0) [])
          = before ++ after.
Proof.
  split.
  - destruct (scan_failures Sample.noTable Sample.frozen Sample.broken_pass2
                (Sample.cfg 0) []) as (_ & _ & _ & H & _).
    refine (H 5 [Sample.full7] (LibError 2) eq_refl eq_refl eq_refl _ _ eq_refl);
      discriminate.
  - destruct (scan_failures Sample.noTable Sample.frozen Sample.broken_pass1
                (Sample.cfg 0) []) as (_ & _ & _ & _ & _ & H).
    refine (H 5 (LibError 1) eq_refl eq_refl eq_refl _ eq_refl). discriminate.
Defined.

(** ** Content extractor *)

Lemma isInlineHTML_spec (p : Part) :
  isInlineHTML p = true <-> Header p = InlineHeader (str "text/html").
Proof.
  unfold isInlineHTML. destruct (Header p) as [ct|ct].
  - rewrite eqb_eq. split; [now intros -> | now intros [= ->]].
  - split; discriminate.
Qed.

(** The loop passes over parts that are not inline HTML. *)
Lemma extractHTMLBody_loop_skip (pre : list Part) (mr : list NextPartResult) :
  Forall (fun q => Header q <> InlineHeader (str "text/html")) pre ->
  extractHTMLBody_loop (map NextPart_ok pre ++ mr) = extractHTMLBody_loop mr.
Proof.
  induction 1 as [|q pre Hq _ IH]; simpl; [reflexivity|].
  destruct (isInlineHTML q) eqn:E; [|exact IH].
  apply isInlineHTML_spec in E. contradiction.
Qed.

(** Every way the loop can end, read off its input. *)
Lemma extractHTMLBody_loop_inv (mr : list NextPartResult) :
  exists pre,
    Forall (fun q => Header q <> InlineHeader (str "text/html")) pre
    /\ ((mr = map NextPart_ok pre
         /\ extractHTMLBody_loop mr
            = (inr (ErrorNew "no text/html part found"), []))
        \/ (exists err post,
              mr = map NextPart_ok pre ++ NextPart_err err :: post
              /\ extractHTMLBody_loop mr
                 = (inr (Wrap "reading mail part" err), post))
        \/ (exists p post,
              mr = map NextPart_ok pre ++ NextPart_ok p :: post
              /\ Header p = InlineHeader (str "text/html")
              /\ extractHTMLBody_loop mr
                 = (match Body p with
                    | inl body => inl body
                    | inr err => inr (Wrap "reading HTML body" err)
                    end, post))).
Proof.
  induction mr as [|[p|err] mr IH].
  - exists []. split; [constructor|]. left. now split.
  - destruct (isInlineHTML p) eqn:E.
    + exists []. split; [constructor|]. right. right. exists p, mr.
      split; [reflexivity|]. split; [now apply isInlineHTML_spec|].
      simpl. rewrite E. now destruct (Body p).
    + destruct IH as (pre & Hpre & IH).
      assert (Hp : Header p <> InlineHeader (str "text/html")).
      { intros H. apply isInlineHTML_spec in H. congruence. }
      exists (p :: pre). split; [now constructor|].
      simpl. rewrite E.
      destruct IH as [[-> H] | [(err & post & -> & H) | (p' & post & -> & Hp' & H)]].
      * left. now split.
      * right. left. exists err, post. now split.
      * right. right. exists p', post. now repeat split.
  - exists []. split; [constructor|]. right. left. exists err, mr. now split.
Qed.

(** C5 (amended). [extractHTMLBody] returns the content of the first inline
    part whose declared kind is text/html, and asks the reader for nothing
    after that part; parts with an attachment header are passed over whatever
    kind they declare.  It fails with "no text/html part found" exactly when
    the reader is created, every part is read without error up to the end,
    and no inline part declares text/html. *)
Theorem extractHTMLBody_first_inline_html (r : RawBody) :
  (forall body,
     extractHTMLBody r = inl body
     <-> exists pre p post,
           r = CreateReader_ok (map NextPart_ok pre ++ NextPart_ok p :: post)
           /\ Forall (fun q => Header q <> InlineHeader (str "text/html")) pre
           /\ Header p = InlineHeader (str "text/html")
           /\ Body p = inl body
           /\ snd (extractHTMLBody_loop
                     (map NextPart_ok pre ++ NextPart_ok p :: post)) = post)
  /\ (extractHTMLBody r = inr (ErrorNew "no text/html part found")
      <-> exists parts,
            r = CreateReader_ok (map NextPart_ok parts)
            /\ Forall (fun q => Header q <> InlineHeader (str "text/html")) parts).
Proof.
  split.
  - intros body. split.
    + destruct r as [e|mr]; simpl; [discriminate|].
      destruct (extractHTMLBody_loop_inv mr)
        as (pre & Hpre & [[-> H] | [(err & post & -> & H) | (p & post & -> & Hp & H)]]);
        rewrite H; simpl; try discriminate.
      destruct (Body p) as [b|e] eqn:EB; [|discriminate].
      intros [= ->]. exists pre, p, post.
      repeat split; try assumption. now rewrite H.
    + intros (pre & p & post & -> & Hpre & Hp & HB & _). simpl.
      rewrite extractHTMLBody_loop_skip by assumption. simpl.
      apply isInlineHTML_spec in Hp. now rewrite Hp, HB.
  - split.
    + destruct r as [e|mr]; simpl; [discriminate|].
      destruct (extractHTMLBody_loop_inv mr)
        as (pre & Hpre & [[-> H] | [(err & post & -> & H) | (p & post & -> & Hp & H)]]);
        rewrite H; simpl.
      * intros _. now exists pre.
      * discriminate.
      * destruct (Body p); discriminate.
    + intros (parts & -> & Hparts). simpl.
      rewrite <- (app_nil_r (map NextPart_ok parts)).
      now rewrite extractHTMLBody_loop_skip.
Qed.

(** C5 (counterexample). The first part that declares text/html is an
    attachment with content "A"; the extractor returns "B", the content of
    the inline part after it.  With the attachment alone it reports that no
    text/html part was found. *)
Lemma extractHTMLBody_skips_html_attachment :
  let attached := mkPart (AttachmentHeader (str "text/html")) (inl (str "A")) in
  let inline := mkPart (InlineHeader (str "text/html")) (inl (str "B")) in
  declaredKind attached = str "text/html"
  /\ extractHTMLBody (CreateReader_ok [NextPart_ok attached; NextPart_ok inline])
     = inl (str "B")
  /\ str "B" <> str "A"
  /\ extractHTMLBody (CreateReader_ok [NextPart_ok attached])
     = inr (ErrorNew "no text/html part found").
Proof.
  repeat split; try reflexivity. discriminate.
Qed.

(** ** Naming strategy *)

Example sanitize_normal :
  sanitizeFilename (str "Deine Rechnung von Apple") = str "Deine Rechnung von Apple".
Proof. reflexivity. Qed.

Example sanitize_special :
  sanitizeFilename (str "Invoice #123 (2024)") = str "Invoice _123 _2024_".
Proof. reflexivity. Qed.

Example sanitize_only_special : sanitizeFilename (str "!!!") = str "_".
Proof. reflexivity. Qed.

Example sanitize_empty : sanitizeFilename [] = str "invoice".
Proof. reflexivity. Qed.

(** The class of the pattern holds the accented letters in a mis-decoded
    spelling (U+0102 U+00A4 where U+00E4 is meant, and so on), so the
    letters themselves are outside it; the test table of [main_test.go]
    expects them to be kept. *)
Example sanitize_umlauts : sanitizeFilename [228; 246; 252] = str "_".
Proof. reflexivity. Qed.

Example sanitize_slashes : sanitizeFilename (str "path/to/file") = str "path_to_file".
Proof. reflexivity. Qed.

Example fmt_0d_month : fmt_0d 2 (Month_number February) = str "02".
Proof. reflexivity. Qed.

Example fmt_0d_year : fmt_0d 4 2026 = str "2026".
Proof. reflexivity. Qed.

Example fmt_0d_small_year : fmt_0d 4 33 = str "0033".
Proof. reflexivity. Qed.

Example fmt_0d_negative : fmt_0d 4 (-5) = str "-005".
Proof. reflexivity. Qed.

Example fmt_d_index : fmt_d 12 = str "12".
Proof. reflexivity. Qed.

Lemma dropWhile_Forall (P : rune -> Prop) (f : rune -> bool) (s : gostring) :
  Forall P s -> Forall P (dropWhile f s).
Proof.
  induction 1 as [|c s Hc Hs IH]; simpl; [constructor|].
  destruct (f c); [exact IH | now constructor].
Qed.

Lemma TrimSpace_Forall (P : rune -> Prop) (s : gostring) :
  Forall P s -> Forall P (TrimSpace s).
Proof.
  intros H. unfold TrimSpace.
  apply Forall_rev, dropWhile_Forall, Forall_rev, dropWhile_Forall, H.
Qed.


(** What is left of [dropWhile] starts with a rune that fails the test. *)
Lemma dropWhile_head (f : rune -> bool) (s : gostring) :
  match dropWhile f s with
  | [] => True
  | c :: _ => f c = false
  end.
Proof.
  induction s as [|c s IH]; simpl; [exact I|].
  destruct (f c) eqn:E; [exact IH | exact E].
Qed.


Lemma replaceRuns_allowed (s : gostring) :
  forall inRun, Forall (fun r => allowed r = true) (replaceRuns inRun s).
Proof.
  induction s as [|r s IH]; intros inRun; simpl; [constructor|].
  destruct (allowed r) eqn:E; [now constructor|].
  destruct inRun; [apply IH | constructor; [reflexivity | apply IH]].
Qed.

(** Allow-listed text is left as it is. *)
Lemma replaceRuns_id (s : gostring) :
  Forall (fun r => allowed r = true) s ->
  forall inRun, replaceRuns inRun s = s.
Proof.
  induction 1 as [|r s Hr _ IH]; intros inRun; simpl; [reflexivity|].
  now rewrite Hr, IH.
Qed.











(** ** Order-identifier extraction *)

Lemma dropWhile_fix (f : rune -> bool) (s : gostring) :
  match s with [] => True | c :: _ => f c = false end ->
  dropWhile f s = s.
Proof. destruct s as [|c s]; simpl; [reflexivity | now intros ->]. Qed.

Lemma dropWhile_idem (f : rune -> bool) (s : gostring) :
  dropWhile f (dropWhile f s) = dropWhile f s.
Proof. apply dropWhile_fix, dropWhile_head. Qed.

Lemma dropWhile_split (f : rune -> bool) (s : gostring) :
  exists x, s = x ++ dropWhile f s /\ forallb f x = true.
Proof.
  induction s as [|c s (x & Hx & Hf)]; simpl.
  - now exists [].
  - destruct (f c) eqn:E.
    + exists (c :: x). simpl. rewrite E, Hf. split; [now f_equal | reflexivity].
    + now exists [].
Qed.

Lemma TrimSpace_idem (s : gostring) : TrimSpace (TrimSpace s) = TrimSpace s.
Proof.
  unfold TrimSpace.
  set (d := dropWhile IsSpace s).
  set (e := dropWhile IsSpace (rev d)).
  assert (He : dropWhile IsSpace (rev e) = rev e).
  { apply dropWhile_fix.
    destruct (dropWhile_split IsSpace (rev d)) as (x & Hx & _). fold e in Hx.
    apply (f_equal (@rev rune)) in Hx. rewrite rev_involutive, rev_app_distr in Hx.
    pose proof (dropWhile_head IsSpace s) as Hd. fold d in Hd.
    destruct (rev e) as [|c t]; [exact I|].
    rewrite Hx in Hd. exact Hd. }
  rewrite He, rev_involutive. unfold e. now rewrite dropWhile_idem.
Qed.

(** [IndexAny] finds the place where [cutAtBreak] stops. *)
Lemma IndexAny_cutAtBreak (s : gostring) :
  (IndexAny s lineBreaks = -1 /\ cutAtBreak s = s)
  \/ (0 <= IndexAny s lineBreaks
      /\ slice_to s (IndexAny s lineBreaks) = cutAtBreak s).
Proof.
  unfold slice_to. induction s as [|c s IH]; cbn [IndexAny cutAtBreak].
  - now left.
  - destruct (existsb (Z.eqb c) lineBreaks).
    + right. now split.
    + destruct IH as [[Hi Hc] | [Hi Hc]].
      * left. rewrite Hi, Hc. now split.
      * right. destruct (Z.ltb_spec (IndexAny s lineBreaks) 0); [lia|].
        split; [lia|].
        rewrite Z2Nat.inj_add by lia. rewrite Nat.add_comm. simpl.
        now rewrite Hc.
Qed.

Lemma TrimPrefix_app (prefix rest : gostring) :
  HasPrefix (prefix ++ rest) prefix = true
  /\ TrimPrefix (prefix ++ rest) prefix = rest.
Proof.
  assert (H : HasPrefix (prefix ++ rest) prefix = true)
    by (apply HasPrefix_spec; now exists rest).
  split; [exact H|]. unfold TrimPrefix. rewrite H. clear H.
  induction prefix; simpl; [reflexivity | assumption].
Qed.

(** The identifier read off a text that begins with the label. *)
Lemma orderNumberOf_label (rest : gostring) :
  orderNumberOf (orderLabel ++ rest) = TrimSpace (cutAtBreak (TrimSpace rest)).
Proof.
  unfold orderNumberOf.
  rewrite (proj2 (TrimPrefix_app orderLabel rest)).
  destruct (IndexAny_cutAtBreak (TrimSpace rest)) as [[Hi Hc] | [Hi Hc]].
  - rewrite Hi, Hc. simpl. now rewrite TrimSpace_idem.
  - destruct (Z.geb_spec (IndexAny (TrimSpace rest) lineBreaks) 0); [|lia].
    now rewrite Hc.
Qed.

Lemma orderNumberLoop_skip (pre rest : list Node) :
  noLabel pre -> orderNumberLoop (pre ++ rest) = orderNumberLoop rest.
Proof.
  induction 1 as [|e pre He _ IH]; [reflexivity|].
  cbn [app orderNumberLoop]. now rewrite He.
Qed.

Section OrderNumberProperties.

Variable NewDocument : gostring -> Document + Error.

Lemma extractOrderNumber_found (htmlContent : gostring) (doc : Document)
                               pre s post remainder :
  NewDocument htmlContent = inl doc ->
  Find_all doc = pre ++ s :: post ->
  noLabel pre ->
  TrimSpace (getNodeText s) = orderLabel ++ remainder ->
  extractOrderNumber NewDocument htmlContent
  = TrimSpace (cutAtBreak (TrimSpace remainder)).
Proof.
  intros Hdoc Hsel Hpre Htext. unfold extractOrderNumber. rewrite Hdoc.
  rewrite Hsel, orderNumberLoop_skip by assumption.
  cbn [orderNumberLoop].
  rewrite Htext, (proj1 (TrimPrefix_app orderLabel remainder)).
  apply orderNumberOf_label.
Qed.

Lemma extractOrderNumber_absent (htmlContent : gostring) (doc : Document) :
  NewDocument htmlContent = inl doc ->
  noLabel (Find_all doc) ->
  extractOrderNumber NewDocument htmlContent = [].
Proof.
  intros Hdoc Hnone. unfold extractOrderNumber. rewrite Hdoc.
  rewrite <- (app_nil_r (Find_all doc)). now rewrite orderNumberLoop_skip.
Qed.

(** C6 (amended). On a document that parses, [extractOrderNumber] takes the
    first element in document order (depth first, an element before its
    descendants) whose trimmed text begins with the label and returns the
    remainder of that text, first trimmed, then truncated at the first
    line break or tab, then trimmed again; when no element matches it
    returns the empty string. *)
Theorem extractOrderNumber_first_label (htmlContent : gostring) (doc : Document) :
  NewDocument htmlContent = inl doc ->
  (forall pre s post remainder,
     Find_all doc = pre ++ s :: post ->
     noLabel pre ->
     TrimSpace (getNodeText s) = orderLabel ++ remainder ->
     extractOrderNumber NewDocument htmlContent
     = TrimSpace (cutAtBreak (TrimSpace remainder)))
  /\ (noLabel (Find_all doc) ->
      extractOrderNumber NewDocument htmlContent = []).
Proof.
  intros Hdoc. split.
  - intros pre s post remainder.
    now apply extractOrderNumber_found.
  - now apply extractOrderNumber_absent.
Qed.

End OrderNumberProperties.

Example extractOrderNumber_scenario_D :
  extractOrderNumber Sample.asPage Sample.scenarioD = str "123456".
Proof. reflexivity. Qed.

(** C6 (counterexample). The text is the label, a line break, and "123456"
    on the next line.  The remainder truncated at its first line break is
    empty, so the identifier as worded would be empty; the code trims the
    remainder before it truncates and returns "123456".  Nor are the two
    steps in the other order what the code does: with a space before the line
    break, trimming and then truncating leaves "123456 ", and the code
    returns "123456". *)
Lemma extractOrderNumber_trims_before_cut :
  TrimSpace (getNodeText (ElementNode (str "p") [] [TextNode Sample.nextLine]))
  = orderLabel ++ [10] ++ str "123456" ++ [10] ++ str "more text"
  /\ remainderCutTrimmed ([10] ++ str "123456" ++ [10] ++ str "more text") = []
  /\ extractOrderNumber Sample.asPage Sample.nextLine = str "123456"
  /\ str "123456" <> []
  /\ TrimSpace (getNodeText (ElementNode (str "p") [] [TextNode Sample.spaced]))
     = orderLabel ++ str " 123456 " ++ [10] ++ str "more text"
  /\ remainderTrimmedCut (str " 123456 " ++ [10] ++ str "more text")
     = str "123456 "
  /\ extractOrderNumber Sample.asPage Sample.spaced = str "123456"
  /\ str "123456" <> str "123456 ".
Proof.
  repeat split; try reflexivity; discriminate.
Qed.

(** Scenario D, and a page without the label. *)
Lemma extractOrderNumber_first_label_witness :
  extractOrderNumber Sample.asPage Sample.scenarioD = str "123456"
  /\ extractOrderNumber Sample.asPage (str "Rechnung") = [].
Proof.
  destruct (extractOrderNumber_first_label Sample.asPage Sample.scenarioD
              (Sample.page Sample.scenarioD) eq_refl) as [Hfirst _].
  destruct (extractOrderNumber_first_label Sample.asPage (str "Rechnung")
              (Sample.page (str "Rechnung")) eq_refl) as [_ Hnone].
  split.
  - apply (Hfirst [] (ElementNode (str "html") []
                        [ElementNode (str "head") [] [];
                         ElementNode (str "body") []
                           [ElementNode (str "p") [] [TextNode Sample.scenarioD]]])
                  [ElementNode (str "head") [] [];
                   ElementNode (str "body") []
                     [ElementNode (str "p") [] [TextNode Sample.scenarioD]];
                   ElementNode (str "p") [] [TextNode Sample.scenarioD]]
                  (str " 123456" ++ [10] ++ str "more text"));
      [reflexivity | constructor | reflexivity].
  - apply Hnone. repeat constructor.
Defined.

(** ** Number formatting *)

Lemma decimal_value_app (s : gostring) (d : rune) :
  decimal_value (s ++ [d]) = 10 * decimal_value s + (d - 48).
Proof. unfold decimal_value. now rewrite fold_left_app. Qed.

Lemma digits_fuel_S (fuel : nat) (n : Z) :
  digits_fuel (S fuel) n
  = if n <? 10 then [48 + n]
    else digits_fuel fuel (n / 10) ++ [48 + n mod 10].
Proof. reflexivity. Qed.

Lemma digits_fuel_spec (fuel : nat) :
  forall n, 0 <= n < 10 ^ Z.of_nat (S fuel) ->
    forallb is_digit (digits_fuel (S fuel) n) = true
    /\ decimal_value (digits_fuel (S fuel) n) = n
    /\ digits_fuel (S fuel) n <> []
    /\ forall k, n < 10 ^ Z.of_nat (S k) ->
         (List.length (digits_fuel (S fuel) n) <= S k)%nat.
Proof.
  assert (Hsmall : forall f n, 0 <= n < 10 ->
            forallb is_digit (digits_fuel (S f) n) = true
            /\ decimal_value (digits_fuel (S f) n) = n
            /\ digits_fuel (S f) n <> []
            /\ forall k, n < 10 ^ Z.of_nat (S k) ->
                 (List.length (digits_fuel (S f) n) <= S k)%nat).
  { intros f n Hn. rewrite digits_fuel_S.
    destruct (Z.ltb_spec n 10); [|lia]. repeat split.
    - unfold is_digit. cbn [forallb]. rewrite andb_true_r.
      apply andb_true_iff. split; apply Z.leb_le; lia.
    - unfold decimal_value. cbn [fold_left]. lia.
    - discriminate.
    - intros k _. cbn [List.length]. lia. }
  induction fuel as [|fuel IH]; intros n Hn.
  - apply Hsmall. simpl in Hn. lia.
  - destruct (Z.ltb_spec n 10) as [Hlt|Hge]; [apply Hsmall; lia|].
    rewrite digits_fuel_S. destruct (Z.ltb_spec n 10); [lia|].
    assert (Hq : 0 <= n / 10 < 10 ^ Z.of_nat (S fuel)).
    { split; [apply Z.div_pos; lia|].
      apply Z.div_lt_upper_bound; [lia|].
      replace (10 * 10 ^ Z.of_nat (S fuel)) with (10 ^ Z.of_nat (S (S fuel))); [lia|].
      rewrite (Nat2Z.inj_succ (S fuel)), Z.pow_succ_r by lia. reflexivity. }
    destruct (IH (n / 10) Hq) as (Hd & Hv & Hne & Hlen).
    pose proof (Z.mod_pos_bound n 10 ltac:(lia)) as Hm.
    repeat split.
    + rewrite forallb_app, Hd. unfold is_digit. cbn [forallb andb].
      rewrite andb_true_r.
      apply andb_true_iff. split; apply Z.leb_le; lia.
    + rewrite decimal_value_app, Hv.
      pose proof (Z.div_mod n 10 ltac:(lia)). lia.
    + intros H'. apply app_eq_nil in H' as [_ H']. discriminate.
    + intros k Hk. rewrite length_app. cbn [List.length].
      destruct k as [|k].
      { change (10 ^ Z.of_nat 1) with 10 in Hk. lia. }
      assert (Hq' : n / 10 < 10 ^ Z.of_nat (S k)).
      { apply Z.div_lt_upper_bound; [lia|].
        replace (10 * 10 ^ Z.of_nat (S k)) with (10 ^ Z.of_nat (S (S k))); [lia|].
        rewrite (Nat2Z.inj_succ (S k)), Z.pow_succ_r by lia. reflexivity. }
      specialize (Hlen k Hq'). lia.
Qed.

Lemma digits_spec (n : Z) :
  0 <= n ->
  forallb is_digit (digits n) = true
  /\ decimal_value (digits n) = n
  /\ digits n <> []
  /\ forall k, n < 10 ^ Z.of_nat (S k) -> (List.length (digits n) <= S k)%nat.
Proof.
  intros Hn. unfold digits. apply digits_fuel_spec. split; [lia|].
  destruct (Z.eq_dec n 0) as [->|Hne]; [simpl; lia|].
  pose proof (Z.log2_spec n ltac:(lia)) as [_ Hlog].
  pose proof (Z.log2_nonneg n) as Hnn.
  rewrite Nat2Z.inj_succ, Z2Nat.id by lia.
  eapply Z.lt_le_trans; [exact Hlog|].
  apply Z.pow_le_mono_l. lia.
Qed.


Lemma forallb_repeat_zero (k : nat) : forallb is_digit (repeat 48 k) = true.
Proof. induction k; simpl; [reflexivity | assumption]. Qed.



(** ** Naming strategy: the conversion loop *)

Section NamingProperties.

Variable httpGet : gostring -> (gostring * list Z) + Error.
Variable EncodeToString : list Z -> gostring.
Variable NewDocument : gostring -> Document + Error.
Variable Html : Document -> gostring + Error.
Variable convertHTMLToPDF : gostring -> list Z + Error.

Lemma convertLoop_In (total : Z) (invoices : list InvoiceEmail.t) :
  forall i attachments att,
    In att (convertLoop httpGet EncodeToString NewDocument Html
                        convertHTMLToPDF total i invoices attachments)
    <-> In att attachments
        \/ exists k inv pdf,
             nth_error invoices k = Some inv
             /\ converted httpGet EncodeToString NewDocument Html
                          convertHTMLToPDF inv pdf
             /\ att = PDFAttachment.mk
                        (attachmentFilename total (i + Z.of_nat k) inv
                           (extractOrderNumber NewDocument
                              (InvoiceEmail.HTMLBody inv)))
                        pdf.
Proof.
  induction invoices as [|inv rest IH]; intros i attachments att.
  - simpl. split; [now left|].
    intros [H | (k & inv & pdf & Hk & _)]; [exact H|]. now destruct k.
  - cbn [convertLoop].
    destruct (cleanHTML _ _ _ _ _) as [cleaned|err] eqn:EC.
    + destruct (convertHTMLToPDF cleaned) as [pdf|err] eqn:EP.
      * rewrite IH, in_app_iff. split.
        -- intros [[H | [<- | []]] | (k & inv' & pdf' & Hk & Hc & ->)].
           ++ now left.
           ++ right. exists 0%nat, inv, pdf. rewrite Z.add_0_r.
              split; [reflexivity|]. split; [|reflexivity].
              now exists cleaned.
           ++ right. exists (S k), inv', pdf'.
              split; [exact Hk|]. split; [exact Hc|].
              do 2 f_equal. lia.
        -- intros [H | (k & inv' & pdf' & Hk & Hc & ->)]; [now left; left|].
           destruct k as [|k].
           ++ injection Hk as <-. left. right. left.
              destruct Hc as (cleaned' & Hc1 & Hc2).
              rewrite EC in Hc1. injection Hc1 as <-.
              rewrite EP in Hc2. injection Hc2 as <-.
              now rewrite Z.add_0_r.
           ++ right. exists k, inv', pdf'.
              split; [exact Hk|]. split; [exact Hc|].
              do 2 f_equal. lia.
      * rewrite IH. split.
        -- intros [H | (k & inv' & pdf' & Hk & Hc & ->)]; [now left|].
           right. exists (S k), inv', pdf'.
           split; [exact Hk|]. split; [exact Hc|]. do 2 f_equal. lia.
        -- intros [H | (k & inv' & pdf' & Hk & Hc & ->)]; [now left|].
           destruct k as [|k].
           ++ injection Hk as <-. destruct Hc as (cleaned' & Hc1 & Hc2).
              rewrite EC in Hc1. injection Hc1 as <-. congruence.
           ++ right. exists k, inv', pdf'.
              split; [exact Hk|]. split; [exact Hc|]. do 2 f_equal. lia.
    + rewrite IH. split.
      * intros [H | (k & inv' & pdf' & Hk & Hc & ->)]; [now left|].
        right. exists (S k), inv', pdf'.
        split; [exact Hk|]. split; [exact Hc|]. do 2 f_equal. lia.
      * intros [H | (k & inv' & pdf' & Hk & Hc & ->)]; [now left|].
        destruct k as [|k].
        -- injection Hk as <-. destruct Hc as (cleaned' & Hc1 & _). congruence.
        -- right. exists k, inv', pdf'.
           split; [exact Hk|]. split; [exact Hc|]. do 2 f_equal. lia.
Qed.



End NamingProperties.



Example convertInvoices_names :
  map PDFAttachment.Filename
      (convertInvoices Sample.offline Sample.noBase64 Sample.asPage
         Sample.textOnly Sample.printer [Sample.withOrder; Sample.withoutOrder])
  = [str "02_2026_Rechnung_Apple_123456.pdf"; str "Invoice _123 _2024__2.pdf"].
Proof. reflexivity. Qed.

(** ** Order-identifier extraction never fails *)

(** C10. [extractOrderNumber] returns a string for every input: the empty
    string when the input cannot be parsed, where [cleanHTML] returns the
    wrapped parse error, and the empty string when no element carries the
    label. *)
Theorem extractOrderNumber_total
    (httpGet : gostring -> (gostring * list Z) + Error)
    (EncodeToString : list Z -> gostring)
    (NewDocument : gostring -> Document + Error)
    (Html : Document -> gostring + Error)
    (htmlContent : gostring) :
  (exists orderNum : gostring,
     extractOrderNumber NewDocument htmlContent = orderNum)
  /\ (forall err, NewDocument htmlContent = inr err ->
        extractOrderNumber NewDocument htmlContent = []
        /\ cleanHTML httpGet EncodeToString NewDocument Html htmlContent
           = inr (Wrap "parsing HTML" err))
  /\ (forall doc, NewDocument htmlContent = inl doc ->
        noLabel (Find_all doc) ->
        extractOrderNumber NewDocument htmlContent = []).
Proof.
  split; [eexists; reflexivity|]. split.
  - intros err H. unfold extractOrderNumber, cleanHTML. now rewrite H.
  - intros doc H Hnone.
    now apply (extractOrderNumber_absent NewDocument htmlContent doc).
Qed.

(** An input the parser rejects. *)
Lemma extractOrderNumber_total_witness :
  extractOrderNumber Sample.rejecting (str "<<<") = []
  /\ cleanHTML Sample.offline Sample.noBase64 Sample.rejecting Sample.textOnly
               (str "<<<")
     = inr (Wrap "parsing HTML" (LibError 3)).
Proof.
  destruct (extractOrderNumber_total Sample.offline Sample.noBase64
              Sample.rejecting Sample.textOnly (str "<<<")) as (_ & H & _).
  apply H. reflexivity.
Defined.

(** ** HTML transformer *)

Example cleanDocument_invoicePage :
  cleanDocument Sample.offline Sample.noBase64 Sample.invoicePage
  = [Sample.elem "html" []
       [Sample.elem "head" [] [];
        Sample.elem "body" []
          [Sample.elem "img" [Sample.attr "src" "http://example.com/logo.png"] [];
           Sample.elem "div" [Sample.attr "id" "footer_section"] [];
           Sample.elem "div" [Sample.attr "class" "footer-copy"]
             [Sample.elem "p" [Sample.attr "style" "font-weight:600"]
                [TextNode (str "UID-Nr: ATU12345")];
              Sample.paragraph "Copyright"]]]].
Proof. reflexivity. Qed.

(** The footer emphasis looks at the text before the link bar is removed:
    a paragraph whose text reads "UID-Nr" only without the link bar inside it
    is left plain by the first application and made bold by the second. *)
Example cleanDocument_emphasis_second_pass :
  let split :=
    [Sample.elem "div" [Sample.attr "class" "footer-copy"]
       [Sample.elem "p" []
          [TextNode (str "UID-");
           Sample.elem "span" [Sample.attr "class" "inline-link-group"]
             [TextNode (str "x")];
           TextNode (str "Nr")]]] in
  cleanDocument Sample.offline Sample.noBase64 split
  = [Sample.elem "div" [Sample.attr "class" "footer-copy"]
       [Sample.elem "p" [] [TextNode (str "UID-"); TextNode (str "Nr")]]]
  /\ cleanDocument Sample.offline Sample.noBase64
       (cleanDocument Sample.offline Sample.noBase64 split)
     = [Sample.elem "div" [Sample.attr "class" "footer-copy"]
          [Sample.elem "p" [Sample.attr "style" "font-weight:600"]
             [TextNode (str "UID-"); TextNode (str "Nr")]]].
Proof. split; reflexivity. Qed.

Example cleanDocument_footer_twice :
  cleanDocument Sample.offline Sample.noBase64
    (Sample.footerPage [Sample.paragraph "A"; Sample.paragraph "B"])
  = Sample.footerPage [Sample.paragraph "B"]
  /\ cleanDocument Sample.offline Sample.noBase64
       (Sample.footerPage [Sample.paragraph "B"])
     = Sample.footerPage [].
Proof. split; reflexivity. Qed.

Lemma Node_induction (P : Node -> Prop) :
  (forall data attrs cs, Forall P cs -> P (ElementNode data attrs cs)) ->
  (forall data, P (TextNode data)) ->
  (forall data, P (CommentNode data)) ->
  (forall data, P (DoctypeNode data)) ->
  forall n, P n.
Proof.
  intros HE HT HC HD.
  fix IH 1. intros [data attrs cs|data|data|data]; [|apply HT|apply HC|apply HD].
  apply HE. induction cs as [|c cs IHcs]; constructor; [apply IH | exact IHcs].
Qed.

Lemma alike_refl (n : Node) : alike n n.
Proof. destruct n; simpl; auto. Qed.

Lemma alike_parent_refl (p : option Node) : alike_parent p p.
Proof. destruct p; simpl; [apply alike_refl | exact I]. Qed.

Lemma alike_removeBelow (sel : Selector) (n : Node) :
  alike n (removeBelow sel n).
Proof. destruct n; simpl; auto. Qed.

Lemma alike_boldUID (inside : bool) (n : Node) : alike n (boldUID inside n).
Proof.
  destruct n; simpl; auto. split; [reflexivity|].
  destruct (_ && _); [right; eexists; left; reflexivity | now left].
Qed.

Lemma steady_unselected (sel : Selector) : steady sel -> steady (unselected sel).
Proof.
  intros H p p' c c' Hp Hc. unfold unselected. f_equal. now apply H.
Qed.

Lemma holdsAmong_cons (q : Selector) (below : Node -> bool) p c cs :
  holdsAmong q below p (c :: cs)
  = q p c && below c && holdsAmong q below p cs.
Proof. reflexivity. Qed.

Lemma removeAmong_cons (sel : Selector) (below : Node -> Node) p c cs :
  removeAmong sel below p (c :: cs)
  = (if sel p c then [] else [below c]) ++ removeAmong sel below p cs.
Proof. reflexivity. Qed.

Section Removal.

Variable sel : Selector.

(** After [Find(sel).Remove()] nothing matches [sel]. *)
Lemma removeAmong_unselected p p' (cs : list Node) :
  steady sel -> alike_parent p p' ->
  Forall (fun c => holdsBelow (unselected sel) (removeBelow sel c) = true) cs ->
  holdsAmong (unselected sel) (holdsBelow (unselected sel)) p'
             (removeAmong sel (removeBelow sel) p cs) = true.
Proof.
  intros Hsel Hp. induction 1 as [|c cs Hc _ IH]; [reflexivity|].
  rewrite removeAmong_cons. destruct (sel p c) eqn:E; [exact IH|].
  cbn [app]. rewrite holdsAmong_cons, Hc, IH. unfold unselected.
  rewrite <- (Hsel p p' c (removeBelow sel c) Hp (alike_removeBelow sel c)), E.
  reflexivity.
Qed.

Lemma removeBelow_unselected (n : Node) :
  steady sel -> holdsBelow (unselected sel) (removeBelow sel n) = true.
Proof.
  intros Hsel. induction n as [data attrs cs IH| | |] using Node_induction;
    try reflexivity.
  cbn [removeBelow holdsBelow].
  apply removeAmong_unselected; [exact Hsel | simpl; auto | exact IH].
Qed.

Lemma Remove_unselected (doc : Document) :
  steady sel -> holds (unselected sel) (Remove sel doc) = true.
Proof.
  intros Hsel. apply removeAmong_unselected; [exact Hsel | exact I|].
  apply Forall_forall. intros c _. now apply removeBelow_unselected.
Qed.

(** Where nothing matches [sel], [Find(sel).Remove()] changes nothing. *)
Lemma removeAmong_fixed p (cs : list Node) :
  Forall (fun c => holdsBelow (unselected sel) c = true ->
                   removeBelow sel c = c) cs ->
  holdsAmong (unselected sel) (holdsBelow (unselected sel)) p cs = true ->
  removeAmong sel (removeBelow sel) p cs = cs.
Proof.
  induction 1 as [|c cs Hc _ IH]; [reflexivity|].
  rewrite holdsAmong_cons, !andb_true_iff. intros [[Hq Hb] Hrest].
  rewrite removeAmong_cons. unfold unselected in Hq.
  apply negb_true_iff in Hq. rewrite Hq, (Hc Hb), (IH Hrest). reflexivity.
Qed.

Lemma removeBelow_fixed (n : Node) :
  holdsBelow (unselected sel) n = true -> removeBelow sel n = n.
Proof.
  induction n as [data attrs cs IH| | |] using Node_induction;
    try reflexivity.
  cbn [removeBelow holdsBelow]. intros H. f_equal.
  now apply removeAmong_fixed.
Qed.

Lemma Remove_fixed (doc : Document) :
  holds (unselected sel) doc = true -> Remove sel doc = doc.
Proof.
  apply removeAmong_fixed, Forall_forall. intros c _.
  apply removeBelow_fixed.
Qed.

(** A steady property of all nodes survives [Find(sel).Remove()]. *)
Lemma removeAmong_holds (q : Selector) p p' p'' (cs : list Node) :
  steady q -> alike_parent p p' ->
  Forall (fun c => holdsBelow q c = true ->
                   holdsBelow q (removeBelow sel c) = true) cs ->
  holdsAmong q (holdsBelow q) p cs = true ->
  holdsAmong q (holdsBelow q) p' (removeAmong sel (removeBelow sel) p'' cs)
  = true.
Proof.
  intros Hq Hp. induction 1 as [|c cs Hc _ IH]; [reflexivity|].
  rewrite holdsAmong_cons, !andb_true_iff. intros [[Hqc Hb] Hrest].
  rewrite removeAmong_cons. destruct (sel p'' c); [now apply IH|].
  cbn [app]. rewrite holdsAmong_cons, (Hc Hb), (IH Hrest).
  rewrite <- (Hq p p' c (removeBelow sel c) Hp (alike_removeBelow sel c)), Hqc.
  reflexivity.
Qed.

Lemma removeBelow_holds (q : Selector) (n : Node) :
  steady q -> holdsBelow q n = true ->
  holdsBelow q (removeBelow sel n) = true.
Proof.
  intros Hq. induction n as [data attrs cs IH| | |] using Node_induction;
    try reflexivity.
  cbn [removeBelow holdsBelow].
  apply removeAmong_holds; [exact Hq | simpl; auto | exact IH].
Qed.

Lemma Remove_holds (q : Selector) (doc : Document) :
  steady q -> holds q doc = true -> holds q (Remove sel doc) = true.
Proof.
  intros Hq. apply removeAmong_holds; [exact Hq | exact I|].
  apply Forall_forall. intros c _. now apply removeBelow_holds.
Qed.

(** A steady property survives [Find(sel).First().Remove()] too. *)
Lemma removeFirstAmong_holds (q : Selector) p p' p'' (cs : list Node) :
  steady q -> alike_parent p p' ->
  Forall (fun c => holdsBelow q c = true ->
                   forall c', removeFirstBelow sel c = Some c' ->
                              holdsBelow q c' = true /\ alike c c') cs ->
  holdsAmong q (holdsBelow q) p cs = true ->
  forall cs',
    removeFirstAmong sel (removeFirstBelow sel) p'' cs = Some cs' ->
    holdsAmong q (holdsBelow q) p' cs' = true.
Proof.
  intros Hq Hp. induction 1 as [|c cs Hc _ IH]; [discriminate|].
  rewrite holdsAmong_cons, !andb_true_iff. intros [[Hqc Hb] Hrest] cs'.
  assert (Hkeep : holdsAmong q (holdsBelow q) p' cs = true).
  { clear - Hq Hp Hrest. induction cs as [|x cs IH]; [reflexivity|].
    rewrite holdsAmong_cons, !andb_true_iff in Hrest |- *.
    destruct Hrest as [[Hx Hbx] Hr]. repeat split; auto.
    now rewrite <- (Hq p p' x x Hp (alike_refl x)). }
  cbn [removeFirstAmong]. destruct (sel p'' c).
  - now intros [= <-].
  - destruct (removeFirstBelow sel c) as [c'|] eqn:E.
    + intros [= <-]. destruct (Hc Hb c' eq_refl) as [Hb' Hal].
      rewrite holdsAmong_cons, Hb', Hkeep.
      now rewrite <- (Hq p p' c c' Hp Hal), Hqc.
    + destruct (removeFirstAmong sel (removeFirstBelow sel) p'' cs)
        as [cs''|] eqn:E'; [|discriminate].
      intros [= <-]. rewrite holdsAmong_cons, Hb, (IH Hrest cs'' eq_refl).
      now rewrite <- (Hq p p' c c Hp (alike_refl c)), Hqc.
Qed.

Lemma removeFirstBelow_holds (q : Selector) (n : Node) :
  steady q -> holdsBelow q n = true ->
  forall n', removeFirstBelow sel n = Some n' ->
             holdsBelow q n' = true /\ alike n n'.
Proof.
  intros Hq. induction n as [data attrs cs IH| | |] using Node_induction;
    try discriminate.
  cbn [removeFirstBelow holdsBelow]. intros H n'.
  destruct (removeFirstAmong sel (removeFirstBelow sel) _ cs) as [cs'|] eqn:E;
    [|discriminate].
  intros [= <-]. split; [|simpl; auto]. cbn [holdsBelow].
  eapply removeFirstAmong_holds; [exact Hq | | exact IH | exact H | exact E].
  simpl; auto.
Qed.

Lemma RemoveFirst_holds (q : Selector) (doc : Document) :
  steady q -> holds q doc = true -> holds q (RemoveFirst sel doc) = true.
Proof.
  intros Hq H. unfold RemoveFirst.
  destruct (removeFirstAmong sel (removeFirstBelow sel) None doc)
    as [doc'|] eqn:E; [|exact H].
  eapply (removeFirstAmong_holds q None None None);
    [exact Hq | exact I | | exact H | exact E].
  apply Forall_forall. intros c _. now apply removeFirstBelow_holds.
Qed.

(** Without a match [Find(sel).First().Remove()] changes nothing. *)
Lemma removeFirstAmong_none p (cs : list Node) :
  Forall (fun c => holdsBelow (unselected sel) c = true ->
                   removeFirstBelow sel c = None) cs ->
  holdsAmong (unselected sel) (holdsBelow (unselected sel)) p cs = true ->
  removeFirstAmong sel (removeFirstBelow sel) p cs = None.
Proof.
  induction 1 as [|c cs Hc _ IH]; [reflexivity|].
  rewrite holdsAmong_cons, !andb_true_iff. intros [[Hq Hb] Hrest].
  unfold unselected in Hq. apply negb_true_iff in Hq.
  cbn [removeFirstAmong]. now rewrite Hq, (Hc Hb), (IH Hrest).
Qed.

Lemma removeFirstBelow_none (n : Node) :
  holdsBelow (unselected sel) n = true -> removeFirstBelow sel n = None.
Proof.
  induction n as [data attrs cs IH| | |] using Node_induction;
    try reflexivity.
  cbn [removeFirstBelow holdsBelow]. intros H.
  now rewrite (removeFirstAmong_none _ cs IH H).
Qed.

Lemma RemoveFirst_fixed (doc : Document) :
  holds (unselected sel) doc = true -> RemoveFirst sel doc = doc.
Proof.
  intros H. unfold RemoveFirst. rewrite removeFirstAmong_none; auto.
  apply Forall_forall. intros c _. apply removeFirstBelow_none.
Qed.

End Removal.

(** *** Attributes *)

Lemma eqb_refl (a : gostring) : GoString.eqb a a = true.
Proof. now apply eqb_eq. Qed.

Lemma eqb_neq (a b : gostring) : a <> b -> GoString.eqb a b = false.
Proof.
  intros H. destruct (GoString.eqb a b) eqn:E; [|reflexivity].
  apply eqb_eq in E. contradiction.
Qed.

Lemma getAttributeValue_setFirst_same (k v : gostring) (attrs attrs' : list Attribute) :
  setFirst k v attrs = Some attrs' -> getAttributeValue k attrs' = Some v.
Proof.
  revert attrs'. induction attrs as [|a attrs IH]; intros attrs'; simpl;
    [discriminate|].
  destruct (GoString.eqb (Key a) k) eqn:E.
  - intros [= <-]. simpl. now rewrite E.
  - destruct (setFirst k v attrs) as [r|]; [|discriminate].
    intros [= <-]. simpl. rewrite E. now apply IH.
Qed.

Lemma setFirst_None (k v : gostring) (attrs : list Attribute) :
  setFirst k v attrs = None -> getAttributeValue k attrs = None.
Proof.
  induction attrs as [|a attrs IH]; simpl; [reflexivity|].
  destruct (GoString.eqb (Key a) k); [discriminate|].
  destruct (setFirst k v attrs); [discriminate | auto].
Qed.

Lemma getAttributeValue_app_None (k : gostring) (attrs more : list Attribute) :
  getAttributeValue k attrs = None ->
  getAttributeValue k (attrs ++ more) = getAttributeValue k more.
Proof.
  induction attrs as [|a attrs IH]; simpl; [reflexivity|].
  destruct (GoString.eqb (Key a) k); [discriminate | exact IH].
Qed.

Lemma getAttributeValue_SetAttr_same (k v : gostring) (attrs : list Attribute) :
  getAttributeValue k (SetAttr k v attrs) = Some v.
Proof.
  unfold SetAttr. destruct (setFirst k v attrs) as [attrs'|] eqn:E.
  - now apply getAttributeValue_setFirst_same with attrs.
  - rewrite getAttributeValue_app_None by now apply setFirst_None with v.
    simpl. now rewrite eqb_refl.
Qed.

(** Setting one attribute leaves the test of any other key as it was. *)
Lemma existsb_SetAttr_other (key k v : gostring) (f : gostring -> bool)
                            (attrs : list Attribute) :
  key <> k ->
  existsb (fun a => GoString.eqb (Key a) key && f (Val a)) (SetAttr k v attrs)
  = existsb (fun a => GoString.eqb (Key a) key && f (Val a)) attrs.
Proof.
  intros Hne. unfold SetAttr.
  destruct (setFirst k v attrs) as [attrs'|] eqn:E.
  - revert attrs' E. induction attrs as [|a attrs IH]; intros attrs';
      simpl; [discriminate|].
    destruct (GoString.eqb (Key a) k) eqn:Ek.
    + intros [= <-]. simpl. apply eqb_eq in Ek.
      rewrite eqb_neq by congruence. reflexivity.
    + destruct (setFirst k v attrs) as [r|]; [|discriminate].
      intros [= <-]. simpl. now rewrite (IH r eq_refl).
  - rewrite existsb_app. simpl. rewrite eqb_neq by congruence.
    simpl. now rewrite !orb_false_r.
Qed.

Lemma getAttributeValue_SetAttr_other (key k v : gostring)
                                      (attrs : list Attribute) :
  key <> k ->
  getAttributeValue key (SetAttr k v attrs) = getAttributeValue key attrs.
Proof.
  intros Hne. unfold SetAttr.
  destruct (setFirst k v attrs) as [attrs'|] eqn:E.
  - revert attrs' E. induction attrs as [|a attrs IH]; intros attrs';
      simpl; [discriminate|].
    destruct (GoString.eqb (Key a) k) eqn:Ek.
    + intros [= <-]. simpl. apply eqb_eq in Ek.
      rewrite eqb_neq by congruence. reflexivity.
    + destruct (setFirst k v attrs) as [r|]; [|discriminate].
      intros [= <-]. simpl. now rewrite (IH r eq_refl).
  - clear E. induction attrs as [|a attrs IH]; simpl.
    + rewrite eqb_neq by congruence. reflexivity.
    + destruct (GoString.eqb (Key a) key); [reflexivity | exact IH].
Qed.

Lemma matchAttribute_alike (key : gostring) (f : gostring -> bool) (n n' : Node) :
  key <> str "style" -> alike n n' ->
  matchAttribute n key f = matchAttribute n' key f.
Proof.
  intros Hne. destruct n, n'; simpl; try tauto.
  intros [_ [-> | [v [-> | ->]]]]; [reflexivity | |].
  - symmetry. now apply existsb_SetAttr_other.
  - now apply existsb_SetAttr_other.
Qed.

Lemma hasTag_alike (tag : gostring) (n n' : Node) :
  alike n n' -> hasTag tag n = hasTag tag n'.
Proof.
  destruct n, n'; simpl; try tauto. now intros [-> _].
Qed.

Lemma steady_byClass (class : gostring) : steady (byClass class).
Proof.
  intros p p' c c' _ Hc. unfold byClass, hasClass.
  apply matchAttribute_alike; [discriminate | exact Hc].
Qed.

Lemma steady_childOf_class (id class : gostring) :
  steady (childOf id (hasClass class)).
Proof.
  intros [p|] [p'|] c c' Hp Hc; simpl in Hp |- *; try tauto.
  unfold hasId, hasClass. f_equal; apply matchAttribute_alike;
    try discriminate; assumption.
Qed.

Lemma steady_childOf_tag (id tag : gostring) :
  steady (childOf id (hasTag tag)).
Proof.
  intros [p|] [p'|] c c' Hp Hc; simpl in Hp |- *; try tauto.
  unfold hasId. f_equal.
  - apply matchAttribute_alike; [discriminate | assumption].
  - now apply hasTag_alike.
Qed.

(** *** Footer emphasis *)

Lemma boldUID_holds (q : Selector) (n : Node) :
  steady q ->
  forall inside, holdsBelow q n = true -> holdsBelow q (boldUID inside n) = true.
Proof.
  intros Hq. induction n as [data attrs cs IH| | |] using Node_induction;
    try reflexivity.
  intros inside. cbn [boldUID holdsBelow].
  set (n := ElementNode data attrs cs).
  set (n' := ElementNode data _ _).
  assert (Hal : alike n n') by apply (alike_boldUID inside n).
  set (inside' := inside || hasClass (str "footer-copy") n).
  clearbody n n' inside'. 
  induction IH as [|c cs Hc _ IHcs]; [reflexivity|].
  rewrite holdsAmong_cons, !andb_true_iff. intros [[Hqc Hb] Hrest].
  cbn [map]. rewrite holdsAmong_cons, (Hc inside' Hb), (IHcs Hrest).
  now rewrite <- (Hq (Some n) (Some n') c (boldUID inside' c) Hal
                     (alike_boldUID inside' c)), Hqc.
Qed.

Lemma map_boldUID_holds (q : Selector) (doc : Document) :
  steady q -> holds q doc = true -> holds q (map (boldUID false) doc) = true.
Proof.
  intros Hq. unfold holds. induction doc as [|c doc IH]; [reflexivity|].
  rewrite holdsAmong_cons, !andb_true_iff. intros [[Hqc Hb] Hrest].
  cbn [map]. rewrite holdsAmong_cons, (boldUID_holds q c Hq false Hb), (IH Hrest).
  now rewrite <- (Hq None None c (boldUID false c) I (alike_boldUID false c)), Hqc.
Qed.

(** *** Image inlining *)

Section ImageProperties.

Variable httpGet : gostring -> (gostring * list Z) + Error.
Variable EncodeToString : list Z -> gostring.

(** A data URI never begins with "http". *)
Lemma embedImage_data (imgURL dataURI : gostring) :
  embedImage httpGet EncodeToString imgURL = inl dataURI ->
  HasPrefix dataURI (str "http") = false.
Proof.
  unfold embedImage. destruct (httpGet imgURL) as [[contentType data]|err];
    [|discriminate].
  now intros [= <-].
Qed.

Lemma steady_settledImage : steady (settledImage httpGet EncodeToString).
Proof.
  intros p p' c c' _ Hc. unfold settledImage.
  rewrite (hasTag_alike (str "img") c c' Hc).
  destruct c, c'; simpl in Hc; try tauto.
  destruct Hc as [_ [-> | [v [-> | ->]]]]; [reflexivity | |];
    now rewrite getAttributeValue_SetAttr_other by discriminate.
Qed.

(** What the callback has visited is settled. *)
Lemma embedSrc_settled (attrs : list Attribute) :
  match getAttributeValue (str "src") (embedSrc httpGet EncodeToString attrs) with
  | Some src =>
      negb (HasPrefix src (str "http"))
      || match embedImage httpGet EncodeToString src with
         | inl _ => false
         | inr _ => true
         end
  | None => true
  end = true.
Proof.
  unfold embedSrc.
  destruct (getAttributeValue (str "src") attrs) as [src|] eqn:E;
    [|now rewrite E].
  destruct (HasPrefix src (str "http")) eqn:EP.
  - destruct (embedImage httpGet EncodeToString src) as [dataURI|err] eqn:EI.
    + rewrite getAttributeValue_SetAttr_same.
      now rewrite (embedImage_data src dataURI EI).
    + now rewrite E, EP, EI.
  - now rewrite E, EP.
Qed.

Lemma embedImages_settled (n : Node) :
  forall p, settledImage httpGet EncodeToString p
              (embedImages httpGet EncodeToString n) = true
            /\ holdsBelow (settledImage httpGet EncodeToString)
                 (embedImages httpGet EncodeToString n) = true.
Proof.
  induction n as [data attrs cs IH| | |] using Node_induction;
    try (intros; split; reflexivity).
  intros p. split.
  - cbn [embedImages settledImage]. unfold hasTag.
    destruct (GoString.eqb data (str "img")); [|reflexivity].
    cbn [negb orb]. apply embedSrc_settled.
  - cbn [embedImages holdsBelow].
    set (n' := ElementNode data _ _). clearbody n'.
    induction IH as [|c cs Hc _ IHcs]; [reflexivity|].
    cbn [map]. rewrite holdsAmong_cons, IHcs.
    destruct (Hc (Some n')) as [-> ->]. reflexivity.
Qed.

Lemma map_embedImages_settled (doc : Document) :
  holds (settledImage httpGet EncodeToString)
        (map (embedImages httpGet EncodeToString) doc) = true.
Proof.
  unfold holds. induction doc as [|c doc IH]; [reflexivity|].
  cbn [map]. rewrite holdsAmong_cons, IH.
  destruct (embedImages_settled c None) as [-> ->]. reflexivity.
Qed.

(** On settled images the callback changes nothing. *)
Lemma embedImages_fixed (n : Node) :
  forall p, settledImage httpGet EncodeToString p n = true ->
            holdsBelow (settledImage httpGet EncodeToString) n = true ->
            embedImages httpGet EncodeToString n = n.
Proof.
  induction n as [data attrs cs IH| | |] using Node_induction;
    try reflexivity.
  intros p Hn Hb. cbn [embedImages]. f_equal.
  - cbn [settledImage] in Hn. unfold hasTag in Hn |- *.
    destruct (GoString.eqb data (str "img")); [|reflexivity].
    cbn [negb orb] in Hn. unfold embedSrc.
    destruct (getAttributeValue (str "src") attrs) as [src|]; [|reflexivity].
    destruct (HasPrefix src (str "http")); [|reflexivity].
    cbn [negb orb] in Hn.
    destruct (embedImage httpGet EncodeToString src); [discriminate | reflexivity].
  - cbn [holdsBelow] in Hb. clear Hn.
    set (n := ElementNode data attrs cs) in Hb. clearbody n.
    induction IH as [|c cs Hc _ IHcs]; [reflexivity|].
    rewrite holdsAmong_cons, !andb_true_iff in Hb.
    destruct Hb as [[Hqc Hbc] Hrest].
    cbn [map]. now rewrite (Hc (Some n) Hqc Hbc), (IHcs Hrest).
Qed.

Lemma map_embedImages_fixed (doc : Document) :
  holds (settledImage httpGet EncodeToString) doc = true ->
  map (embedImages httpGet EncodeToString) doc = doc.
Proof.
  unfold holds. induction doc as [|c doc IH]; [reflexivity|].
  rewrite holdsAmong_cons, !andb_true_iff. intros [[Hqc Hbc] Hrest].
  cbn [map]. now rewrite (embedImages_fixed c None Hqc Hbc), (IH Hrest).
Qed.

(** The transformer asks [httpGet] for addresses that begin with "http"
    only. *)
Lemma embedImages_ext (httpGet' : gostring -> (gostring * list Z) + Error)
                      (n : Node) :
  (forall url, HasPrefix url (str "http") = true ->
               httpGet' url = httpGet url) ->
  embedImages httpGet' EncodeToString n = embedImages httpGet EncodeToString n.
Proof.
  intros Hext. induction n as [data attrs cs IH| | |] using Node_induction;
    try reflexivity.
  cbn [embedImages]. f_equal.
  - destruct (hasTag _ _); [|reflexivity]. unfold embedSrc.
    destruct (getAttributeValue (str "src") attrs) as [src|]; [|reflexivity].
    destruct (HasPrefix src (str "http")) eqn:EP; [|reflexivity].
    unfold embedImage. now rewrite (Hext src EP).
  - induction IH as [|c cs Hc _ IHcs]; [reflexivity|].
    cbn [map]. now rewrite Hc, IHcs.
Qed.

End ImageProperties.

(** *** The whole transform *)

(** *** Adjacent text nodes *)

Lemma alike_mergeNode (n : Node) : alike n (mergeNode n).
Proof. destruct n; simpl; auto. Qed.

(** A test that every text node passes does not see the merging. *)
Lemma mergeAdjacent_forallb (f : Node -> bool) (l : list Node) :
  (forall t, f (TextNode t) = true) ->
  forallb f (mergeAdjacent l) = forallb f l.
Proof.
  intros Htext. induction l as [|c rest IH]; [reflexivity|].
  cbn [mergeAdjacent forallb].
  destruct c as [d a cs|t|t|t]; try (cbn [forallb]; now rewrite IH).
  rewrite Htext. cbn [andb]. rewrite <- IH.
  destruct (mergeAdjacent rest) as [|[d a cs|b|b|b] rest'];
    cbn [forallb]; rewrite ?Htext; reflexivity.
Qed.

Lemma holdsAmong_mergeText (q : Selector) p p' (cs : list Node) :
  steady q -> (forall o t, q o (TextNode t) = true) ->
  alike_parent p p' ->
  Forall (fun c => holdsBelow q (mergeNode c) = holdsBelow q c) cs ->
  holdsAmong q (holdsBelow q) p' (mergeAdjacent (map mergeNode cs))
  = holdsAmong q (holdsBelow q) p cs.
Proof.
  intros Hq Htext Hp Hcs. unfold holdsAmong.
  rewrite mergeAdjacent_forallb by (intros t; now rewrite Htext).
  induction Hcs as [|c cs Hc _ IH]; [reflexivity|].
  cbn [map forallb]. rewrite Hc, IH.
  now rewrite <- (Hq p p' c (mergeNode c) Hp (alike_mergeNode c)).
Qed.

Lemma holdsBelow_mergeNode (q : Selector) (n : Node) :
  steady q -> (forall o t, q o (TextNode t) = true) ->
  holdsBelow q (mergeNode n) = holdsBelow q n.
Proof.
  intros Hq Htext.
  induction n as [data attrs cs IH| | |] using Node_induction;
    try reflexivity.
  cbn [mergeNode holdsBelow].
  apply holdsAmong_mergeText; [exact Hq | exact Htext | simpl; auto | exact IH].
Qed.

(** A steady property that every text node has holds of a document exactly
    when it holds of the document with its adjacent text nodes merged. *)
Lemma holds_mergeText (q : Selector) (doc : Document) :
  steady q -> (forall o t, q o (TextNode t) = true) ->
  holds q (mergeText doc) = holds q doc.
Proof.
  intros Hq Htext. unfold holds, mergeText.
  apply holdsAmong_mergeText; [exact Hq | exact Htext | exact I|].
  apply Forall_forall. intros c _. now apply holdsBelow_mergeNode.
Qed.

Lemma getNodeText_mergeAdjacent (l : list Node) :
  List.concat (map getNodeText (mergeAdjacent l))
  = List.concat (map getNodeText l).
Proof.
  induction l as [|c rest IH]; [reflexivity|].
  cbn [mergeAdjacent map List.concat]. rewrite <- IH.
  destruct c as [d a cs|t|t|t]; try reflexivity.
  destruct (mergeAdjacent rest) as [|[d a cs|b|b|b] rest']; try reflexivity.
  cbn [map List.concat getNodeText]. now rewrite app_assoc.
Qed.

Lemma getNodeText_mergeNode (n : Node) :
  getNodeText (mergeNode n) = getNodeText n.
Proof.
  induction n as [data attrs cs IH| | |] using Node_induction;
    try reflexivity.
  cbn [mergeNode getNodeText]. rewrite getNodeText_mergeAdjacent, map_map.
  f_equal. induction IH as [|c cs Hc _ IHcs]; [reflexivity|].
  cbn [map]. now rewrite Hc, IHcs.
Qed.

(** The footer emphasis and the merging of text nodes do not meet. *)
Lemma boldUID_mergeAdjacent (inside : bool) (l : list Node) :
  map (boldUID inside) (mergeAdjacent l)
  = mergeAdjacent (map (boldUID inside) l).
Proof.
  induction l as [|c rest IH]; [reflexivity|].
  cbn [mergeAdjacent map]. rewrite <- IH.
  destruct c as [d a cs|t|t|t]; try reflexivity.
  cbn [boldUID].
  destruct (mergeAdjacent rest) as [|[d a cs|b|b|b] rest']; reflexivity.
Qed.

Lemma boldUID_mergeNode (n : Node) :
  forall inside, boldUID inside (mergeNode n) = mergeNode (boldUID inside n).
Proof.
  induction n as [data attrs cs IH| | |] using Node_induction;
    intros inside; try reflexivity.
  assert (Htext : getNodeText (mergeNode (ElementNode data attrs cs))
                  = getNodeText (ElementNode data attrs cs))
    by apply getNodeText_mergeNode.
  cbn [mergeNode] in Htext. cbn [mergeNode boldUID]. rewrite Htext.
  cbn [hasTag hasClass matchAttribute]. f_equal. clear Htext.
  generalize (inside
              || existsb
                   (fun a : Attribute =>
                      GoString.eqb (Key a) (str "class")
                      && matchInclude (str "footer-copy") [] (Val a)) attrs).
  intros below. rewrite boldUID_mergeAdjacent. f_equal. rewrite !map_map.
  induction IH as [|c cs' Hc _ IHcs]; [reflexivity|].
  cbn [map]. now rewrite Hc, IHcs.
Qed.

Lemma map_boldUID_mergeText (inside : bool) (doc : Document) :
  map (boldUID inside) (mergeText doc) = mergeText (map (boldUID inside) doc).
Proof.
  unfold mergeText. rewrite boldUID_mergeAdjacent, !map_map. f_equal.
  apply map_ext. intros n. apply boldUID_mergeNode.
Qed.

(** *** Counting nodes *)

Lemma list_sum_step (a : nat) (l : list nat) :
  list_sum (a :: l) = (a + list_sum l)%nat.
Proof. reflexivity. Qed.

Lemma list_sum_none : list_sum [] = 0%nat.
Proof. reflexivity. Qed.

Lemma nodes_positive (n : Node) : (1 <= nodes n)%nat.
Proof. destruct n; simpl; lia. Qed.

Lemma nodes_boldUID (n : Node) :
  forall inside, nodes (boldUID inside n) = nodes n.
Proof.
  induction n as [data attrs cs IH| | |] using Node_induction;
    intros inside; try reflexivity.
  cbn [boldUID nodes]. f_equal. rewrite map_map. f_equal.
  generalize (inside
              || hasClass (str "footer-copy") (ElementNode data attrs cs)).
  intros below. induction IH as [|c cs' Hc _ IHcs]; [reflexivity|].
  cbn [map]. now rewrite Hc, IHcs.
Qed.

Lemma nodesOf_boldUID (inside : bool) (doc : Document) :
  nodesOf (map (boldUID inside) doc) = nodesOf doc.
Proof.
  unfold nodesOf. rewrite map_map. f_equal. apply map_ext.
  intros n. apply nodes_boldUID.
Qed.

Lemma nodes_removeAmong (sel : Selector) p (cs : list Node) :
  Forall (fun c => nodes (removeBelow sel c) <= nodes c)%nat cs ->
  (list_sum (map nodes (removeAmong sel (removeBelow sel) p cs))
   <= list_sum (map nodes cs))%nat.
Proof.
  induction 1 as [|c cs Hc _ IH]; [apply le_n|].
  rewrite removeAmong_cons, map_app, list_sum_app.
  destruct (sel p c); cbn [map]; rewrite ?list_sum_step, ?list_sum_none; lia.
Qed.

Lemma nodes_removeBelow (sel : Selector) (n : Node) :
  (nodes (removeBelow sel n) <= nodes n)%nat.
Proof.
  induction n as [data attrs cs IH| | |] using Node_induction;
    try apply le_n.
  cbn [removeBelow nodes]. apply le_n_S. now apply nodes_removeAmong.
Qed.

Lemma nodesOf_Remove (sel : Selector) (doc : Document) :
  (nodesOf (Remove sel doc) <= nodesOf doc)%nat.
Proof.
  apply nodes_removeAmong, Forall_forall. intros c _. apply nodes_removeBelow.
Qed.

(** [Find(sel).First().Remove()] either takes nodes away or finds nothing
    to remove. *)
Lemma removeFirstAmong_cases (sel : Selector) p (cs : list Node) :
  Forall (fun c =>
            match removeFirstBelow sel c with
            | Some c' => (nodes c' < nodes c)%nat
            | None => holdsBelow (unselected sel) c = true
            end) cs ->
  match removeFirstAmong sel (removeFirstBelow sel) p cs with
  | Some cs' => (list_sum (map nodes cs') < list_sum (map nodes cs))%nat
  | None => holdsAmong (unselected sel) (holdsBelow (unselected sel)) p cs
            = true
  end.
Proof.
  induction 1 as [|c cs Hc _ IH]; [reflexivity|].
  cbn [removeFirstAmong]. rewrite holdsAmong_cons. unfold unselected at 1.
  destruct (sel p c).
  - cbn [map]. rewrite list_sum_step. pose proof (nodes_positive c). lia.
  - destruct (removeFirstBelow sel c) as [c'|].
    + cbn [map]. rewrite !list_sum_step. lia.
    + destruct (removeFirstAmong sel (removeFirstBelow sel) p cs) as [cs'|].
      * cbn [option_map map]. rewrite !list_sum_step. lia.
      * cbn [option_map negb andb]. now rewrite Hc, IH.
Qed.

Lemma removeFirstBelow_cases (sel : Selector) (n : Node) :
  match removeFirstBelow sel n with
  | Some n' => (nodes n' < nodes n)%nat
  | None => holdsBelow (unselected sel) n = true
  end.
Proof.
  induction n as [data attrs cs IH| | |] using Node_induction;
    try reflexivity.
  cbn [removeFirstBelow holdsBelow].
  pose proof (removeFirstAmong_cases sel
                (Some (ElementNode data attrs cs)) cs IH) as H.
  destruct (removeFirstAmong sel (removeFirstBelow sel) _ cs) as [cs'|].
  - cbn [option_map nodes]. lia.
  - exact H.
Qed.

Lemma RemoveFirst_cases (sel : Selector) (doc : Document) :
  (nodesOf (RemoveFirst sel doc) < nodesOf doc)%nat
  \/ (holds (unselected sel) doc = true /\ RemoveFirst sel doc = doc).
Proof.
  unfold RemoveFirst, holds, nodesOf.
  pose proof (removeFirstAmong_cases sel None doc) as H.
  destruct (removeFirstAmong sel (removeFirstBelow sel) None doc) as [doc'|].
  - left. apply H, Forall_forall. intros c _. apply removeFirstBelow_cases.
  - right. split; [|reflexivity].
    apply H, Forall_forall. intros c _. apply removeFirstBelow_cases.
Qed.

Section TransformProperties.

Variable httpGet : gostring -> (gostring * list Z) + Error.
Variable EncodeToString : list Z -> gostring.
Variable NewDocument : gostring -> Document + Error.
Variable Html : Document -> gostring + Error.

(** What every output of the transformer satisfies. *)
Lemma cleanDocument_output (doc : Document) :
  let out := cleanDocument httpGet EncodeToString doc in
  holds (settledImage httpGet EncodeToString) out = true
  /\ holds (unselected (byClass (str "action-button-cell"))) out = true
  /\ holds (unselected (childOf (str "footer_section")
                                (hasClass (str "custom-1sstyyn")))) out = true
  /\ holds (unselected (byClass (str "inline-link-group"))) out = true.
Proof.
  unfold cleanDocument. repeat split.
  - apply Remove_holds, map_boldUID_holds, Remove_holds, RemoveFirst_holds,
      Remove_holds, map_embedImages_settled; apply steady_settledImage.
  - apply Remove_holds, map_boldUID_holds, Remove_holds, RemoveFirst_holds,
      Remove_unselected;
      try apply steady_unselected; apply steady_byClass.
  - apply Remove_holds, map_boldUID_holds, Remove_unselected;
      try apply steady_unselected; apply steady_childOf_class.
  - apply Remove_unselected, steady_byClass.
Qed.

Lemma cleanDocument_reapplied (doc : Document) :
  let out := cleanDocument httpGet EncodeToString doc in
  holds (unselected (childOf (str "footer_section") (hasTag (str "p")))) out
  = true ->
  map (boldUID false) out = out ->
  cleanDocument httpGet EncodeToString out = out.
Proof.
  intros out Hfooter Hbold.
  destruct (cleanDocument_output doc) as (H1 & H2 & H4 & H6). fold out in H1, H2, H4, H6.
  unfold cleanDocument at 1.
  rewrite (map_embedImages_fixed _ _ _ H1), (Remove_fixed _ _ H2),
    (RemoveFirst_fixed _ _ Hfooter), (Remove_fixed _ _ H4), Hbold.
  apply Remove_fixed, H6.
Qed.

(** A second application changes the output of the transformer, as a
    document, exactly when a paragraph is left directly under the footer
    section or the footer emphasis has something left to do. *)
Lemma cleanDocument_fixed_iff (doc : Document) :
  let out := cleanDocument httpGet EncodeToString doc in
  cleanDocument httpGet EncodeToString out = out
  <-> holds (unselected (childOf (str "footer_section") (hasTag (str "p"))))
            out = true
      /\ map (boldUID false) out = out.
Proof.
  intros out. split; [|intros [Hfooter Hbold]; now apply cleanDocument_reapplied].
  destruct (cleanDocument_output doc) as (H1 & H2 & H4 & H6).
  fold out in H1, H2, H4, H6. intros Hfix.
  unfold cleanDocument at 1 in Hfix.
  rewrite (map_embedImages_fixed _ _ _ H1), (Remove_fixed _ _ H2) in Hfix.
  destruct (RemoveFirst_cases
              (childOf (str "footer_section") (hasTag (str "p"))) out)
    as [Hless | [Hfooter Hsame]].
  - exfalso.
    pose proof (nodesOf_Remove (byClass (str "inline-link-group"))
                  (map (boldUID false)
                     (Remove (childOf (str "footer_section")
                                      (hasClass (str "custom-1sstyyn")))
                        (RemoveFirst (childOf (str "footer_section")
                                              (hasTag (str "p"))) out))))
      as Hlinks.
    rewrite Hfix, nodesOf_boldUID in Hlinks.
    pose proof (nodesOf_Remove (childOf (str "footer_section")
                                        (hasClass (str "custom-1sstyyn")))
                  (RemoveFirst (childOf (str "footer_section")
                                        (hasTag (str "p"))) out)) as Hcustom.
    lia.
  - split; [exact Hfooter|].
    rewrite Hsame, (Remove_fixed _ _ H4) in Hfix.
    rewrite Remove_fixed in Hfix; [exact Hfix|].
    apply map_boldUID_holds; [|exact H6].
    apply steady_unselected, steady_byClass.
Qed.

(** A document that reads like the output of the transformer, adjacent
    text nodes taken as one, is transformed into one that reads like that
    output again, when the output is left unchanged as a document. *)
Lemma cleanDocument_reparsed (doc back : Document) :
  let out := cleanDocument httpGet EncodeToString doc in
  mergeText back = mergeText out ->
  holds (unselected (childOf (str "footer_section") (hasTag (str "p"))))
        out = true ->
  map (boldUID false) out = out ->
  mergeText (cleanDocument httpGet EncodeToString back) = mergeText out.
Proof.
  intros out Hback Hfooter Hbold.
  destruct (cleanDocument_output doc) as (H1 & H2 & H4 & H6).
  fold out in H1, H2, H4, H6.
  assert (Hmove : forall q, steady q -> (forall o t, q o (TextNode t) = true) ->
                            holds q out = true -> holds q back = true).
  { intros q Hq Htext H.
    now rewrite <- (holds_mergeText q back Hq Htext), Hback,
                (holds_mergeText q out Hq Htext). }
  assert (Hchild : forall id child,
             (forall t, child (TextNode t) = false) ->
             forall o t, unselected (childOf id child) o (TextNode t) = true).
  { intros id child Hc [p|] t; [|reflexivity].
    unfold unselected, childOf. now rewrite Hc, andb_false_r. }
  unfold cleanDocument.
  rewrite (map_embedImages_fixed _ _ back).
  2:{ apply Hmove; [apply steady_settledImage | reflexivity | exact H1]. }
  rewrite (Remove_fixed _ back).
  2:{ apply Hmove; [apply steady_unselected, steady_byClass | reflexivity
                    | exact H2]. }
  rewrite (RemoveFirst_fixed _ back).
  2:{ apply Hmove; [apply steady_unselected, steady_childOf_tag
                    | now apply Hchild | exact Hfooter]. }
  rewrite (Remove_fixed _ back).
  2:{ apply Hmove; [apply steady_unselected, steady_childOf_class
                    | now apply Hchild | exact H4]. }
  rewrite Remove_fixed.
  2:{ apply map_boldUID_holds; [apply steady_unselected, steady_byClass|].
      apply Hmove; [apply steady_unselected, steady_byClass | reflexivity
                    | exact H6]. }
  now rewrite <- map_boldUID_mergeText, Hback, map_boldUID_mergeText, Hbold.
Qed.

(** C9 (amended). The transform is a function of its input and of the
    results of the downloads it asks for, which are those of addresses
    beginning with "http".  It is not idempotent: as a document, its output
    is left as it is by a second application exactly when no paragraph is
    left directly under the footer section and the footer emphasis leaves
    the output as it is.  In that case the second application gives the
    same bytes, provided the serialiser writes text nodes that stand side
    by side like their concatenation and the output parses back to itself
    up to the merging of such text nodes. *)
Theorem cleanHTML_reapplied :
  (forall (httpGet' : gostring -> (gostring * list Z) + Error) htmlContent,
     (forall url, HasPrefix url (str "http") = true ->
                  httpGet' url = httpGet url) ->
     cleanHTML httpGet' EncodeToString NewDocument Html htmlContent
     = cleanHTML httpGet EncodeToString NewDocument Html htmlContent)
  /\ (forall doc,
        let out := cleanDocument httpGet EncodeToString doc in
        cleanDocument httpGet EncodeToString out = out
        <-> holds (unselected (childOf (str "footer_section")
                                       (hasTag (str "p")))) out = true
            /\ map (boldUID false) out = out)
  /\ (forall htmlContent doc html,
        NewDocument htmlContent = inl doc ->
        cleanHTML httpGet EncodeToString NewDocument Html htmlContent
        = inl html ->
        let out := cleanDocument httpGet EncodeToString doc in
        (forall d d', mergeText d = mergeText d' -> Html d = Html d') ->
        (exists back,
           NewDocument html = inl back /\ mergeText back = mergeText out) ->
        holds (unselected (childOf (str "footer_section")
                                   (hasTag (str "p")))) out = true ->
        map (boldUID false) out = out ->
        cleanHTML httpGet EncodeToString NewDocument Html html = inl html).
Proof.
  split; [|split].
  - intros httpGet' htmlContent Hext. unfold cleanHTML, cleanDocument.
    destruct (NewDocument htmlContent) as [doc|err]; [|reflexivity].
    replace (map (embedImages httpGet' EncodeToString) doc)
      with (map (embedImages httpGet EncodeToString) doc); [reflexivity|].
    apply map_ext. intros n. symmetry. now apply embedImages_ext.
  - exact cleanDocument_fixed_iff.
  - intros htmlContent doc html Hdoc Hclean out Hwrite (back & Hparse & Hback)
           Hfooter Hbold.
    unfold cleanHTML in Hclean |- *. rewrite Hdoc in Hclean. fold out in Hclean.
    rewrite Hparse.
    rewrite (Hwrite (cleanDocument httpGet EncodeToString back) out).
    + exact Hclean.
    + now apply cleanDocument_reparsed.
Qed.

End TransformProperties.

(** C9 (counterexample). The footer section holds the paragraphs "A" and
    "B" and nothing is downloaded.  The transform removes "A"; applied to its
    own output it removes "B" as well, so the second output differs from the
    first, as documents and in every serialisation that tells the two
    documents apart.  And in a footer whose "UID-Nr" is broken by a link
    bar, the first application removes the bar and the second one sets the
    emphasis. *)
Lemma cleanHTML_second_pass_differs :
  let pageAB := Sample.footerPage [Sample.paragraph "A"; Sample.paragraph "B"] in
  let pageB := Sample.footerPage [Sample.paragraph "B"] in
  let page0 := Sample.footerPage [] in
  let once := cleanDocument Sample.offline Sample.noBase64 Sample.splitFooter in
  let twice := cleanDocument Sample.offline Sample.noBase64 once in
  cleanDocument Sample.offline Sample.noBase64 pageAB = pageB
  /\ cleanDocument Sample.offline Sample.noBase64 pageB = page0
  /\ page0 <> pageB
  /\ (forall (NewDocument : gostring -> Document + Error)
             (Html : Document -> gostring + Error) htmlAB htmlB html0,
        NewDocument htmlAB = inl pageAB -> Html pageB = inl htmlB ->
        NewDocument htmlB = inl pageB -> Html page0 = inl html0 ->
        htmlB <> html0 ->
        exists out,
          cleanHTML Sample.offline Sample.noBase64 NewDocument Html htmlAB
          = inl out
          /\ cleanHTML Sample.offline Sample.noBase64 NewDocument Html out
             <> inl out)
  /\ cleanHTML Sample.offline Sample.noBase64 Sample.footerReader
               Sample.footerWriter (Sample.footerHTML "<p>A</p><p>B</p>")
     = inl (Sample.footerHTML "<p>B</p>")
  /\ cleanHTML Sample.offline Sample.noBase64 Sample.footerReader
               Sample.footerWriter (Sample.footerHTML "<p>B</p>")
     = inl (Sample.footerHTML "")
  /\ once = [Sample.elem "div" [Sample.attr "class" "footer-copy"]
               [Sample.elem "p" [] [TextNode (str "UID-"); TextNode (str "Nr")]]]
  /\ twice = [Sample.elem "div" [Sample.attr "class" "footer-copy"]
                [Sample.elem "p" [Sample.attr "style" "font-weight:600"]
                   [TextNode (str "UID-"); TextNode (str "Nr")]]]
  /\ Sample.write twice <> Sample.write once.
Proof.
  cbn zeta. split; [reflexivity|]. split; [reflexivity|].
  split; [discriminate|].
  split; [|repeat split; try reflexivity; discriminate].
  intros NewDocument Html htmlAB htmlB html0 HAB HwB HB Hw0 Hne.
  exists htmlB. unfold cleanHTML. rewrite HAB, HB.
  change (cleanDocument Sample.offline Sample.noBase64
            (Sample.footerPage [Sample.paragraph "A"; Sample.paragraph "B"]))
    with (Sample.footerPage [Sample.paragraph "B"]).
  change (cleanDocument Sample.offline Sample.noBase64
            (Sample.footerPage [Sample.paragraph "B"]))
    with (Sample.footerPage []).
  rewrite HwB, Hw0. split; [reflexivity | congruence].
Qed.

(** The sample serialiser writes text nodes that stand side by side like
    their concatenation. *)
Lemma write_mergeAdjacent (l : list Node) :
  flat_map Sample.render (mergeAdjacent l) = flat_map Sample.render l.
Proof.
  induction l as [|c rest IH]; [reflexivity|].
  cbn [mergeAdjacent flat_map]. rewrite <- IH.
  destruct c as [d a cs|t|t|t]; try reflexivity.
  destruct (mergeAdjacent rest) as [|[d a cs|b|b|b] rest']; try reflexivity.
  cbn [flat_map Sample.render]. now rewrite app_assoc.
Qed.

Lemma render_mergeNode (n : Node) :
  Sample.render (mergeNode n) = Sample.render n.
Proof.
  induction n as [data attrs cs IH| | |] using Node_induction;
    try reflexivity.
  assert (Hcs : flat_map Sample.render (map mergeNode cs)
                = flat_map Sample.render cs).
  { induction IH as [|c cs' Hc _ IHcs]; [reflexivity|].
    cbn [map flat_map]. now rewrite Hc, IHcs. }
  cbn [mergeNode Sample.render]. now rewrite write_mergeAdjacent, Hcs.
Qed.

Lemma write_mergeText (doc : Document) :
  Sample.write (mergeText doc) = Sample.write doc.
Proof.
  unfold Sample.write, mergeText. rewrite write_mergeAdjacent.
  induction doc as [|c doc IH]; [reflexivity|].
  cbn [map flat_map]. now rewrite render_mergeNode, IH.
Qed.

(** The cleaned invoice page is left as it is by a second application.
    The page with the action button between two runs of white space comes
    out with two text nodes side by side and parses back with one: the
    second application still gives the same bytes. *)
Lemma cleanHTML_reapplied_witness :
  cleanDocument Sample.offline Sample.noBase64
    (cleanDocument Sample.offline Sample.noBase64 Sample.invoicePage)
  = cleanDocument Sample.offline Sample.noBase64 Sample.invoicePage
  /\ cleanDocument Sample.offline Sample.noBase64 Sample.buttonPage
     <> Sample.keptPage
  /\ cleanHTML Sample.offline Sample.noBase64 Sample.buttonReader
               Sample.writer (Sample.write Sample.buttonPage)
     = inl (Sample.write Sample.keptPage)
  /\ cleanHTML Sample.offline Sample.noBase64 Sample.buttonReader
               Sample.writer (Sample.write Sample.keptPage)
     = inl (Sample.write Sample.keptPage).
Proof.
  destruct (cleanHTML_reapplied Sample.offline Sample.noBase64
              Sample.buttonReader Sample.writer) as (_ & Hdoc & Hhtml).
  split; [|split; [|split]].
  - apply (Hdoc Sample.invoicePage). split; reflexivity.
  - discriminate.
  - reflexivity.
  - apply (Hhtml (Sample.write Sample.buttonPage) Sample.buttonPage).
    + reflexivity.
    + reflexivity.
    + intros d d' Hsame. unfold Sample.writer.
      now rewrite <- (write_mergeText d), <- (write_mergeText d'), Hsame.
    + exists Sample.keptPage. split; reflexivity.
    + reflexivity.
    + reflexivity.
Defined.

(* ================================================================== *)
(** * Further properties *)

(** ** Traces of the scan *)

Lemma emits_ret (P : Event -> bool) {A} (a : A) : emits P (ret a).
Proof. intros tr. exists []. now rewrite app_nil_r. Qed.

Lemma emits_fail (P : Event -> bool) {A} (e : Error) : emits P (@fail A e).
Proof. intros tr. exists []. now rewrite app_nil_r. Qed.

Lemma emits_panic (P : Event -> bool) {A} : emits P (@panic A).
Proof. intros tr. exists []. now rewrite app_nil_r. Qed.

Lemma emits_emit (P : Event -> bool) (ev : Event) :
  P ev = true -> emits P (emit ev).
Proof. intros H tr. exists [ev]. simpl. now rewrite H. Qed.

Lemma emits_bind (P : Event -> bool) {A B} (m : Scan A) (k : A -> Scan B) :
  emits P m -> (forall a, emits P (k a)) -> emits P (bind m k).
Proof.
  intros Hm Hk tr. unfold bind. destruct (Hm tr) as (evs & Hevs & HP).
  destruct (m tr) as [[a|e|] tr1]; simpl in Hevs; subst tr1;
    try (exists evs; now split).
  destruct (Hk a (tr ++ evs)) as (evs' & Hevs' & HP').
  exists (evs ++ evs'). rewrite Hevs', app_assoc, forallb_app, HP, HP'.
  now split.
Qed.

Lemma emits_defer_Logout (P : Event -> bool) {A} (m : Scan A) :
  P EvLogout = true -> emits P m -> emits P (defer_Logout m).
Proof.
  intros HL Hm tr. unfold defer_Logout. destruct (Hm tr) as (evs & Hevs & HP).
  destruct (m tr) as [r tr1]. simpl in Hevs. subst tr1.
  exists (evs ++ [EvLogout]). simpl.
  rewrite app_assoc, forallb_app, HP. simpl. now rewrite HL.
Qed.

Section TraceProperties.

Variable unicodeLower : rune -> rune.
Variable clock : nat -> Time.
Variable c : Server.

Variable P : Event -> bool.
Hypothesis P_log : forall line, P (EvLog line) = true.

Lemma emits_matchLoop (cfg : Config) (k : nat) (messages : list Message)
                      (uids : list Z) :
  emits P (matchLoop unicodeLower clock cfg k messages uids).
Proof.
  intros tr. rewrite matchLoop_Ok. eexists. split; [reflexivity|].
  induction (candidatesFrom _ _ _ k messages) as [|msg l IH]; [reflexivity|].
  cbn [map forallb]. unfold foundLine at 1. now rewrite IH, P_log.
Qed.

Lemma emits_bodyLoop (messages : list Message) :
  forall invoices, emits P (bodyLoop messages invoices).
Proof.
  induction messages as [|msg rest IH]; intros invoices; cbn [bodyLoop].
  - apply emits_ret.
  - destruct (MsgBody msg) as [r|].
    + destruct (extractHTMLBody r) as [htmlBody|err].
      * destruct (MsgEnvelope msg) as [env|]; [apply IH | apply emits_panic].
      * apply emits_bind; [apply emits_emit, P_log | intros _; apply IH].
    + apply emits_bind; [apply emits_emit, P_log | intros _; apply IH].
Qed.

Lemma emits_fetchMatchingUIDs (seqSet : SeqSet) (cfg : Config) :
  P (EvFetch seqSet [FetchEnvelope; FetchUid]) = true ->
  emits P (fetchMatchingUIDs unicodeLower clock c seqSet cfg).
Proof.
  intros HF. unfold fetchMatchingUIDs.
  apply emits_bind; [now apply emits_emit | intros _].
  destruct (Fetch c seqSet) as [messages done].
  apply emits_bind; [apply emits_matchLoop | intros uids].
  apply emits_bind; [|intros _; apply emits_ret].
  destruct done; [apply emits_emit, P_log | apply emits_ret].
Qed.

Lemma emits_fetchBodies (uids : list Z) :
  P (EvUidFetch (fold_left AddNum uids [])
                [FetchBodySection true; FetchEnvelope]) = true ->
  emits P (fetchBodies c uids).
Proof.
  intros HU. unfold fetchBodies.
  apply emits_bind; [now apply emits_emit | intros _].
  destruct (UidFetch c _) as [messages done].
  apply emits_bind; [apply emits_bodyLoop | intros invoices].
  destruct done; [apply emits_fail | apply emits_ret].
Qed.

Lemma emits_fetchInvoices (cfg : Config) :
  P EvLogout = true ->
  (forall host port, P (EvDialTLS host port) = true) ->
  (forall user pass, P (EvLogin user pass) = true) ->
  P (EvSelect "INBOX" true) = true ->
  (forall seqSet, P (EvFetch seqSet [FetchEnvelope; FetchUid]) = true) ->
  (forall uidSet, P (EvUidFetch uidSet [FetchBodySection true; FetchEnvelope])
                  = true) ->
  emits P (fetchInvoices unicodeLower clock c cfg).
Proof.
  intros HLo HD HL HS HF HU. unfold fetchInvoices.
  apply emits_bind; [apply emits_emit, HD | intros _].
  destruct (DialTLS c); [apply emits_fail|].
  apply emits_defer_Logout; [exact HLo|]. unfold fetchInvoices_session.
  apply emits_bind; [apply emits_emit, HL | intros _].
  destruct (Login c _ _); [apply emits_fail|].
  apply emits_bind; [apply emits_emit, P_log | intros _].
  apply emits_bind; [apply emits_emit, HS | intros _].
  destruct (Select c) as [messages|err]; [|apply emits_fail].
  apply emits_bind; [apply emits_emit, P_log | intros _].
  destruct (messages =? 0); [apply emits_ret|].
  apply emits_bind; [apply emits_fetchMatchingUIDs, HF | intros matchUIDs].
  destruct (Z.of_nat (List.length matchUIDs) =? 0).
  - apply emits_bind; [apply emits_emit, P_log | intros _; apply emits_ret].
  - apply emits_bind; [apply emits_emit, P_log | intros _].
    apply emits_fetchBodies, HU.
Qed.

End TraceProperties.

(** X1. Whatever the server answers, a scan only adds events that leave the
    mailbox as it is: the mailbox is selected read-only, the envelope fetch
    asks for no body section, and the body fetch asks with [Peek]. *)
Theorem fetchInvoices_read_only (unicodeLower : rune -> rune) (clock : nat -> Time)
    (c : Server) (cfg : Config) (tr : list Event) :
  forallb readOnlyEvent tr = true ->
  forallb readOnlyEvent (snd (fetchInvoices unicodeLower clock c cfg tr)) = true.
Proof.
  intros Htr.
  destruct (emits_fetchInvoices unicodeLower clock c readOnlyEvent
              (fun _ => eq_refl) cfg eq_refl (fun _ _ => eq_refl)
              (fun _ _ => eq_refl) eq_refl (fun _ => eq_refl)
              (fun _ => eq_refl) tr) as (evs & -> & Hevs).
  now rewrite forallb_app, Htr, Hevs.
Qed.

(** After a scan of the broken pass-2 server the trace is still read-only. *)
Lemma fetchInvoices_read_only_witness :
  forallb readOnlyEvent
    (snd (fetchInvoices Sample.noTable Sample.frozen Sample.broken_pass2
                        (Sample.cfg 3) [EvLog LogLoggedIn])) = true.
Proof.
  apply (fetchInvoices_read_only Sample.noTable Sample.frozen
           Sample.broken_pass2 (Sample.cfg 3) [EvLog LogLoggedIn]).
  reflexivity.
Defined.

Lemma commands_app (a b : list Event) :
  commands (a ++ b) = commands a ++ commands b.
Proof. apply filter_app. Qed.

Lemma commands_logs (logs : list Event) :
  forallb isLog logs = true -> commands logs = [].
Proof.
  induction logs as [|ev logs IH]; [reflexivity|].
  cbn [forallb commands filter]. rewrite andb_true_iff. intros [-> H].
  now apply IH.
Qed.

Section CommandProperties.

Variable unicodeLower : rune -> rune.
Variable clock : nat -> Time.
Variable c : Server.

Lemma commands_pass1 (cfg : Config) (seqSet : SeqSet)
                     (answer : list Message * option Error) :
  commands (pass1_events unicodeLower clock cfg seqSet answer)
  = [EvFetch seqSet [FetchEnvelope; FetchUid]].
Proof.
  unfold pass1_events. cbn [commands filter isLog negb].
  fold (commands (map foundLine (candidates unicodeLower clock cfg (fst answer))
                  ++ match snd answer with
                     | Some err => [EvLog (LogWarnFetchingEnvelopes err)]
                     | None => []
                     end)).
  rewrite commands_app, commands_logs.
  - now destruct (snd answer).
  - induction (candidates _ _ _ (fst answer)) as [|msg l IH]; [reflexivity|].
    cbn [map forallb]. now rewrite IH.
Qed.

(** The trace of pass 2: the body fetch, then log lines only. *)
Lemma fetchBodies_trace (uids : list Z) (tr : list Event) :
  exists logs,
    snd (fetchBodies c uids tr)
    = tr ++ EvUidFetch (fold_left AddNum uids [])
                       [FetchBodySection true; FetchEnvelope] :: logs
    /\ forallb isLog logs = true.
Proof.
  unfold fetchBodies. rewrite bind_emit.
  destruct (UidFetch c _) as [messages done]. unfold bind.
  destruct (emits_bodyLoop isLog (fun _ => eq_refl) messages []
              (tr ++ [EvUidFetch (fold_left AddNum uids [])
                        [FetchBodySection true; FetchEnvelope]]))
    as (logs & Hlogs & Hlog).
  exists logs. split; [|exact Hlog].
  destruct (bodyLoop messages [] _) as [[invoices|e|] tr1]; simpl in Hlogs;
    subst tr1; [destruct done|..]; simpl; now rewrite <- app_assoc.
Qed.

(** X2. The commands of a scan, in order, for every way it can go: the
    connection alone when it fails; then login, selection of INBOX, the
    envelope fetch of the window and, only when pass 1 selected an
    identifier, one body fetch for the selected identifiers; each at most
    once, and a logout last whenever the connection was made. *)
Theorem fetchInvoices_commands (cfg : Config) :
  let cmds := commands (snd (fetchInvoices unicodeLower clock c cfg [])) in
  let dial := EvDialTLS (Endpoint.Host (IMAP cfg)) (Endpoint.Port (IMAP cfg)) in
  let login := EvLogin (User cfg) (Pass cfg) in
  let select := EvSelect "INBOX" true in
  (forall e, DialTLS c = Some e -> cmds = [dial])
  /\ (DialTLS c = None ->
      (forall e, Login c (User cfg) (Pass cfg) = Some e ->
                 cmds = [dial; login; EvLogout])
      /\ (Login c (User cfg) (Pass cfg) = None ->
          (forall e, Select c = inr e -> cmds = [dial; login; select; EvLogout])
          /\ (Select c = inl 0 -> cmds = [dial; login; select; EvLogout])
          /\ (forall total, Select c = inl total -> total <> 0 ->
                let seqSet := AddRange [] (windowFrom cfg total) total in
                let fetch := EvFetch seqSet [FetchEnvelope; FetchUid] in
                let matchUIDs :=
                  map Uid (candidates unicodeLower clock cfg (fst (Fetch c seqSet))) in
                (matchUIDs = [] ->
                 cmds = [dial; login; select; fetch; EvLogout])
                /\ (matchUIDs <> [] ->
                    cmds = [dial; login; select; fetch;
                            EvUidFetch (fold_left AddNum matchUIDs [])
                                       [FetchBodySection true; FetchEnvelope];
                            EvLogout])))).
Proof.
  cbn zeta. split.
  - intros e HD. unfold fetchInvoices. now rewrite bind_emit, HD.
  - intros HD. split.
    + intros e HL. unfold fetchInvoices, fetchInvoices_session.
      rewrite bind_emit, HD. unfold defer_Logout. now rewrite bind_emit, HL.
    + intros HL. split; [|split].
      * intros e HS. unfold fetchInvoices, fetchInvoices_session.
        rewrite bind_emit, HD. unfold defer_Logout.
        now rewrite bind_emit, HL, !bind_emit, HS.
      * intros HS. now rewrite fetchInvoices_empty_mailbox.
      * intros total HS Hne.
        rewrite (fetchInvoices_connected unicodeLower clock c cfg total []
                   HD HL HS Hne).
        set (seqSet := AddRange [] (windowFrom cfg total) total).
        set (matchUIDs := map Uid _).
        set (tr1 := [] ++ _ ++ _).
        assert (Htr1 : commands tr1
                       = [EvDialTLS (Endpoint.Host (IMAP cfg))
                                    (Endpoint.Port (IMAP cfg));
                          EvLogin (User cfg) (Pass cfg);
                          EvSelect "INBOX" true;
                          EvFetch seqSet [FetchEnvelope; FetchUid]]).
        { unfold tr1. rewrite app_nil_l, commands_app, commands_pass1.
          reflexivity. }
        clearbody tr1. split.
        -- intros ->. unfold defer_Logout. cbn [List.length Z.of_nat Z.eqb].
           rewrite bind_emit. cbn [ret snd].
           rewrite !commands_app, Htr1. reflexivity.
        -- intros Hsome. unfold defer_Logout.
           replace (Z.of_nat (List.length matchUIDs) =? 0) with false.
           2:{ symmetry. apply Z.eqb_neq.
               destruct matchUIDs; [congruence | simpl; lia]. }
           rewrite bind_emit.
           destruct (fetchBodies_trace matchUIDs
                       (tr1 ++ [EvLog (LogFoundCount
                                         (Z.of_nat (List.length matchUIDs)))]))
             as (logs & Htrace & Hlogs).
           destruct (fetchBodies c matchUIDs _) as [r tr2].
           simpl in Htrace. subst tr2. cbn [snd].
           change (EvUidFetch (fold_left AddNum matchUIDs [])
                     [FetchBodySection true; FetchEnvelope] :: logs)
             with ([EvUidFetch (fold_left AddNum matchUIDs [])
                      [FetchBodySection true; FetchEnvelope]] ++ logs).
           rewrite !commands_app, Htr1, (commands_logs logs Hlogs).
           reflexivity.
Qed.

End CommandProperties.

(** The shuffled server matches two identifiers: all six commands go out. *)
Lemma fetchInvoices_commands_witness :
  commands (snd (fetchInvoices Sample.noTable Sample.frozen Sample.shuffled
                               (Sample.cfg 3) []))
  = [EvDialTLS (str "imap.example.com") 993;
     EvLogin (str "user@example.com") (str "secret");
     EvSelect "INBOX" true;
     EvFetch [(3, 5)] [FetchEnvelope; FetchUid];
     EvUidFetch [(7, 7); (9, 9)] [FetchBodySection true; FetchEnvelope];
     EvLogout].
Proof.
  destruct (fetchInvoices_commands Sample.noTable Sample.frozen Sample.shuffled
              (Sample.cfg 3)) as [_ H].
  destruct (H eq_refl) as [_ H1]. destruct (H1 eq_refl) as (_ & _ & H2).
  apply (H2 5 eq_refl); discriminate.
Defined.

(** ** The identifiers of pass 2 *)

(** Merging two ranges of positive numbers gives the range of their
    union. *)
Lemma Seq_Merge_union (e v u : Seq) :
  0 < fst e <= snd e -> 0 < fst v <= snd v ->
  Seq_Merge e v = Some u ->
  0 < fst u <= snd u
  /\ forall q, fst u <= q <= snd u
               <-> fst e <= q <= snd e \/ fst v <= q <= snd v.
Proof.
  destruct e as [a b], v as [c d]. cbn [fst snd]. intros He Hv.
  unfold Seq_Merge. cbn [fst snd].
  destruct (Z.eqb_spec a c) as [Hac|Hac];
    [destruct (Z.eqb_spec b d) as [Hbd|Hbd]|]; cbn [andb].
  { intros [= <-]. cbn [fst snd]. split; lia. }
  all: destruct (Z.eqb_spec a 0); [lia|];
    destruct (Z.eqb_spec c 0); [lia|]; cbn [negb andb];
    destruct (Z.gtb_spec a c); cbn [fst snd];
    repeat match goal with
           | |- context [?x =? 0] => destruct (Z.eqb_spec x 0); [lia|]
           end; cbn [negb andb orb];
    rewrite ?andb_true_r, ?orb_false_r;
    repeat match goal with
           | |- context [?x >=? ?y] => destruct (Z.geb_spec x y)
           end;
    try discriminate; intros [= <-]; cbn [fst snd]; split; lia.
Qed.

(** What [insert] adds to a set of ranges of positive numbers. *)
Lemma insert_Contains (s : SeqSet) :
  forall v,
    Forall (fun r => 0 < fst r <= snd r) s ->
    0 < fst v <= snd v ->
    Forall (fun r => 0 < fst r <= snd r) (insert v s)
    /\ forall q, SeqSet_Contains (insert v s) q = true
                 <-> fst v <= q <= snd v \/ SeqSet_Contains s q = true.
Proof.
  assert (Hin : forall (r : Seq) q,
             (fst r <=? q) && (q <=? snd r) = true <-> fst r <= q <= snd r).
  { intros r q. rewrite andb_true_iff, !Z.leb_le. tauto. }
  induction s as [|e rest IH]; intros v Hs Hv.
  - cbn [insert]. split; [now constructor|].
    intros q. unfold SeqSet_Contains. cbn [existsb].
    rewrite !orb_true_iff, Hin. tauto.
  - apply Forall_cons_iff in Hs as [He Hrest]. cbn [insert].
    destruct (Seq_Merge e v) as [u|] eqn:EM.
    + destruct (Seq_Merge_union e v u He Hv EM) as [Hu Hunion].
      destruct (IH u Hrest Hu) as [Hwf Hq]. split; [exact Hwf|].
      intros q. rewrite Hq, Hunion. unfold SeqSet_Contains. cbn [existsb].
      rewrite orb_true_iff, Hin. tauto.
    + destruct (Seq_Less e (fst v)).
      * destruct (IH v Hrest Hv) as [Hwf Hq]. split; [now constructor|].
        intros q. unfold SeqSet_Contains in *. cbn [existsb].
        rewrite !orb_true_iff, Hq, Hin. tauto.
      * split; [now repeat constructor|].
        intros q. unfold SeqSet_Contains. cbn [existsb].
        rewrite !orb_true_iff, !Hin. tauto.
Qed.

Lemma fold_AddNum_Contains (uids : list Z) (q : Z) :
  forall s,
    Forall (fun u => 0 < u) uids ->
    Forall (fun r => 0 < fst r <= snd r) s ->
    SeqSet_Contains (fold_left AddNum uids s) q = true
    <-> SeqSet_Contains s q = true \/ In q uids.
Proof.
  induction uids as [|u uids IH]; intros s Hpos Hs; cbn [fold_left].
  - cbn [In]. tauto.
  - apply Forall_cons_iff in Hpos as [Hu Hpos].
    destruct (insert_Contains s (u, u) Hs) as [Hwf Hq]; [cbn [fst snd]; lia|].
    unfold AddNum. rewrite (IH _ Hpos Hwf), Hq. cbn [fst snd In].
    split; [intros [[H | H] | H] | intros [H | [H | H]]]; auto.
    + right. left. lia.
    + left. left. lia.
Qed.

(** The set is kept sorted and merged, whatever the order of arrival. *)
Example AddNum_sorted :
  fold_left AddNum [9; 7] [] = [(7, 7); (9, 9)]
  /\ fold_left AddNum [9; 7; 8; 7] [] = [(7, 9)]
  /\ fold_left AddNum [7; 0; 3] [] = [(3, 3); (7, 7); (0, 0)].
Proof. repeat split. Qed.

(** X3. The set that [fetchBodies] builds with [AddNum] holds exactly the
    identifiers it was given, however often and in whatever order they come:
    pass 2 asks for the candidates of pass 1 and for nothing else.
    (Identifiers are positive; a zero in a sequence set stands for [*].) *)
Theorem fetchBodies_uidSet (uids : list Z) (q : Z) :
  Forall (fun u => 0 < u) uids -> 0 < q ->
  SeqSet_Contains (fold_left AddNum uids []) q = true <-> In q uids.
Proof.
  intros Hpos _. rewrite (fold_AddNum_Contains uids q [] Hpos); [|constructor].
  cbn [SeqSet_Contains existsb]. split; [intros [H | H] | intros H]; auto.
  discriminate.
Qed.

(** The identifier 7 is asked for once it is a candidate, even twice. *)
Lemma fetchBodies_uidSet_witness :
  SeqSet_Contains (fold_left AddNum [7; 9; 7] []) 7 = true <-> In 7 [7; 9; 7].
Proof.
  apply (fetchBodies_uidSet [7; 9; 7] 7).
  - repeat constructor.
  - reflexivity.
Defined.

(** ** The scan window *)

(** X4. For a mailbox of [total] messages the envelope fetch covers the
    positions 1 to [total] when the configured count is zero or negative,
    and the last [min count total] positions when the count is positive and
    fits [uint32]. *)
Theorem scan_window (cfg : Config) (total q : Z) :
  0 < total < 2 ^ 32 ->
  FilterCfg.Count (Filter cfg) < 2 ^ 32 ->
  (FilterCfg.Count (Filter cfg) <= 0 ->
   (SeqSet_Contains (AddRange [] (windowFrom cfg total) total) q = true
    <-> 1 <= q <= total))
  /\ (0 < FilterCfg.Count (Filter cfg) ->
      (SeqSet_Contains (AddRange [] (windowFrom cfg total) total) q = true
       <-> total - Z.min (FilterCfg.Count (Filter cfg)) total < q <= total)).
Proof.
  intros Ht HN. unfold windowFrom, uint32, AddRange, SeqSet_Contains. split.
  - intros Hle. destruct (Z.gtb_spec (FilterCfg.Count (Filter cfg)) 0); [lia|].
    destruct (Z.ltb_spec total 1); [lia|]. cbn [andb orb Z.eqb insert existsb fst snd].
    rewrite orb_false_r, andb_true_iff, !Z.leb_le. lia.
  - intros Hpos. destruct (Z.gtb_spec (FilterCfg.Count (Filter cfg)) 0); [|lia].
    rewrite (Z.mod_small (FilterCfg.Count (Filter cfg))) by lia.
    destruct (Z.gtb_spec total (FilterCfg.Count (Filter cfg))).
    + rewrite Z.mod_small by lia.
      destruct (Z.ltb_spec total (total - FilterCfg.Count (Filter cfg) + 1));
        [lia|].
      destruct (Z.eqb_spec (total - FilterCfg.Count (Filter cfg) + 1) 0);
        [lia|].
      cbn [andb orb insert existsb fst snd].
      rewrite orb_false_r, andb_true_iff, !Z.leb_le. lia.
    + destruct (Z.ltb_spec total 1); [lia|].
      cbn [andb orb Z.eqb insert existsb fst snd].
      rewrite orb_false_r, andb_true_iff, !Z.leb_le. lia.
Qed.

(** Count 3 on five messages: position 4 is in the window. *)
Lemma scan_window_witness :
  SeqSet_Contains (AddRange [] (windowFrom (Sample.cfg 3) 5) 5) 4 = true
  <-> 5 - Z.min 3 5 < 4 <= 5.
Proof.
  apply (scan_window (Sample.cfg 3) 5 4); [lia | simpl; lia | simpl; lia].
Defined.

(** ** Pass 2, message by message *)

Lemma bodyLoop_invoices (messages : list Message) :
  Forall envelopePresent messages ->
  forall invoices tr,
    fst (bodyLoop messages invoices tr)
    = Ok (invoices ++ flat_map invoiceOf messages).
Proof.
  induction 1 as [|msg rest Hmsg _ IH]; intros invoices tr.
  - simpl. now rewrite app_nil_r.
  - cbn [bodyLoop flat_map]. unfold invoiceOf at 1.
    unfold envelopePresent in Hmsg.
    destruct (MsgBody msg) as [r|].
    + destruct (extractHTMLBody r) as [htmlBody|err].
      * destruct (MsgEnvelope msg) as [env|]; [|congruence].
        now rewrite IH, <- app_assoc.
      * rewrite bind_emit, IH. now destruct (MsgEnvelope msg).
    + now rewrite bind_emit, IH.
Qed.

(** X5. When the body fetch completes, [fetchBodies] returns one invoice
    for every delivered message that has a body with an inline HTML part,
    in the order of delivery; a message without body, or whose body yields
    no HTML, is left out and the messages after it still count. *)
Theorem fetchBodies_invoices (c : Server) (uids : list Z)
                             (messages : list Message) (tr : list Event) :
  UidFetch c (fold_left AddNum uids []) = (messages, None) ->
  Forall envelopePresent messages ->
  fst (fetchBodies c uids tr) = Ok (flat_map invoiceOf messages)
  /\ (List.length (flat_map invoiceOf messages) <= List.length messages)%nat.
Proof.
  intros HU Henv. split.
  - unfold fetchBodies. rewrite bind_emit, HU. unfold bind.
    pose proof (bodyLoop_invoices messages Henv []
                  (tr ++ [EvUidFetch (fold_left AddNum uids [])
                            [FetchBodySection true; FetchEnvelope]])) as H.
    destruct (bodyLoop messages [] _) as [o tr1]. simpl in H. now subst o.
  - clear. induction messages as [|msg rest IH]; [apply le_n|].
    cbn [flat_map]. rewrite length_app. cbn [List.length].
    assert (List.length (invoiceOf msg) <= 1)%nat.
    { unfold invoiceOf. destruct (MsgBody msg); [|apply le_0_n].
      destruct (MsgEnvelope msg); [|apply le_0_n].
      destruct (extractHTMLBody _); [apply le_n | apply le_0_n]. }
    lia.
Qed.

(** Of three delivered messages only the middle one yields an invoice. *)
Lemma fetchBodies_invoices_witness :
  fst (fetchBodies Sample.patchy [7; 9] [])
  = Ok [InvoiceEmail.mk (str "Deine Rechnung von Apple") Sample.today
                        (str "<p>Bestellnummer: M1</p>")]
  /\ (1 <= 3)%nat.
Proof.
  apply (fetchBodies_invoices Sample.patchy [7; 9]
           [Sample.bare7; Sample.full7; Sample.plain9] []).
  - reflexivity.
  - repeat constructor; simpl; discriminate.
Defined.

(** ** File names *)

Lemma sanitizeFilename_cases (s : gostring) :
  let t := sanitizeFilename s in
  Forall (fun r => allowed r = true) t /\ t <> [] /\ TrimSpace t = t.
Proof.
  cbn zeta. unfold sanitizeFilename.
  destruct (GoString.eqb (TrimSpace (replaceRuns false s)) []) eqn:E.
  - split; [repeat constructor|]. split; [discriminate | reflexivity].
  - split; [apply TrimSpace_Forall, replaceRuns_allowed|].
    split; [|apply TrimSpace_idem].
    intros H. rewrite H in E. discriminate.
Qed.

(** X6. Sanitizing a sanitized name changes nothing. *)
Theorem sanitizeFilename_idempotent (s : gostring) :
  sanitizeFilename (sanitizeFilename s) = sanitizeFilename s.
Proof.
  destruct (sanitizeFilename_cases s) as (Hallowed & Hne & Htrim).
  set (t := sanitizeFilename s) in *. unfold sanitizeFilename.
  rewrite (replaceRuns_id t Hallowed false), Htrim.
  now rewrite (eqb_neq t [] Hne).
Qed.

(** X7. A sanitized name is never empty, has no white space at either end,
    and holds no slash, backslash, dot or colon. *)
Theorem sanitizeFilename_safe (s : gostring) :
  sanitizeFilename s <> []
  /\ TrimSpace (sanitizeFilename s) = sanitizeFilename s
  /\ (forall r, In r (sanitizeFilename s) ->
                r <> 47 /\ r <> 92 /\ r <> 46 /\ r <> 58).
Proof.
  destruct (sanitizeFilename_cases s) as (Hallowed & Hne & Htrim).
  split; [exact Hne|]. split; [exact Htrim|].
  intros r Hr. rewrite Forall_forall in Hallowed. specialize (Hallowed r Hr).
  repeat split; intros ->; discriminate.
Qed.

Lemma cutAtBreak_noBreak (s : gostring) :
  Forall (fun r => noBreak r = true) (cutAtBreak s).
Proof.
  induction s as [|r s IH]; cbn [cutAtBreak]; [constructor|].
  destruct (existsb (Z.eqb r) lineBreaks) eqn:E; [constructor|].
  constructor; [|exact IH]. unfold noBreak. now rewrite E.
Qed.

Lemma orderNumberOf_single_line (text : gostring) :
  Forall (fun r => noBreak r = true) (orderNumberOf text)
  /\ TrimSpace (orderNumberOf text) = orderNumberOf text.
Proof.
  unfold orderNumberOf.
  set (o := TrimSpace (TrimPrefix text orderLabel)).
  destruct (IndexAny_cutAtBreak o) as [[Hi Hc] | [Hi Hc]].
  - rewrite Hi. cbn [Z.geb Z.compare]. split.
    + rewrite <- Hc. apply cutAtBreak_noBreak.
    + apply TrimSpace_idem.
  - destruct (Z.geb_spec (IndexAny o lineBreaks) 0); [|lia]. rewrite Hc. split.
    + apply TrimSpace_Forall, cutAtBreak_noBreak.
    + apply TrimSpace_idem.
Qed.

(** X8. Whatever the input, the order identifier that [extractOrderNumber]
    returns holds no line break and no tab and has no white space at either
    end. *)
Theorem extractOrderNumber_single_line
    (NewDocument : gostring -> Document + Error) (htmlContent : gostring) :
  Forall (fun r => noBreak r = true) (extractOrderNumber NewDocument htmlContent)
  /\ TrimSpace (extractOrderNumber NewDocument htmlContent)
     = extractOrderNumber NewDocument htmlContent.
Proof.
  unfold extractOrderNumber.
  destruct (NewDocument htmlContent) as [doc|err]; [|split; [constructor | reflexivity]].
  induction (Find_all doc) as [|e es IH]; cbn [orderNumberLoop].
  - split; [constructor | reflexivity].
  - destruct (HasPrefix _ orderLabel); [apply orderNumberOf_single_line | exact IH].
Qed.

(** Text that ends in a run of digits after an underscore splits in one
    way only. *)
Lemma underscore_digits_split (s1 s2 d1 d2 : gostring) :
  forallb is_digit d1 = true -> forallb is_digit d2 = true ->
  s1 ++ 95 :: d1 = s2 ++ 95 :: d2 -> s1 = s2 /\ d1 = d2.
Proof.
  intros H1 H2.
  assert (Hno : forall d pre post, forallb is_digit d = true ->
                                   d <> pre ++ 95 :: post).
  { intros d pre post Hd ->. rewrite forallb_app in Hd.
    apply andb_true_iff in Hd as [_ Hd]. discriminate. }
  revert s2. induction s1 as [|a s1 IH]; intros [|b s2]; cbn [app].
  - now intros [= ->].
  - intros [= <- H]. now apply (Hno d1 s2 d2) in H.
  - intros [= -> H]. symmetry in H. now apply (Hno d2 s1 d1) in H.
  - intros [= <- H]. destruct (IH s2 H) as [-> ->]. now split.
Qed.

(** X9. In a run of more than one invoice, the subject-based name of an
    invoice without order identifier tells its index: two such invoices at
    different indices never get the same file name, whatever their
    subjects. *)
Theorem fallback_names_distinct (total i j : Z) (inv inv' : InvoiceEmail.t) :
  total > 1 -> 0 <= i -> 0 <= j -> i <> j ->
  attachmentFilename total i inv [] <> attachmentFilename total j inv' [].
Proof.
  intros Htot Hi Hj Hij. unfold attachmentFilename.
  replace (GoString.eqb [] []) with true by reflexivity. cbn [negb].
  destruct (Z.gtb_spec total 1); [|lia]. unfold Sprintf_indexed, fmt_d.
  destruct (Z.ltb_spec (i + 1) 0); [lia|].
  destruct (Z.ltb_spec (j + 1) 0); [lia|].
  intros Heq. apply app_inv_tail in Heq.
  destruct (digits_spec (i + 1) ltac:(lia)) as (Hdi & Hvi & _).
  destruct (digits_spec (j + 1) ltac:(lia)) as (Hdj & Hvj & _).
  apply underscore_digits_split in Heq as [_ Heq]; [|assumption..].
  rewrite Heq in Hvi. lia.
Qed.

(** Two invoices with the same subject at the indices 0 and 1. *)
Lemma fallback_names_distinct_witness :
  attachmentFilename 2 0 Sample.withoutOrder []
  <> attachmentFilename 2 1 Sample.withoutOrder [].
Proof.
  apply (fallback_names_distinct 2 0 1 Sample.withoutOrder Sample.withoutOrder);
    lia.
Defined.

(** ** The conversion loop, item by item *)

Section ConversionProperties.

Variable httpGet : gostring -> (gostring * list Z) + Error.
Variable EncodeToString : list Z -> gostring.
Variable NewDocument : gostring -> Document + Error.
Variable Html : Document -> gostring + Error.
Variable convertHTMLToPDF : gostring -> list Z + Error.

Lemma convertLoop_Data (total : Z) (invoices : list InvoiceEmail.t) :
  forall i attachments,
    map PDFAttachment.Data
        (convertLoop httpGet EncodeToString NewDocument Html convertHTMLToPDF
                     total i invoices attachments)
    = map PDFAttachment.Data attachments
      ++ flat_map (printed httpGet EncodeToString NewDocument Html
                           convertHTMLToPDF) invoices.
Proof.
  induction invoices as [|inv rest IH]; intros i attachments;
    cbn [convertLoop flat_map].
  - now rewrite app_nil_r.
  - unfold printed at 1.
    destruct (cleanHTML _ _ _ _ _) as [cleaned|err]; [|apply IH].
    destruct (convertHTMLToPDF cleaned) as [pdf|err]; [|apply IH].
    rewrite IH, map_app, <- app_assoc. reflexivity.
Qed.

(** X10. The attachments of a run carry, in the order of the invoices, the
    PDF of every invoice on which the transformer and the printer succeed;
    an invoice on which one of them fails is left out and the invoices after
    it are still converted. *)
Theorem convertInvoices_Data (invoices : list InvoiceEmail.t) :
  map PDFAttachment.Data
      (convertInvoices httpGet EncodeToString NewDocument Html
                       convertHTMLToPDF invoices)
  = flat_map (printed httpGet EncodeToString NewDocument Html convertHTMLToPDF)
             invoices
  /\ (List.length (convertInvoices httpGet EncodeToString NewDocument Html
                                   convertHTMLToPDF invoices)
      <= List.length invoices)%nat.
Proof.
  assert (H : map PDFAttachment.Data
                (convertInvoices httpGet EncodeToString NewDocument Html
                                 convertHTMLToPDF invoices)
              = flat_map (printed httpGet EncodeToString NewDocument Html
                                  convertHTMLToPDF) invoices).
  { unfold convertInvoices. now rewrite convertLoop_Data. }
  split; [exact H|].
  rewrite <- (length_map PDFAttachment.Data), H. clear H.
  induction invoices as [|inv rest IH]; [apply le_n|].
  cbn [flat_map]. rewrite length_app. cbn [List.length].
  assert (List.length (printed httpGet EncodeToString NewDocument Html
                               convertHTMLToPDF inv) <= 1)%nat.
  { unfold printed. destruct (cleanHTML _ _ _ _ _); [|apply le_0_n].
    destruct (convertHTMLToPDF _); [apply le_n | apply le_0_n]. }
  lia.
Qed.

End ConversionProperties.

(** ** Configuration loading *)

Lemma applyDefaults_fields (raw : Config) :
  let cfg := applyDefaults raw in
  IMAP cfg = IMAP raw /\ SMTP cfg = SMTP raw
  /\ User cfg = User raw /\ Pass cfg = Pass raw
  /\ EmailCfg.To (Email cfg) = EmailCfg.To (Email raw)
  /\ FilterCfg.Count (Filter cfg) = FilterCfg.Count (Filter raw)
  /\ EmailCfg.From (Email cfg)
     = (if GoString.eqb (EmailCfg.From (Email raw)) [] then User raw
        else EmailCfg.From (Email raw))
  /\ FilterCfg.Subject (Filter cfg)
     = (if GoString.eqb (FilterCfg.Subject (Filter raw)) []
        then str "Deine Rechnung von Apple"
        else FilterCfg.Subject (Filter raw))
  /\ FilterCfg.From (Filter cfg)
     = (if GoString.eqb (FilterCfg.From (Filter raw)) [] then str "apple.com"
        else FilterCfg.From (Filter raw))
  /\ EmailCfg.Subject (Email cfg)
     = (if GoString.eqb (EmailCfg.Subject (Email raw)) []
        then str "Deine PDF-Rechnungen von Apple"
        else EmailCfg.Subject (Email raw)).
Proof.
  destruct raw as [imap smtp user pass [efrom eto esubject] [count fsubject ffrom]].
  unfold applyDefaults. cbn.
  destruct (GoString.eqb efrom []); cbn;
    destruct (GoString.eqb fsubject []); cbn;
    destruct (GoString.eqb ffrom []); cbn;
    destruct (GoString.eqb esubject []); cbn;
    repeat split; reflexivity.
Qed.

(** The defaults change nothing where the values they stand in for are
    set. *)
Lemma applyDefaults_settled (cfg : Config) :
  FilterCfg.Subject (Filter cfg) <> [] ->
  FilterCfg.From (Filter cfg) <> [] ->
  EmailCfg.Subject (Email cfg) <> [] ->
  (EmailCfg.From (Email cfg) = [] -> User cfg = []) ->
  applyDefaults cfg = cfg.
Proof.
  destruct cfg as [imap smtp user pass [efrom eto esubject] [count fsubject ffrom]].
  cbn [Email Filter User EmailCfg.From FilterCfg.Subject FilterCfg.From
       EmailCfg.Subject].
  intros H1 H2 H3 H4. unfold applyDefaults.
  cbn [Email Filter User EmailCfg.From FilterCfg.Subject FilterCfg.From
       EmailCfg.Subject].
  destruct (GoString.eqb efrom []) eqn:E1;
    unfold with_Email_From;
    cbn [Email Filter User Pass IMAP SMTP EmailCfg.From EmailCfg.To
         EmailCfg.Subject FilterCfg.Count FilterCfg.Subject FilterCfg.From];
    rewrite (eqb_neq _ _ H1);
    cbn [Email Filter FilterCfg.From EmailCfg.Subject];
    rewrite (eqb_neq _ _ H2);
    cbn [Email EmailCfg.Subject];
    rewrite (eqb_neq _ _ H3);
    [|reflexivity].
  apply eqb_eq in E1. now rewrite (H4 E1), E1.
Qed.

(** X11. A configuration that [loadConfig] returns has a filter subject, a
    filter domain and an outgoing subject that are not empty, and a sender
    that is empty only when the user name is; every value the file sets is
    kept, the scan count is taken as it is (there is no default for it), and
    applying the defaults again changes nothing. *)
Theorem loadConfig_defaults
    (ReadFile : gostring -> list Z + Error)
    (Unmarshal : list Z -> Config + Error)
    (path : gostring) (cfg : Config) :
  loadConfig ReadFile Unmarshal path = inl cfg ->
  exists data raw,
    ReadFile path = inl data /\ Unmarshal data = inl raw
    /\ FilterCfg.Subject (Filter cfg) <> []
    /\ FilterCfg.From (Filter cfg) <> []
    /\ EmailCfg.Subject (Email cfg) <> []
    /\ (EmailCfg.From (Email cfg) = [] -> User cfg = [])
    /\ (EmailCfg.From (Email raw) <> [] ->
        EmailCfg.From (Email cfg) = EmailCfg.From (Email raw))
    /\ (FilterCfg.Subject (Filter raw) <> [] ->
        FilterCfg.Subject (Filter cfg) = FilterCfg.Subject (Filter raw))
    /\ (FilterCfg.From (Filter raw) <> [] ->
        FilterCfg.From (Filter cfg) = FilterCfg.From (Filter raw))
    /\ (EmailCfg.Subject (Email raw) <> [] ->
        EmailCfg.Subject (Email cfg) = EmailCfg.Subject (Email raw))
    /\ IMAP cfg = IMAP raw /\ SMTP cfg = SMTP raw
    /\ User cfg = User raw /\ Pass cfg = Pass raw
    /\ EmailCfg.To (Email cfg) = EmailCfg.To (Email raw)
    /\ FilterCfg.Count (Filter cfg) = FilterCfg.Count (Filter raw)
    /\ applyDefaults cfg = cfg.
Proof.
  unfold loadConfig.
  destruct (ReadFile path) as [data|err] eqn:ER; [|discriminate].
  destruct (Unmarshal data) as [raw|err] eqn:EU; [|discriminate].
  intros [= <-]. exists data, raw. split; [reflexivity|]. split; [exact EU|].
  destruct (applyDefaults_fields raw)
    as (HI & HS & HU & HP & HT & HC & HEF & HFS & HFF & HES).
  assert (Hcases : forall (v d : gostring), d <> [] ->
            (if GoString.eqb v [] then d else v) <> []
            /\ (v <> [] -> (if GoString.eqb v [] then d else v) = v)).
  { intros v d Hd. destruct (GoString.eqb v []) eqn:E.
    - apply eqb_eq in E. split; [exact Hd | congruence].
    - split; [|reflexivity]. intros ->. discriminate. }
  destruct (Hcases (FilterCfg.Subject (Filter raw))
                   (str "Deine Rechnung von Apple") ltac:(discriminate)) as [N1 K1].
  destruct (Hcases (FilterCfg.From (Filter raw)) (str "apple.com")
                   ltac:(discriminate)) as [N2 K2].
  destruct (Hcases (EmailCfg.Subject (Email raw))
                   (str "Deine PDF-Rechnungen von Apple") ltac:(discriminate))
    as [N3 K3].
  rewrite <- HFS in N1, K1. rewrite <- HFF in N2, K2. rewrite <- HES in N3, K3.
  split; [exact N1|]. split; [exact N2|]. split; [exact N3|].
  assert (N4 : EmailCfg.From (Email (applyDefaults raw)) = [] ->
               User (applyDefaults raw) = []).
  { rewrite HEF, HU.
    destruct (GoString.eqb (EmailCfg.From (Email raw)) []) eqn:E;
      [now intros Hempty|].
    intros Hempty. rewrite Hempty in E. discriminate. }
  split; [exact N4|].
  split.
  { rewrite HEF. intros Hset. now rewrite (eqb_neq _ _ Hset). }
  split; [exact K1|]. split; [exact K2|]. split; [exact K3|].
  repeat (split; [assumption|]). now apply applyDefaults_settled.
Qed.

(** The file sets a user only: the sender and the filter get their
    defaults. *)
Lemma loadConfig_defaults_witness :
  exists data raw,
    (fun _ : gostring => @inl (list Z) Error [117]) (str "config.yaml") = inl data
    /\ (fun _ : list Z =>
          @inl Config Error
            (mkConfig (Endpoint.mk [] 0) (Endpoint.mk [] 0) (str "u") (str "p")
                      (EmailCfg.mk [] [] []) (FilterCfg.mk 0 [] [])))
         data = inl raw
    /\ str "Deine Rechnung von Apple" <> []
    /\ str "apple.com" <> []
    /\ str "Deine PDF-Rechnungen von Apple" <> []
    /\ (str "u" = [] -> str "u" = [])
    /\ (EmailCfg.From (Email raw) <> [] -> str "u" = EmailCfg.From (Email raw))
    /\ (FilterCfg.Subject (Filter raw) <> [] ->
        str "Deine Rechnung von Apple" = FilterCfg.Subject (Filter raw))
    /\ (FilterCfg.From (Filter raw) <> [] ->
        str "apple.com" = FilterCfg.From (Filter raw))
    /\ (EmailCfg.Subject (Email raw) <> [] ->
        str "Deine PDF-Rechnungen von Apple" = EmailCfg.Subject (Email raw))
    /\ Endpoint.mk [] 0 = IMAP raw /\ Endpoint.mk [] 0 = SMTP raw
    /\ str "u" = User raw /\ str "p" = Pass raw
    /\ [] = EmailCfg.To (Email raw)
    /\ 0 = FilterCfg.Count (Filter raw)
    /\ applyDefaults
         (mkConfig (Endpoint.mk [] 0) (Endpoint.mk [] 0) (str "u") (str "p")
            (EmailCfg.mk (str "u") [] (str "Deine PDF-Rechnungen von Apple"))
            (FilterCfg.mk 0 (str "Deine Rechnung von Apple") (str "apple.com")))
       = mkConfig (Endpoint.mk [] 0) (Endpoint.mk [] 0) (str "u") (str "p")
            (EmailCfg.mk (str "u") [] (str "Deine PDF-Rechnungen von Apple"))
            (FilterCfg.mk 0 (str "Deine Rechnung von Apple") (str "apple.com")).
Proof.
  apply (loadConfig_defaults
           (fun _ => inl [117])
           (fun _ => inl (mkConfig (Endpoint.mk [] 0) (Endpoint.mk [] 0)
                            (str "u") (str "p")
                            (EmailCfg.mk [] [] []) (FilterCfg.mk 0 [] [])))
           (str "config.yaml")
           (mkConfig (Endpoint.mk [] 0) (Endpoint.mk [] 0) (str "u") (str "p")
              (EmailCfg.mk (str "u") [] (str "Deine PDF-Rechnungen von Apple"))
              (FilterCfg.mk 0 (str "Deine Rechnung von Apple") (str "apple.com")))).
  reflexivity.
Defined.

(** ** The driver *)

Section DriverProperties.

Variable unicodeLower : rune -> rune.
Variable clock : nat -> Time.
Variable c : Server.
Variable ReadFile : gostring -> list Z + Error.
Variable Unmarshal : list Z -> Config + Error.
Variable httpGet : gostring -> (gostring * list Z) + Error.
Variable EncodeToString : list Z -> gostring.
Variable NewDocument : gostring -> Document + Error.
Variable Html : Document -> gostring + Error.
Variable convertHTMLToPDF : gostring -> list Z + Error.
Variable DialAndSend : Dialer -> MailMessage -> option Error.

(** X12. A run of [main] hands at most one mail to the dialer, and only
    when the configuration loads, the scan returns, and at least one invoice
    converts: then the mail goes out once with the configured sender,
    recipient and subject, under the credentials of the mailbox login, and
    carries the PDFs of the converted invoices in their order.  The run ends
    in a fatal exit on a configuration, scan or delivery error and in no
    other case, in a panic when the scan panics, and returns normally
    otherwise, also when there is nothing to send. *)
Theorem main_delivery :
  let result :=
    main unicodeLower clock c ReadFile Unmarshal httpGet EncodeToString
         NewDocument Html convertHTMLToPDF DialAndSend in
  (forall err,
     loadConfig ReadFile Unmarshal (str "config.yaml") = inr err ->
     result = (Fatal "Failed to load config" err, []))
  /\ (forall cfg,
        loadConfig ReadFile Unmarshal (str "config.yaml") = inl cfg ->
        (forall err,
           fst (fetchInvoices unicodeLower clock c cfg []) = Err err ->
           result = (Fatal "Failed to fetch invoices" err, []))
        /\ (fst (fetchInvoices unicodeLower clock c cfg []) = Panic ->
            result = (Panicked, []))
        /\ (forall invoices,
              fst (fetchInvoices unicodeLower clock c cfg []) = Ok invoices ->
              let attachments :=
                convertInvoices httpGet EncodeToString NewDocument Html
                                convertHTMLToPDF invoices in
              (attachments = [] -> result = (Returned, []))
              /\ (attachments <> [] ->
                  let mail := buildMessage cfg attachments in
                  snd result = [(smtpDialer cfg, mail)]
                  /\ fst result
                     = match DialAndSend (smtpDialer cfg) mail with
                       | Some err => Fatal "ERROR sending email" err
                       | None => Returned
                       end
                  /\ HeaderFrom mail = EmailCfg.From (Email cfg)
                  /\ HeaderTo mail = EmailCfg.To (Email cfg)
                  /\ HeaderSubject mail = EmailCfg.Subject (Email cfg)
                  /\ DialUsername (smtpDialer cfg) = User cfg
                  /\ DialPassword (smtpDialer cfg) = Pass cfg
                  /\ map fst (Attached mail)
                     = map PDFAttachment.Filename attachments
                  /\ map snd (Attached mail)
                     = flat_map (printed httpGet EncodeToString NewDocument
                                         Html convertHTMLToPDF) invoices))).
Proof.
  cbn zeta. unfold main. split.
  - intros err ->. reflexivity.
  - intros cfg ->. split; [|split].
    + intros err ->. reflexivity.
    + intros ->. reflexivity.
    + intros invoices ->. split.
      * intros Hnone. destruct invoices as [|inv rest]; [reflexivity|].
        cbn [List.length]. destruct (Z.eqb_spec (Z.of_nat (S (List.length rest))) 0);
          [lia|].
        rewrite Hnone. reflexivity.
      * intros Hsome.
        assert (Hinv : invoices <> []).
        { intros ->. now apply Hsome. }
        destruct (Z.eqb_spec (Z.of_nat (List.length invoices)) 0) as [H0|_].
        { destruct invoices; [congruence | simpl in H0; lia]. }
        set (attachments := convertInvoices _ _ _ _ _ invoices) in *.
        destruct (Z.eqb_spec (Z.of_nat (List.length attachments)) 0) as [H0|_].
        { destruct attachments; [congruence | simpl in H0; lia]. }
        unfold sendPDFEmail.
        assert (Hdata : map snd (Attached (buildMessage cfg attachments))
                        = flat_map (printed httpGet EncodeToString NewDocument
                                            Html convertHTMLToPDF) invoices).
        { cbn [buildMessage Attached]. rewrite map_map. cbn [snd].
          unfold attachments, convertInvoices. now rewrite convertLoop_Data. }
        assert (Hnames : map fst (Attached (buildMessage cfg attachments))
                         = map PDFAttachment.Filename attachments).
        { cbn [buildMessage Attached]. now rewrite map_map. }
        destruct (DialAndSend _ _); repeat split; assumption.
Qed.

End DriverProperties.

(** A run on the patchy server, whose pass 2 delivers one invoice: with a
    dialer that refuses, the one mail is handed over with the PDF of that
    invoice, under the configured headers and the credentials of the
    mailbox, and the run ends in the fatal exit of the delivery. *)
Lemma main_delivery_witness :
  let cfg := Sample.cfg 3 in
  let result :=
    main Sample.noTable Sample.frozen Sample.patchy
         (fun _ => inl [117]) (fun _ => inl cfg)
         Sample.offline Sample.noBase64 Sample.asPage Sample.textOnly
         Sample.printer (fun _ _ => Some (LibError 7)) in
  let mail :=
    buildMessage cfg
      [PDFAttachment.mk (str "Deine Rechnung von Apple.pdf") [37; 80; 68; 70]] in
  snd result = [(smtpDialer cfg, mail)]
  /\ fst result = Fatal "ERROR sending email" (LibError 7)
  /\ HeaderFrom mail = str "sender@example.com"
  /\ HeaderTo mail = str "recipient@example.com"
  /\ HeaderSubject mail = str "Deine PDF-Rechnungen von Apple"
  /\ DialUsername (smtpDialer cfg) = str "user@example.com"
  /\ DialPassword (smtpDialer cfg) = str "secret"
  /\ map fst (Attached mail) = [str "Deine Rechnung von Apple.pdf"]
  /\ map snd (Attached mail) = [[37; 80; 68; 70]].
Proof.
  cbn zeta.
  destruct (main_delivery Sample.noTable Sample.frozen Sample.patchy
              (fun _ => inl [117]) (fun _ => inl (Sample.cfg 3))
              Sample.offline Sample.noBase64 Sample.asPage Sample.textOnly
              Sample.printer (fun _ _ => Some (LibError 7))) as [_ H].
  destruct (H (Sample.cfg 3) eq_refl) as (_ & _ & H1).
  destruct (H1 [InvoiceEmail.mk (str "Deine Rechnung von Apple") Sample.today
                                (str "<p>Bestellnummer: M1</p>")] eq_refl)
    as [_ H2].
  apply H2. discriminate.
Defined.

(** ** What the transformer leaves behind *)

Lemma allElements_self (n : Node) : In n (allElements n) \/ allElements n = [].
Proof. destruct n; simpl; auto. Qed.

Lemma holdsAmong_In (q : Selector) (below : Node -> bool) p cs c :
  holdsAmong q below p cs = true -> In c cs -> q p c = true /\ below c = true.
Proof.
  unfold holdsAmong. rewrite forallb_forall. intros H Hc.
  apply andb_true_iff. now apply H.
Qed.

(** Where [q] holds everywhere, it holds of the children of every element,
    taken with that element as parent. *)
Lemma holdsBelow_children (q : Selector) (n : Node) :
  holdsBelow q n = true ->
  forall d a cs, In (ElementNode d a cs) (allElements n) ->
                 Forall (fun c => q (Some (ElementNode d a cs)) c = true) cs.
Proof.
  induction n as [data attrs kids IH| | |] using Node_induction;
    try (now intros _ d a cs []).
  cbn [holdsBelow allElements]. intros H d a cs [Heq | Hin].
  - injection Heq as <- <- <-. apply Forall_forall. intros k Hk.
    now apply (holdsAmong_In _ _ _ _ _ H Hk).
  - apply in_flat_map in Hin. destruct Hin as (k & Hk & Hin).
    rewrite Forall_forall in IH. apply (IH k Hk); [|exact Hin].
    now apply (holdsAmong_In _ _ _ _ _ H Hk).
Qed.

Lemma holds_children (q : Selector) (doc : Document) :
  holds q doc = true ->
  forall d a cs, In (ElementNode d a cs) (Find_all doc) ->
                 Forall (fun c => q (Some (ElementNode d a cs)) c = true) cs.
Proof.
  intros H d a cs Hin. apply in_flat_map in Hin. destruct Hin as (k & Hk & Hin).
  apply (holdsBelow_children q k); [|exact Hin].
  now apply (holdsAmong_In _ _ _ _ _ H Hk).
Qed.

(** A test that does not look at the parent holds of every element. *)
Lemma holdsBelow_inner (f : Node -> bool) (n : Node) :
  holdsBelow (fun _ c => f c) n = true ->
  forall e, In e (allElements n) -> e = n \/ f e = true.
Proof.
  induction n as [data attrs kids IH| | |] using Node_induction;
    try (now intros _ e []).
  cbn [holdsBelow allElements]. intros H e [Heq | Hin]; [now left | right].
  apply in_flat_map in Hin. destruct Hin as (k & Hk & Hin).
  destruct (holdsAmong_In _ _ _ _ _ H Hk) as [Hfk Hbk].
  rewrite Forall_forall in IH.
  destruct (IH k Hk Hbk e Hin) as [-> | He]; assumption.
Qed.

Lemma holds_elements (f : Node -> bool) (doc : Document) :
  holds (fun _ c => f c) doc = true ->
  forall e, In e (Find_all doc) -> f e = true.
Proof.
  intros H e Hin. apply in_flat_map in Hin. destruct Hin as (k & Hk & Hin).
  destruct (holdsAmong_In _ _ _ _ _ H Hk) as [Hfk Hbk].
  destruct (holdsBelow_inner f k Hbk e Hin) as [-> | He]; assumption.
Qed.

(** [q] holds everywhere below [n] when it holds of every pair of an element
    of [n] and a node that is an element of [n] or no element at all. *)
Lemma holdsBelow_intro (q : Selector) (n : Node) :
  (forall p c, In p (allElements n) ->
               In c (allElements n) \/ allElements c = [] ->
               q (Some p) c = true) ->
  holdsBelow q n = true.
Proof.
  induction n as [data attrs kids IH| | |] using Node_induction;
    try reflexivity.
  intros H. cbn [holdsBelow]. unfold holdsAmong. apply forallb_forall.
  intros k Hk. apply andb_true_iff. split.
  - apply H; [now left|].
    destruct (allElements_self k) as [Hs | Hs]; [left | now right].
    right. apply in_flat_map. now exists k.
  - rewrite Forall_forall in IH. apply (IH k Hk). intros p c Hp Hc.
    apply H.
    + right. apply in_flat_map. now exists k.
    + destruct Hc as [Hc | Hc]; [left | now right].
      right. apply in_flat_map. now exists k.
Qed.

Lemma holds_intro (q : Selector) (doc : Document) :
  (forall p c, p = None \/ (exists e, p = Some e /\ In e (Find_all doc)) ->
               In c (Find_all doc) \/ allElements c = [] ->
               q p c = true) ->
  holds q doc = true.
Proof.
  intros H. unfold holds, holdsAmong. apply forallb_forall.
  intros k Hk. apply andb_true_iff. split.
  - apply H; [now left|].
    destruct (allElements_self k) as [Hs | Hs]; [left | now right].
    apply in_flat_map. now exists k.
  - apply holdsBelow_intro. intros p c Hp Hc. apply H.
    + right. exists p. split; [reflexivity|]. apply in_flat_map. now exists k.
    + destruct Hc as [Hc | Hc]; [left | now right].
      apply in_flat_map. now exists k.
Qed.

Lemma hasClass_no_element (class : gostring) (c : Node) :
  allElements c = [] -> hasClass class c = false.
Proof. destruct c; [discriminate | reflexivity ..]. Qed.

(** Outside an element of class footer-copy the emphasis changes nothing. *)
Lemma boldUID_fixed (n : Node) :
  Forall (fun e => hasClass (str "footer-copy") e = false) (allElements n) ->
  boldUID false n = n.
Proof.
  induction n as [data attrs kids IH| | |] using Node_induction;
    try reflexivity.
  cbn [allElements]. intros H. apply Forall_cons_iff in H. destruct H as [Hn Hkids].
  cbn [boldUID andb orb]. rewrite Hn. f_equal. clear Hn.
  induction IH as [|k kids Hk _ IHkids]; [reflexivity|].
  cbn [flat_map] in Hkids. apply Forall_app in Hkids.
  destruct Hkids as [Hk' Hrest].
  cbn [map]. now rewrite (Hk Hk'), (IHkids Hrest).
Qed.

Section TransformerOutput.

Variable httpGet : gostring -> (gostring * list Z) + Error.
Variable EncodeToString : list Z -> gostring.

(** X13. In the document the transformer writes, no element has the class
    action-button-cell or inline-link-group, no child of an element with the
    id footer_section has the class custom-1sstyyn, and an image whose
    address still begins with "http" is one whose download failed. *)
Theorem cleanDocument_stripped (doc : Document) (data : gostring)
                               (attrs : list Attribute) (cs : list Node) :
  let e := ElementNode data attrs cs in
  In e (Find_all (cleanDocument httpGet EncodeToString doc)) ->
  hasClass (str "action-button-cell") e = false
  /\ hasClass (str "inline-link-group") e = false
  /\ (hasId (str "footer_section") e = true ->
      Forall (fun c => hasClass (str "custom-1sstyyn") c = false) cs)
  /\ (hasTag (str "img") e = true ->
      forall src, getAttributeValue (str "src") attrs = Some src ->
                  HasPrefix src (str "http") = true ->
                  exists err, httpGet src = inr err).
Proof.
  intros e Hin.
  destruct (cleanDocument_output httpGet EncodeToString doc)
    as (Himg & Hcell & Hfoot & Hlinks).
  split; [|split; [|split]].
  - apply negb_true_iff.
    exact (holds_elements
             (fun c => negb (hasClass (str "action-button-cell") c)) _ Hcell e Hin).
  - apply negb_true_iff.
    exact (holds_elements
             (fun c => negb (hasClass (str "inline-link-group") c)) _ Hlinks e Hin).
  - intros Hid. pose proof (holds_children _ _ Hfoot data attrs cs Hin) as Hcs.
    apply Forall_forall. intros c Hc. rewrite Forall_forall in Hcs.
    specialize (Hcs c Hc). unfold unselected, childOf in Hcs. fold e in Hcs.
    rewrite Hid in Hcs. now apply negb_true_iff in Hcs.
  - intros Htag src Hsrc Hhttp.
    pose proof (holds_elements
                  (fun c => settledImage httpGet EncodeToString None c)
                  _ Himg e Hin) as Hs.
    cbn [settledImage e] in Hs. fold e in Hs.
    rewrite Htag, Hsrc, Hhttp in Hs. cbn [negb orb] in Hs.
    unfold embedImage in Hs.
    destruct (httpGet src) as [[ct bytes]|err]; [discriminate | now exists err].
Qed.

(** X14. A document without images and without elements of the classes
    action-button-cell, footer-copy and inline-link-group or of the id
    footer_section goes through the transformer unchanged. *)
Theorem cleanDocument_markerFree (doc : Document) :
  markerFree doc -> cleanDocument httpGet EncodeToString doc = doc.
Proof.
  unfold markerFree. rewrite Forall_forall. intros Hfree.
  assert (Himg : holds (settledImage httpGet EncodeToString) doc = true).
  { apply holds_intro. intros p c _ [Hc | Hc].
    - destruct c as [d a k| | |]; try reflexivity.
      cbn [settledImage]. now rewrite (proj1 (Hfree _ Hc)).
    - destruct c; [discriminate | reflexivity ..]. }
  assert (Hcell : holds (unselected (byClass (str "action-button-cell"))) doc
                  = true).
  { apply holds_intro. intros p c _ Hc. unfold unselected, byClass.
    apply negb_true_iff. destruct Hc as [Hc | Hc].
    - apply (Hfree _ Hc).
    - now apply hasClass_no_element. }
  assert (Hlinks : holds (unselected (byClass (str "inline-link-group"))) doc
                   = true).
  { apply holds_intro. intros p c _ Hc. unfold unselected, byClass.
    apply negb_true_iff. destruct Hc as [Hc | Hc].
    - apply (Hfree _ Hc).
    - now apply hasClass_no_element. }
  assert (Hfoot : forall child,
             holds (unselected (childOf (str "footer_section") child)) doc
             = true).
  { intros child. apply holds_intro. intros p c Hp _. unfold unselected, childOf.
    destruct Hp as [-> | (e & -> & He)]; [reflexivity|].
    destruct (Hfree _ He) as (_ & _ & Hid & _). now rewrite Hid. }
  assert (Hbold : map (boldUID false) doc = doc).
  { assert (Hcopy : Forall (fun e => hasClass (str "footer-copy") e = false)
                           (Find_all doc)).
    { apply Forall_forall. intros e He. apply (Hfree _ He). }
    clear - Hcopy. induction doc as [|k doc IH]; [reflexivity|].
    unfold Find_all in Hcopy. cbn [flat_map] in Hcopy.
    apply Forall_app in Hcopy. destruct Hcopy as [Hk Hrest].
    cbn [map]. now rewrite (boldUID_fixed k Hk), (IH Hrest). }
  unfold cleanDocument.
  rewrite (map_embedImages_fixed _ _ _ Himg), (Remove_fixed _ _ Hcell),
    (RemoveFirst_fixed _ _ (Hfoot _)), (Remove_fixed _ _ (Hfoot _)), Hbold.
  apply Remove_fixed, Hlinks.
Qed.

End TransformerOutput.

(** On the sample invoice page, read offline: the logo stays in the output
    with its remote address, and the download of that address fails. *)
Lemma cleanDocument_stripped_witness :
  In (Sample.elem "img" [Sample.attr "src" "http://example.com/logo.png"] [])
     (Find_all (cleanDocument Sample.offline Sample.noBase64 Sample.invoicePage))
  /\ exists err, Sample.offline (str "http://example.com/logo.png") = inr err.
Proof.
  assert (Hin : In (Sample.elem "img"
                      [Sample.attr "src" "http://example.com/logo.png"] [])
                   (Find_all (cleanDocument Sample.offline Sample.noBase64
                                            Sample.invoicePage))).
  { vm_compute. auto. }
  split; [exact Hin|].
  destruct (cleanDocument_stripped Sample.offline Sample.noBase64
              Sample.invoicePage _ _ _ Hin) as (_ & _ & _ & Himg).
  exact (Himg eq_refl _ eq_refl eq_refl).
Defined.

(** The page with one paragraph has no marker. *)
Lemma cleanDocument_markerFree_witness :
  markerFree (Sample.page (str "Danke"))
  /\ cleanDocument Sample.offline Sample.noBase64 (Sample.page (str "Danke"))
     = Sample.page (str "Danke").
Proof.
  assert (Hfree : markerFree (Sample.page (str "Danke"))).
  { unfold markerFree. repeat constructor. }
  split; [exact Hfree|].
  exact (cleanDocument_markerFree Sample.offline Sample.noBase64 _ Hfree).
Defined.

(** ** File names of a run *)

Lemma is_digit_allowed (s : gostring) :
  forallb is_digit s = true -> Forall (fun r => allowed r = true) s.
Proof.
  rewrite forallb_forall. intros H. apply Forall_forall. intros r Hr.
  specialize (H r Hr). unfold is_digit in H. unfold allowed.
  rewrite H. now rewrite !orb_true_r.
Qed.

Lemma fmt_d_allowed (n : Z) : Forall (fun r => allowed r = true) (fmt_d n).
Proof.
  unfold fmt_d. destruct (Z.ltb_spec n 0).
  - constructor; [reflexivity|].
    apply is_digit_allowed, (digits_spec (- n)). lia.
  - now apply is_digit_allowed, (digits_spec n).
Qed.

Lemma fmt_0d_allowed (w : nat) (n : Z) :
  Forall (fun r => allowed r = true) (fmt_0d w n).
Proof.
  assert (Hds : Forall (fun r => allowed r = true) (digits (Z.abs n))).
  { apply is_digit_allowed, (digits_spec (Z.abs n)). lia. }
  assert (Hzeros : forall k, Forall (fun r => allowed r = true) (repeat 48 k)).
  { intros k. apply is_digit_allowed, forallb_repeat_zero. }
  unfold fmt_0d. destruct (n <? 0).
  - constructor; [reflexivity|]. apply Forall_app. split; [apply Hzeros | exact Hds].
  - apply Forall_app. split; [apply Hzeros | exact Hds].
Qed.

(** The name of an attachment is a stem of runes of the class that
    [sanitizeFilename] keeps, followed by ".pdf". *)
Lemma attachmentFilename_stem (total i : Z) (inv : InvoiceEmail.t)
                              (orderNum : gostring) :
  exists stem,
    attachmentFilename total i inv orderNum = stem ++ str ".pdf"
    /\ stem <> []
    /\ Forall (fun r => allowed r = true) stem.
Proof.
  unfold attachmentFilename.
  destruct (negb (GoString.eqb orderNum [])).
  - eexists. split; [reflexivity|]. unfold Sprintf_order. split.
    + intros H. apply app_eq_nil in H as [_ H]. discriminate.
    + repeat (apply Forall_app; split);
        try apply fmt_0d_allowed; try (now repeat constructor).
      apply sanitizeFilename_cases.
  - destruct (sanitizeFilename_cases (InvoiceEmail.Subject inv))
      as (Hallowed & Hne & _).
    destruct (total >? 1).
    + eexists. split; [reflexivity|]. unfold Sprintf_indexed. split.
      * intros H. apply app_eq_nil in H as [H _]. contradiction.
      * repeat (apply Forall_app; split);
          try apply fmt_d_allowed; try exact Hallowed;
          now repeat constructor.
    + eexists. split; [reflexivity|]. now split.
Qed.

Section RunNames.

Variable httpGet : gostring -> (gostring * list Z) + Error.
Variable EncodeToString : list Z -> gostring.
Variable NewDocument : gostring -> Document + Error.
Variable Html : Document -> gostring + Error.
Variable convertHTMLToPDF : gostring -> list Z + Error.

(** X15. Every attachment of a run is named by a non-empty stem followed by
    ".pdf", and the stem holds runes of the class that [sanitizeFilename]
    keeps only: no slash, no backslash, no colon, and no dot other than the
    one of the extension, whatever the subject, the order identifier and the
    date of the invoice. *)
Theorem attachment_names_plain (invoices : list InvoiceEmail.t) :
  Forall (fun att =>
            exists stem,
              PDFAttachment.Filename att = stem ++ str ".pdf"
              /\ stem <> []
              /\ Forall (fun r => allowed r = true) stem
              /\ forall r, In r stem ->
                           r <> 47 /\ r <> 92 /\ r <> 58 /\ r <> 46)
         (convertInvoices httpGet EncodeToString NewDocument Html
                          convertHTMLToPDF invoices).
Proof.
  apply Forall_forall. intros att Hatt. unfold convertInvoices in Hatt.
  apply convertLoop_In in Hatt.
  destruct Hatt as [[] | (k & inv & pdf & _ & _ & ->)].
  cbn [PDFAttachment.Filename].
  destruct (attachmentFilename_stem (Z.of_nat (List.length invoices))
              (0 + Z.of_nat k) inv
              (extractOrderNumber NewDocument (InvoiceEmail.HTMLBody inv)))
    as (stem & Hname & Hne & Hallowed).
  exists stem. split; [exact Hname|]. split; [exact Hne|].
  split; [exact Hallowed|].
  intros r Hr. rewrite Forall_forall in Hallowed. specialize (Hallowed r Hr).
  repeat split; intros ->; discriminate.
Qed.

End RunNames.

(** ** The failures of the content extractor *)

(** X16. [extractHTMLBody] tells its failures apart: "creating mail reader"
    wraps the error of the reader that could not be created, "reading mail
    part" the first read error met before any inline HTML part, and
    "reading HTML body" the error of reading the content of the first inline
    HTML part; a read error behind that part is never seen. *)
Theorem extractHTMLBody_errors (r : RawBody) (cause : Error) :
  (extractHTMLBody r = inr (Wrap "creating mail reader" cause)
   <-> r = CreateReader_err cause)
  /\ (extractHTMLBody r = inr (Wrap "reading mail part" cause)
      <-> exists pre post,
            r = CreateReader_ok (map NextPart_ok pre ++ NextPart_err cause :: post)
            /\ Forall (fun q => Header q <> InlineHeader (str "text/html")) pre)
  /\ (extractHTMLBody r = inr (Wrap "reading HTML body" cause)
      <-> exists pre p post,
            r = CreateReader_ok (map NextPart_ok pre ++ NextPart_ok p :: post)
            /\ Forall (fun q => Header q <> InlineHeader (str "text/html")) pre
            /\ Header p = InlineHeader (str "text/html")
            /\ Body p = inr cause).
Proof.
  split; [|split].
  - split; [|now intros ->].
    destruct r as [e|mr]; cbn [extractHTMLBody]; [now intros [= ->]|].
    destruct (extractHTMLBody_loop_inv mr)
      as (pre & Hpre & [[-> H] | [(err & post & -> & H) | (p & post & -> & Hp & H)]]);
      rewrite H; cbn [fst]; try discriminate.
    destruct (Body p); discriminate.
  - split.
    + destruct r as [e|mr]; cbn [extractHTMLBody]; [discriminate|].
      destruct (extractHTMLBody_loop_inv mr)
        as (pre & Hpre & [[-> H] | [(err & post & -> & H) | (p & post & -> & Hp & H)]]);
        rewrite H; cbn [fst].
      * discriminate.
      * intros [= ->]. now exists pre, post.
      * destruct (Body p); discriminate.
    + intros (pre & post & -> & Hpre). cbn [extractHTMLBody].
      now rewrite extractHTMLBody_loop_skip.
  - split.
    + destruct r as [e|mr]; cbn [extractHTMLBody]; [discriminate|].
      destruct (extractHTMLBody_loop_inv mr)
        as (pre & Hpre & [[-> H] | [(err & post & -> & H) | (p & post & -> & Hp & H)]]);
        rewrite H; cbn [fst]; try discriminate.
      destruct (Body p) as [b|e] eqn:EB; [discriminate|].
      intros [= ->]. now exists pre, p, post.
    + intros (pre & p & post & -> & Hpre & Hp & HB). cbn [extractHTMLBody].
      rewrite extractHTMLBody_loop_skip by assumption.
      cbn [extractHTMLBody_loop]. apply isInlineHTML_spec in Hp.
      now rewrite Hp, HB.
Qed.

(** ** Pass 2 without envelope *)

Lemma bodyLoop_Panic (messages : list Message) :
  forall invoices tr,
    fst (bodyLoop messages invoices tr) = Panic
    <-> exists msg r body,
          In msg messages /\ MsgBody msg = Some r
          /\ extractHTMLBody r = inl body /\ MsgEnvelope msg = None.
Proof.
  induction messages as [|msg rest IH]; intros invoices tr.
  - cbn [bodyLoop]. split; [discriminate | now intros (m & r & b & [] & _)].
  - assert (Hskip : forall invoices' tr',
              (MsgBody msg = None
               \/ (exists r err, MsgBody msg = Some r
                                 /\ extractHTMLBody r = inr err)
               \/ MsgEnvelope msg <> None) ->
              (fst (bodyLoop rest invoices' tr') = Panic
               <-> exists m r body,
                     In m (msg :: rest) /\ MsgBody m = Some r
                     /\ extractHTMLBody r = inl body /\ MsgEnvelope m = None)).
    { intros invoices' tr' Hmsg. rewrite IH. split.
      - intros (m & r & b & Hm & H). exists m, r, b. split; [now right | exact H].
      - intros (m & r & b & [<- | Hm] & HB & HE & HN).
        + exfalso. destruct Hmsg as [Hmsg | [(r' & err & Hr & Herr) | Hmsg]];
            congruence.
        + now exists m, r, b. }
    cbn [bodyLoop]. destruct (MsgBody msg) as [r|] eqn:EB.
    + destruct (extractHTMLBody r) as [htmlBody|err] eqn:EH.
      * destruct (MsgEnvelope msg) as [env|] eqn:EE.
        -- apply Hskip. right. right. discriminate.
        -- split; [|reflexivity]. intros _. exists msg, r, htmlBody.
           split; [now left | now repeat split].
      * rewrite bind_emit. apply Hskip. right. left. now exists r, err.
    + rewrite bind_emit. apply Hskip. now left.
Qed.

(** X17. Pass 2 reads the envelope of a message without asking whether it
    is there: [fetchBodies] ends in a run-time panic exactly when the server
    delivers a message whose body yields HTML and which has no envelope,
    whatever the fetch reports at its end. *)
Theorem fetchBodies_panics (c : Server) (uids : list Z) (tr : list Event) :
  fst (fetchBodies c uids tr) = Panic
  <-> exists msg r body,
        In msg (fst (UidFetch c (fold_left AddNum uids [])))
        /\ MsgBody msg = Some r
        /\ extractHTMLBody r = inl body
        /\ MsgEnvelope msg = None.
Proof.
  unfold fetchBodies. rewrite bind_emit.
  destruct (UidFetch c (fold_left AddNum uids [])) as [messages done].
  cbn [fst]. rewrite <- (bodyLoop_Panic messages []
    (tr ++ [EvUidFetch (fold_left AddNum uids [])
              [FetchBodySection true; FetchEnvelope]])).
  unfold bind. destruct (bodyLoop messages [] _) as [[l|e|] tr1]; cbn [fst].
  - destruct done; split; discriminate.
  - split; discriminate.
  - split; reflexivity.
Qed.

(** The server delivers one message with an HTML body and no envelope. *)
Example fetchBodies_panics_sample :
  let bare := mkMessage 1 7 None
                (Some (CreateReader_ok
                         [NextPart_ok (mkPart (InlineHeader (str "text/html"))
                                              (inl (str "<p>x</p>")))])) in
  let server := mkServer None (fun _ _ => None) (inl 1)
                         (fun _ => ([Sample.meta7 1], None))
                         (fun _ => ([bare], None)) in
  fst (fetchBodies server [7] []) = Panic
  /\ fst (fetchInvoices Sample.noTable Sample.frozen server (Sample.cfg 0) [])
     = Panic.
Proof. split; reflexivity. Qed.
